(** * go-term: raw-mode line input from a terminal

    A shallow embedding of package [term] (files [term.go], [get.go] and
    the loop of [Input] and the layout of [Menu] from [input.go]) and of
    the parts of Go's [unicode/utf8], [unicode], [strconv], [strings],
    [bytes] and [golang.org/x/sys/unix] that these call, followed by the
    properties of the line editor.

    The repository holds two revisions of [get.go] and [term.go]: the
    original one, built for linux only, and the later one built for all
    unixoid systems.  Both are embedded; they differ in [erase] and in the
    flag word that receives ICRNL. *)

From Stdlib Require Import ZArith List Bool Lia String Ascii.
From Stdlib Require Import Strings.Byte Numbers.DecimalString.
From stdpp Require Import base option list gmap.

Import ListNotations.
Local Open Scope Z_scope.

(** ** Bytes and slices *)

(** The numeric value of a byte. *)
Definition bz (b : byte) : Z := Z.of_N (Byte.to_N b).

(** Go's [len(p)] as an [int]. *)
Definition len {A} (p : list A) : Z := Z.of_nat (length p).

(** Go's [p[i]] on a byte slice; every use below is in range. *)
Definition idx (p : list byte) (i : Z) : byte := nth (Z.to_nat i) p x00.

(** Go's [p[lo:hi]], [p[lo:]] and [p[:hi]]. *)
Definition slice {A} (p : list A) (lo hi : Z) : list A :=
  firstn (Z.to_nat (hi - lo)) (skipn (Z.to_nat lo) p).
Definition slice_from {A} (p : list A) (lo : Z) : list A := skipn (Z.to_nat lo) p.
Definition slice_to {A} (p : list A) (hi : Z) : list A := firstn (Z.to_nat hi) p.

(** A string literal as the bytes it holds. *)
Definition bytes_of (s : string) : list byte := list_byte_of_string s.

(** Go's [rune] is an [int32]; [int32 z] is the value left in such a
    variable after an operation whose exact result is [z]. *)
Definition rune := Z.
Definition int32 (z : Z) : Z := (z + 2 ^ 31) mod 2 ^ 32 - 2 ^ 31.

(** ** unicode/utf8 *)

Module utf8.

Definition RuneError : rune := 0xFFFD.
Definition RuneSelf : Z := 0x80.
Definition UTFMax : Z := 4.

Definition maskx : Z := 0x3F.
Definition mask2 : Z := 0x1F.
Definition mask3 : Z := 0x0F.
Definition mask4 : Z := 0x07.

Definition locb : Z := 0x80.
Definition hicb : Z := 0xBF.

Definition xx : Z := 0xF1.
Definition as_ : Z := 0xF0.
Definition s1 : Z := 0x02.
Definition s2 : Z := 0x13.
Definition s3 : Z := 0x03.
Definition s4 : Z := 0x23.
Definition s5 : Z := 0x34.
Definition s6 : Z := 0x04.
Definition s7 : Z := 0x44.

(** The table [first]: information about the first byte of a sequence,
    row by row as in the Go source. *)
Definition first_table : list Z :=
  repeat as_ 128                                     (* 0x00-0x7F *)
  ++ repeat xx 64                                    (* 0x80-0xBF *)
  ++ [xx; xx] ++ repeat s1 14                        (* 0xC0-0xCF *)
  ++ repeat s1 16                                    (* 0xD0-0xDF *)
  ++ [s2] ++ repeat s3 12 ++ [s4; s3; s3]            (* 0xE0-0xEF *)
  ++ [s5; s6; s6; s6; s7] ++ repeat xx 11.           (* 0xF0-0xFF *)

Definition first (c : Z) : Z := nth (Z.to_nat c) first_table xx.

Record acceptRange := { lo : Z; hi : Z }.

Definition acceptRanges (i : Z) : acceptRange :=
  if i =? 0 then {| lo := locb; hi := hicb |}
  else if i =? 1 then {| lo := 0xA0; hi := hicb |}
  else if i =? 2 then {| lo := locb; hi := 0x9F |}
  else if i =? 3 then {| lo := 0x90; hi := hicb |}
  else if i =? 4 then {| lo := locb; hi := 0x8F |}
  else {| lo := 0; hi := 0 |}.

Definition RuneStart (b : byte) : bool := negb (Z.land (bz b) 0xC0 =? 0x80).

(** [DecodeRune p] is the first rune of [p] and its width in bytes;
    an invalid encoding gives [(RuneError, 1)], an empty slice
    [(RuneError, 0)]. *)
Definition DecodeRune (p : list byte) : rune * Z :=
  let n := len p in
  if n <? 1 then (RuneError, 0) else
  let p0 := bz (idx p 0) in
  let x := first p0 in
  if x >=? as_ then
    let mask := Z.shiftr (int32 (Z.shiftl x 31)) 31 in
    (Z.lor (Z.ldiff p0 mask) (Z.land RuneError mask), 1)
  else
  let sz := Z.land x 7 in
  let accept := acceptRanges (Z.shiftr x 4) in
  if n <? sz then (RuneError, 1) else
  let b1 := bz (idx p 1) in
  if (b1 <? lo accept) || (hi accept <? b1) then (RuneError, 1) else
  if sz <=? 2 then
    (Z.lor (Z.shiftl (Z.land p0 mask2) 6) (Z.land b1 maskx), 2)
  else
  let b2 := bz (idx p 2) in
  if (b2 <? locb) || (hicb <? b2) then (RuneError, 1) else
  if sz <=? 3 then
    (Z.lor (Z.lor (Z.shiftl (Z.land p0 mask3) 12) (Z.shiftl (Z.land b1 maskx) 6))
           (Z.land b2 maskx), 3)
  else
  let b3 := bz (idx p 3) in
  if (b3 <? locb) || (hicb <? b3) then (RuneError, 1) else
  (Z.lor (Z.lor (Z.lor (Z.shiftl (Z.land p0 mask4) 18) (Z.shiftl (Z.land b1 maskx) 12))
                (Z.shiftl (Z.land b2 maskx) 6))
         (Z.land b3 maskx), 4).

(** The backward scan of [DecodeLastRune]:
    [for start--; start >= lim; start-- { if RuneStart(p[start]) { break } }]
    entered with [start] already decremented.  It runs its body at most
    [UTFMax - 1] times, so [k = 4] tests are enough. *)
Fixpoint lastRuneStart (k : nat) (p : list byte) (start lim : Z) : Z :=
  match k with
  | O => start
  | S k =>
      if start <? lim then start
      else if RuneStart (idx p start) then start
      else lastRuneStart k p (start - 1) lim
  end.

(** [DecodeLastRune p] is the last rune of [p] and its width in bytes. *)
Definition DecodeLastRune (p : list byte) : rune * Z :=
  let end_ := len p in
  if end_ =? 0 then (RuneError, 0) else
  let start := end_ - 1 in
  let r := bz (idx p start) in
  if r <? RuneSelf then (r, 1) else
  let lim := Z.max 0 (end_ - UTFMax) in
  let start := lastRuneStart 4 p (start - 1) lim in
  let start := if start <? 0 then 0 else start in
  let '(r, size) := DecodeRune (slice p start end_) in
  if negb (start + size =? end_) then (RuneError, 1) else (r, size).

(** The loop of [RuneCount], as a function of the part [p[i:]] that is
    still to be counted (the body reads [p[i]] .. [p[i+3]] and compares
    [i+size] with [len(p)] only) and of the counter [n].  Every turn
    consumes at least one byte: [fuel = length p] turns visit all of [p]. *)
Fixpoint RuneCount_loop (fuel : nat) (s : list byte) (n : Z) : Z :=
  match fuel with
  | O => n
  | S fuel =>
      if len s <=? 0 then n else
      let n := n + 1 in
      let c := bz (idx s 0) in
      if c <? RuneSelf then RuneCount_loop fuel (slice_from s 1) n else
      let x := first c in
      if x =? xx then RuneCount_loop fuel (slice_from s 1) n else
      let size := Z.land x 7 in
      if size >? len s then RuneCount_loop fuel (slice_from s 1) n else
      let accept := acceptRanges (Z.shiftr x 4) in
      let c1 := bz (idx s 1) in
      let size :=
        if (c1 <? lo accept) || (hi accept <? c1) then 1
        else if size =? 2 then size
        else
          let c2 := bz (idx s 2) in
          if (c2 <? locb) || (hicb <? c2) then 1
          else if size =? 3 then size
          else
            let c3 := bz (idx s 3) in
            if (c3 <? locb) || (hicb <? c3) then 1 else size in
      RuneCount_loop fuel (slice_from s size) n
  end.

(** [RuneCount p] is the number of runes in [p]; every byte of an invalid
    or short encoding counts as one rune. *)
Definition RuneCount (p : list byte) : Z := RuneCount_loop (length p) p 0.

End utf8.

(** ** unicode *)

Module unicode.

Definition MaxLatin1 : rune := 0xFF.

(** The bit [pg] of the table [properties], which covers Latin-1: set for
    U+0020..U+007E and U+00A0..U+00FF except U+00AD (soft hyphen). *)
Definition latin1_graphic (r : rune) : bool :=
  ((0x20 <=? r) && (r <=? 0x7E)) || ((0xA0 <=? r) && (r <=? 0xFF) && negb (r =? 0xAD)).

Section Tables.
(** Membership in [unicode.GraphicRanges] (categories L, M, N, P, S and
    Zs), the range tables of the Unicode database, consulted for runes
    beyond Latin-1. *)
Variable GraphicRanges : rune -> bool.

Definition IsGraphic (r : rune) : bool :=
  if (0 <=? r) && (r <=? MaxLatin1) then latin1_graphic r else GraphicRanges r.
End Tables.

(** Some rows of the range tables, for the examples: Latin Extended-A,
    Greek and Cyrillic letters, CJK unified ideographs (category L), the
    emoticons block, and U+FFFC..U+FFFD (category So), the second being
    the replacement character [utf8.RuneError]. *)
Definition GraphicRanges_rows (r : rune) : bool :=
  ((0x100 <=? r) && (r <=? 0x17F))
  || ((0x3B1 <=? r) && (r <=? 0x3C9))
  || ((0x410 <=? r) && (r <=? 0x44F))
  || ((0x4E00 <=? r) && (r <=? 0x9FA5))
  || ((0x1F600 <=? r) && (r <=? 0x1F64F))
  || ((0xFFFC <=? r) && (r <=? 0xFFFD)).

End unicode.

(** ** strconv *)

Module strconv.

(** [Itoa i]: the decimal representation of [i]. *)
Definition Itoa (i : Z) : list byte :=
  bytes_of (NilZero.string_of_int (Z.to_int i)).

End strconv.

(** ** strings and bytes *)

Module strings.

(** [Repeat(s, count)] for [count >= 0] (a negative count panics; the
    package never passes one). *)
Definition Repeat (s : list byte) (count : Z) : list byte :=
  concat (repeat s (Z.to_nat count)).

End strings.

Module bytes.

(** The loop of [Runes]: [for len(s) > 0 { r, l := utf8.DecodeRune(s); ...;
    s = s[l:] }], which stores the runes one after the other.  Every
    turn consumes at least one byte. *)
Fixpoint Runes_loop (fuel : nat) (s : list byte) : list rune :=
  match fuel with
  | O => []
  | S fuel =>
      if len s >? 0 then
        let '(r, l) := utf8.DecodeRune s in
        r :: Runes_loop fuel (slice_from s l)
      else []
  end.

(** [Runes s]: the runes of [s]. *)
Definition Runes (s : list byte) : list rune := Runes_loop (length s) s.

End bytes.

(** ** golang.org/x/sys/unix *)

Module unix.

(** [syscall.Errno]: the error numbers that matter here. *)
Inductive Errno := EINTR | EIO | EBADF | EINVAL | ENOTTY.

#[global] Instance Errno_eq_dec : EqDecision Errno.
Proof. solve_decision. Defined.

(** [unix.Termios] (linux layout): four flag words, the line discipline,
    the control-character array [Cc] and the two speeds. *)
Record Termios := {
  Iflag : Z;
  Oflag : Z;
  Cflag : Z;
  Lflag : Z;
  Line : byte;
  Cc : list byte;
  Ispeed : Z;
  Ospeed : Z
}.

#[global] Instance byte_eq_dec : EqDecision byte := Byte.byte_eq_dec.

#[global] Instance Termios_eq_dec : EqDecision Termios.
Proof. solve_decision. Defined.

(** The constants of the package that [term] names: indices into [Cc] and
    flag bits.  Their values depend on the platform. *)
Record Consts := {
  VMIN : nat; VTIME : nat; VEOF : nat; VERASE : nat; VKILL : nat; VWERASE : nat;
  ECHO : Z; ECHONL : Z; ICANON : Z; ISIG : Z; IEXTEN : Z;
  IGNBRK : Z; BRKINT : Z; PARMRK : Z; ISTRIP : Z; INLCR : Z; IGNCR : Z;
  ICRNL : Z; IXON : Z;
  OPOST : Z;
  CSIZE : Z; PARENB : Z; CS8 : Z
}.

(** The values on linux (amd64). *)
Definition linux : Consts := {|
  VMIN := 6; VTIME := 5; VEOF := 4; VERASE := 2; VKILL := 3; VWERASE := 14;
  ECHO := 0x8; ECHONL := 0x40; ICANON := 0x2; ISIG := 0x1; IEXTEN := 0x8000;
  IGNBRK := 0x1; BRKINT := 0x2; PARMRK := 0x8; ISTRIP := 0x20; INLCR := 0x40;
  IGNCR := 0x80; ICRNL := 0x100; IXON := 0x400;
  OPOST := 0x1;
  CSIZE := 0x30; PARENB := 0x100; CS8 := 0x30
|}.

(** The values on solaris (amd64), where VMIN and VTIME are the slots of
    VEOF and VEOL. *)
Definition solaris : Consts := {|
  VMIN := 4; VTIME := 5; VEOF := 4; VERASE := 2; VKILL := 3; VWERASE := 14;
  ECHO := 0x8; ECHONL := 0x40; ICANON := 0x2; ISIG := 0x1; IEXTEN := 0x8000;
  IGNBRK := 0x1; BRKINT := 0x2; PARMRK := 0x8; ISTRIP := 0x20; INLCR := 0x40;
  IGNCR := 0x80; ICRNL := 0x100; IXON := 0x400;
  OPOST := 0x1;
  CSIZE := 0x30; PARENB := 0x100; CS8 := 0x30
|}.

End unix.

(** ** The world outside the program *)

(** Go's [error] values that reach [GetBytes]: [io.EOF], a bare
    [syscall.Errno] (from an ioctl) and the [*os.PathError] that
    [os.File.Read] wraps around one.  A nil [error] is [None]. *)
Inductive error :=
  | io_EOF
  | Errno_error (e : unix.Errno)
  | PathError (op path : string) (e : unix.Errno).

#[global] Instance error_eq_dec : EqDecision error.
Proof. solve_decision. Defined.

(** [err.Error()] for these errors: the text of [io.EOF], the entry of the
    error table of package [syscall] for an [Errno], and
    [e.Op + " " + e.Path + ": " + e.Err.Error()] for a [*PathError]. *)
Definition Errno_Error (e : unix.Errno) : string :=
  match e with
  | unix.EINTR => "interrupted system call"
  | unix.EIO => "input/output error"
  | unix.EBADF => "bad file descriptor"
  | unix.EINVAL => "invalid argument"
  | unix.ENOTTY => "inappropriate ioctl for device"
  end.

Definition Error (e : error) : string :=
  match e with
  | io_EOF => "EOF"
  | Errno_error e => Errno_Error e
  | PathError op path e => op ++ " " ++ path ++ ": " ++ Errno_Error e
  end.

(** What one call [os.Stdin.Read(buf)] with a 4-byte [buf] can deliver:
    one to four bytes, or an error and no byte (end of file is the error
    [io.EOF]). *)
Inductive ReadResult :=
  | Read1 (b0 : byte)
  | Read2 (b0 b1 : byte)
  | Read3 (b0 b1 b2 : byte)
  | Read4 (b0 b1 b2 b3 : byte)
  | ReadFails (e : error).

(** What a file descriptor is open on. A descriptor that is not in the
    table is closed. *)
Inductive File :=
  | Terminal (t : unix.Termios)
  | NotATerminal.

(** The state of the world: the descriptor table with the discipline
    settings of each terminal, the outcome of the ioctl calls still to come
    ([Some e]: the kernel refuses the call with [e]; [None], or no entry:
    the call is served), the reads that standard input will deliver, and
    all bytes written to standard output so far. *)
Record World := {
  files : gmap Z File;
  faults : list (option unix.Errno);
  pending : list ReadResult;
  display : list byte
}.

Definition set_files (f : gmap Z File) (w : World) : World :=
  {| files := f; faults := faults w; pending := pending w; display := display w |}.
Definition set_faults (l : list (option unix.Errno)) (w : World) : World :=
  {| files := files w; faults := l; pending := pending w; display := display w |}.
Definition set_pending (l : list ReadResult) (w : World) : World :=
  {| files := files w; faults := faults w; pending := l; display := display w |}.
Definition set_display (d : list byte) (w : World) : World :=
  {| files := files w; faults := faults w; pending := pending w; display := d |}.

(** How a call ends: it returns, it panics, or it never returns because it
    waits for input that does not come. *)
Inductive Outcome (A : Type) :=
  | Returns (a : A)
  | Panics (msg : string)
  | Blocks.
Arguments Returns {A} a.
Arguments Panics {A} msg.
Arguments Blocks {A}.

(** Computations on the world. *)
Definition M (A : Type) : Type := World -> Outcome A * World.

Definition ret {A} (a : A) : M A := fun w => (Returns a, w).

Definition bind {A B} (m : M A) (f : A -> M B) : M B := fun w =>
  match m w with
  | (Returns a, w') => f a w'
  | (Panics msg, w') => (Panics msg, w')
  | (Blocks, w') => (Blocks, w')
  end.

Notation "x <- c1 ;; c2" := (bind c1 (fun x => c2))
  (at level 100, c1 at next level, right associativity).
Notation "c1 ;;; c2" := (bind c1 (fun _ => c2))
  (at level 100, right associativity).

Definition panic {A} (msg : string) : M A := fun w => (Panics msg, w).

(** [defer d; body]: [d] runs when [body] returns or panics, and what [d]
    returns is dropped.  (A deferred call that itself panics does not occur
    in this package.) *)
Definition defer {A B} (d : M B) (body : M A) : M A := fun w =>
  match body w with
  | (Returns a, w') => (Returns a, snd (d w'))
  | (Panics msg, w') => (Panics msg, snd (d w'))
  | (Blocks, w') => (Blocks, w')
  end.

Module os.

Definition Stdin_Fd : Z := 0.
Definition Stdout_Fd : Z := 1.

(** [os.Stdout.Write(b)]; its results are never looked at. *)
Definition Stdout_Write (b : list byte) : M unit := fun w =>
  (Returns (), set_display (display w ++ b) w).

(** The effect of one delivered read on [buf = []byte{0, 0, 0, 0}]:
    the buffer afterwards, the count and the error. *)
Definition read_into (r : ReadResult) : list byte * Z * option error :=
  match r with
  | Read1 b0 => ([b0; x00; x00; x00], 1, None)
  | Read2 b0 b1 => ([b0; b1; x00; x00], 2, None)
  | Read3 b0 b1 b2 => ([b0; b1; b2; x00], 3, None)
  | Read4 b0 b1 b2 b3 => ([b0; b1; b2; b3], 4, None)
  | ReadFails e => ([x00; x00; x00; x00], 0, Some e)
  end.

End os.

Module sys.
Import unix.

(** Every ioctl consumes the next entry of [faults]. *)
Definition next_fault : M (option Errno) := fun w =>
  match faults w with
  | [] => (Returns None, w)
  | f :: l => (Returns f, set_faults l w)
  end.

(** [unix.IoctlGetTermios(fd, req)]: the settings of the terminal, or the
    error. [req] is [TCGETS] or [TIOCGETA], by platform. *)
Definition IoctlGetTermios (fd : Z) : M (Termios + Errno) :=
  f <- next_fault ;;
  match f with
  | Some e => ret (inr e)
  | None => fun w =>
      match files w !! fd with
      | Some (Terminal t) => (Returns (inl t), w)
      | Some NotATerminal => (Returns (inr ENOTTY), w)
      | None => (Returns (inr EBADF), w)
      end
  end.

(** [unix.IoctlSetTermios(fd, req, value)]: installs [value], or fails and
    changes nothing. *)
Definition IoctlSetTermios (fd : Z) (value : Termios) : M (option Errno) :=
  f <- next_fault ;;
  match f with
  | Some e => ret (Some e)
  | None => fun w =>
      match files w !! fd with
      | Some (Terminal _) => (Returns None, set_files (<[fd := Terminal value]> (files w)) w)
      | Some NotATerminal => (Returns (Some ENOTTY), w)
      | None => (Returns (Some EBADF), w)
      end
  end.

End sys.

(** ** Package term *)

Module term.
Import unix.

(** The two revisions of the package in the repository: the first, built
    for linux only, and the second, built for all unixoid systems. *)
Inductive Revision := LinuxOnly | Unixoid.

Definition maskChar : byte := "*"%byte.
Definition linefeed : byte := x0a.
Definition space : byte := " "%byte.

(** [type EchoMode uint8] and its three named values. *)
Definition EchoMode := Z.
Definition EchoNormal : EchoMode := 0.
Definition EchoNone : EchoMode := 1.
Definition EchoMask : EchoMode := 2.

(** [IsTerminal] (term.go): [err != unix.ENOTTY]. *)
Definition IsTerminal (fd : Z) : M bool :=
  r <- sys.IoctlGetTermios fd ;;
  let err := match r with inl _ => None | inr e => Some e end in
  ret (negb (bool_decide (err = Some ENOTTY))).

(** [checkIsTerminal] (term.go); [&&] does not evaluate its second operand
    when the first is false. *)
Definition checkIsTerminal : M unit :=
  a <- IsTerminal os.Stdin_Fd ;;
  b <- (if a then IsTerminal os.Stdout_Fd else ret false) ;;
  if negb b then panic "STDIN and STDOUT must be connected to a terminal"
  else ret ().

(** The escape sequence that [erase] writes: cursor back by [x] columns,
    then erase to the end of the line. *)
Definition write_erase_sequence (x : Z) : M unit :=
  os.Stdout_Write [x1b; "["%byte] ;;;
  os.Stdout_Write (strconv.Itoa x) ;;;
  os.Stdout_Write ["D"%byte; x1b; "["%byte; "K"%byte].

(** [erase] (get.go). The first revision writes the sequence whenever
    [echo] is set; the second only when the width [x] is positive. *)
Definition erase (rev : Revision) (n : Z) (result : list byte) (echo : bool)
  : M (list byte) :=
  (if echo then
     let x := utf8.RuneCount (slice_from result (len result - n)) in
     match rev with
     | LinuxOnly => write_erase_sequence x
     | Unixoid => if x >? 0 then write_erase_sequence x else ret ()
     end
   else ret ()) ;;;
  ret (slice_to result (len result - n)).

(** The scan of the word-erase case,
    [for pos = len(result) - 1; pos >= 0; pos-- { ... }],
    entered with [pos = k - 1]; its value is [pos] when the loop is left. *)
Fixpoint werase_scan (result : list byte) (k : nat) (flag : bool) : Z :=
  match k with
  | O => -1
  | S k' =>
      let pos := Z.of_nat k' in
      if negb flag && negb (Byte.eqb (idx result pos) space) then
        werase_scan result k' true
      else if flag && Byte.eqb (idx result pos) space then pos
      else werase_scan result k' flag
  end.

(** How one turn of the read loop ends: with the next turn, or by leaving
    the loop with the values that [GetBytes] then returns. *)
Inductive Ctl :=
  | Next (result : list byte)
  | Done (result : list byte) (err : option error).

(** [maxInt] (term.go). *)
Definition maxInt (x y : Z) : Z := if x >? y then x else y.

(** [center] (term.go). [utf8.RuneCountInString] counts as [utf8.RuneCount]
    does; [/] on the positive [w - strLen] is [Z.quot]. *)
Definition center (s : list byte) (w : Z) : list byte :=
  let strLen := utf8.RuneCount s in
  if strLen >=? w then s
  else
    let left := Z.quot (w - strLen) 2 in
    let right := w - strLen - left in
    strings.Repeat [space] left ++ s ++ strings.Repeat [space] right.

(** [getMaxOptionWidth] (input.go). *)
Definition getMaxOptionWidth (options : list (list byte)) : Z :=
  fold_left (fun w s => maxInt w (utf8.RuneCount s)) options 0.

(** [getRowAndColCounts] (input.go). Go's [/] and [%] truncate towards
    zero ([Z.quot], [Z.rem]); a division by zero is a run-time panic, here
    [None].  The arguments are a number of options, a number of columns and
    the height of a terminal: no operation comes near the bounds of [int]. *)
Definition getRowAndColCounts (optCnt columns height : Z) (withTitle : bool)
  : option (Z * Z) :=
  if columns =? 0 then
    let h := if withTitle then 4 else 2 in
    let rowCnt := height - h in
    let rowCnt := if rowCnt >? optCnt then optCnt else rowCnt in
    if rowCnt =? 0 then None
    else
      let colCnt := Z.quot optCnt rowCnt in
      let colCnt := if negb (Z.rem optCnt rowCnt =? 0) then colCnt + 1 else colCnt in
      Some (rowCnt, colCnt)
  else
    let colCnt := columns in
    let rowCnt := Z.quot optCnt colCnt in
    let rowCnt := if negb (Z.rem optCnt colCnt =? 0) then rowCnt + 1 else rowCnt in
    Some (rowCnt, colCnt).

(** The loops of [Menu] that print the options (input.go),
    [for row := 0; row < rowCnt; row++ {
       for col := 0; col < colCnt; col++ {
         i := col*rowCnt + row
         if i >= optCnt { break }
         fmt.Printf(fmtStr, i+1, options[i]) ... } ... }]:
    the indices [i] of the options that are printed, row by row.  The
    counters go up by one each turn, so [colCnt - col] turns of the inner
    loop and [rowCnt - row] turns of the outer one are all there are. *)
Fixpoint menu_row (fuel : nat) (rowCnt colCnt optCnt row col : Z) : list Z :=
  match fuel with
  | O => []
  | S fuel =>
      if col <? colCnt then
        let i := col * rowCnt + row in
        if i >=? optCnt then []
        else i :: menu_row fuel rowCnt colCnt optCnt row (col + 1)
      else []
  end.

Fixpoint menu_rows (fuel : nat) (rowCnt colCnt optCnt row : Z) : list (list Z) :=
  match fuel with
  | O => []
  | S fuel =>
      if row <? rowCnt then
        menu_row (Z.to_nat colCnt) rowCnt colCnt optCnt row 0
        :: menu_rows fuel rowCnt colCnt optCnt (row + 1)
      else []
  end.

Definition menu_cells (rowCnt colCnt optCnt : Z) : list (list Z) :=
  menu_rows (Z.to_nat rowCnt) rowCnt colCnt optCnt 0.

Section Platform.
(** The platform constants and the Unicode range tables. *)
Variable K : Consts.
Variable GraphicRanges : rune -> bool.

(** The changes that [GetBytes] makes to the settings it read. The first
    revision sets ICRNL in [Oflag], the second in [Iflag]. *)
Definition input_settings (rev : Revision) (t : Termios) : Termios :=
  let cc := <[VMIN K := x01]> (Cc t) in
  let cc := <[VTIME K := x00]> cc in
  let lflag := Z.ldiff (Lflag t) (Z.lor (ECHO K) (ICANON K)) in
  match rev with
  | LinuxOnly =>
      {| Iflag := Iflag t; Oflag := Z.lor (Oflag t) (ICRNL K); Cflag := Cflag t;
         Lflag := lflag; Line := Line t; Cc := cc;
         Ispeed := Ispeed t; Ospeed := Ospeed t |}
  | Unixoid =>
      {| Iflag := Z.lor (Iflag t) (ICRNL K); Oflag := Oflag t; Cflag := Cflag t;
         Lflag := lflag; Line := Line t; Cc := cc;
         Ispeed := Ispeed t; Ospeed := Ospeed t |}
  end.

(** [termios.Cc[i]]. *)
Definition cc (t : Termios) (i : nat) : byte := nth i (Cc t) x00.

(** The [switch buf[0]] of the read loop, after a read that delivered
    [cnt] bytes into [buf] without error. [t] is the modified settings,
    from which the control bytes are taken. *)
Definition dispatch (rev : Revision) (echo : EchoMode) (limit : Z) (t : Termios)
    (buf : list byte) (cnt : Z) (result : list byte) : M Ctl :=
  let vEof := cc t (VEOF K) in
  let vErase := cc t (VERASE K) in
  let vKill := cc t (VKILL K) in
  let vWerase := cc t (VWERASE K) in
  let b0 := idx buf 0 in
  if Byte.eqb b0 vEof then
    ret (Done result (if len result =? 0 then Some io_EOF else None))
  else if Byte.eqb b0 linefeed then
    ret (Done result None)
  else if Byte.eqb b0 vErase then
    if len result >? 0 then
      let '(_, n) := utf8.DecodeLastRune result in
      result <- erase rev n result (negb (echo =? EchoNone)) ;;
      ret (Next result)
    else ret (Next result)
  else if Byte.eqb b0 vKill then
    result <- erase rev (len result) result (negb (echo =? EchoNone)) ;;
    ret (Next result)
  else if Byte.eqb b0 vWerase then
    if len result =? 0 then ret (Next result)
    else
      let pos := werase_scan result (length result) false in
      result <- erase rev (len result - (pos + 1)) result (negb (echo =? EchoNone)) ;;
      ret (Next result)
  else
    let '(r, _) := utf8.DecodeRune buf in
    if unicode.IsGraphic GraphicRanges r then
      (if echo =? EchoNormal then os.Stdout_Write (slice_to buf cnt)
       else if echo =? EchoMask then os.Stdout_Write [maskChar]
       else ret ()) ;;;
      let result := result ++ slice_to buf cnt in
      if (limit >? 0) && (utf8.RuneCount result =? limit) then ret (Done result None)
      else ret (Next result)
    else ret (Next result).

(** The read loop of [GetBytes]. [script] is what standard input still
    has to deliver; each turn takes one read from it. When nothing is
    left the read never returns. *)
Fixpoint read_loop (rev : Revision) (echo : EchoMode) (limit : Z) (t : Termios)
    (script : list ReadResult) (result : list byte) (w : World)
    : Outcome (list byte * option error) * World :=
  match script with
  | [] => (Blocks, set_pending [] w)
  | r :: script' =>
      let w := set_pending script' w in
      let '(buf, cnt, err) := os.read_into r in
      match err with
      | Some e => (Returns (result, Some e), w)
      | None =>
          match dispatch rev echo limit t buf cnt result w with
          | (Returns (Next result'), w') => read_loop rev echo limit t script' result' w'
          | (Returns (Done result' err'), w') => (Returns (result', err'), w')
          | (Panics msg, w') => (Panics msg, w')
          | (Blocks, w') => (Blocks, w')
          end
      end
  end.

(** [GetBytes] (get.go). *)
Definition GetBytes (rev : Revision) (echo : EchoMode) (limit : Z)
  : M (list byte * option error) :=
  checkIsTerminal ;;;
  let result := [] in
  let stdoutFd := os.Stdout_Fd in
  r <- sys.IoctlGetTermios stdoutFd ;;
  match r with
  | inr err => ret (result, Some (Errno_error err))
  | inl termios =>
      let old := termios in
      defer (sys.IoctlSetTermios stdoutFd old)
        (let termios := input_settings rev termios in
         sys.IoctlSetTermios stdoutFd termios ;;;
         fun w => read_loop rev echo limit termios (pending w) result w)
  end.

(** [GetLine] and [GetPassword] (get.go). *)
Definition GetLine (rev : Revision) : M (list byte * option error) :=
  r <- GetBytes rev EchoNormal 0 ;;
  os.Stdout_Write [linefeed] ;;;
  ret r.

Definition GetPassword (rev : Revision) : M (list byte * option error) :=
  r <- GetBytes rev EchoMask 0 ;;
  os.Stdout_Write [linefeed] ;;;
  ret r.

(** [GetString] and [GetRunes] (get.go, first revision only); the
    conversion [string(b)] keeps the bytes. *)
Definition GetString (echo : EchoMode) (limit : Z) : M (list byte * option error) :=
  GetBytes LinuxOnly echo limit.

Definition GetRunes (echo : EchoMode) (limit : Z) : M (list rune * option error) :=
  r <- GetBytes LinuxOnly echo limit ;;
  ret (bytes.Runes (fst r), snd r).

(** [GetChar] (get.go). The first revision reads through [GetString] and
    gives 0 for an empty line, the second reads through [GetBytes] and
    gives the linefeed. *)
Definition GetChar (rev : Revision) (echo : bool) : M (rune * option error) :=
  let mode := if echo then EchoNormal else EchoNone in
  r <- GetBytes rev mode 1 ;;
  match snd r with
  | Some err => ret (0, Some err)
  | None =>
      if len (fst r) =? 0 then
        ret (match rev with LinuxOnly => 0 | Unixoid => bz linefeed end, None)
      else
        let '(c, _) := utf8.DecodeRune (fst r) in
        ret (c, None)
  end.

(** [resetPrompt] and [moveCursorUp] (input.go): cursor up, cursor to the
    first column, erase the line. *)
Definition resetPrompt : M unit :=
  os.Stdout_Write [x1b; "["%byte; "A"%byte; x1b; "["%byte; "G"%byte; x1b; "["%byte; "K"%byte].

Definition moveCursorUp : M unit := os.Stdout_Write [x1b; "["%byte; "A"%byte].

Section InputValues.
(** [Input] stores into [*in] through package [reflect] and scans through
    [fmt.Sscan]; what these do depends on the dynamic type of [in]:
    [Value] stands for the values of Go's [interface{}], [Set_panics v]
    is the message with which [reflect]'s [Set] panics when [v] is not
    assignable to [*in] ([None] when it is), and [Sscan s] is what
    [fmt.Sscan(s, in)] stores into [*in], if anything, and whether it
    returns an error. *)
Variable Value : Type.
Variable Set_panics : Value -> option string.
Variable Sscan : list byte -> option Value * bool.

(** [InputOpt] (input.go). A [ConvFunc] returns the value, or an error
    ([None]). *)
Record InputOpt := {
  Default : option Value;
  Echo : EchoMode;
  Limit : Z;
  ConvFunc : option (list byte -> option Value)
}.

Definition nilOpt : InputOpt :=
  {| Default := None; Echo := EchoNormal; Limit := 0; ConvFunc := None |}.

(** [setValue] (input.go); its value here is the value stored. *)
Definition setValue (v : Value) : M Value :=
  match Set_panics v with
  | Some msg => panic msg
  | None => ret v
  end.

(** The loop of [Input] (input.go).  [cur] is what the call has stored into
    [*in] so far, [None] when it has not stored anything.  A turn that
    does not end the loop has taken at least one read from standard input,
    so [fuel] above the number of pending reads is never used up.  In the
    first revision an error other than [io.EOF] is a [panic(err)]; in the
    second every error ends the loop and is returned. *)
Fixpoint Input_loop (fuel : nat) (rev : Revision) (prompt : list byte) (opt : InputOpt)
    (cur : option Value) : M (option Value * option error) :=
  match fuel with
  | O => fun w => (Blocks, w)
  | S fuel =>
      os.Stdout_Write prompt ;;;
      r <- GetBytes rev (Echo opt) (Limit opt) ;;
      os.Stdout_Write [linefeed] ;;;
      match snd r with
      | Some err =>
          match rev with
          | LinuxOnly =>
              if bool_decide (err = io_EOF) then ret (cur, Some err)
              else panic (Error err)
          | Unixoid => ret (cur, Some err)
          end
      | None =>
          let s := fst r in
          if len s =? 0 then
            match Default opt with
            | Some d => v <- setValue d ;; ret (Some v, None)
            | None => resetPrompt ;;; Input_loop fuel rev prompt opt cur
            end
          else
            match ConvFunc opt with
            | None =>
                let '(stored, failed) := Sscan s in
                let cur := match stored with Some v => Some v | None => cur end in
                if failed then resetPrompt ;;; Input_loop fuel rev prompt opt cur
                else ret (cur, None)
            | Some f =>
                match f s with
                | None => resetPrompt ;;; Input_loop fuel rev prompt opt cur
                | Some v => v <- setValue v ;; ret (Some v, None)
                end
            end
      end
  end.

(** What [in] is: a pointer, a value of another kind, or nil. *)
Inductive InKind := InPointer | InOther | InNil.

(** The errors that [Input] returns: those of [GetBytes] and, in the second
    revision, the [fmt.Errorf("type of 'in' not a pointer: %s", ...)]. *)
Inductive InputError :=
  | GetError (e : error)
  | NotAPointer.

(** [Input] (input.go); its value is what it has stored into [*in], if
    anything, and the error.  The second revision first looks at the kind
    of [in]; on a nil [in] the call [val.Type()] panics. *)
Definition Input (rev : Revision) (prompt : list byte) (in_ : InKind)
    (opt : option InputOpt) : M (option Value * option InputError) :=
  checkIsTerminal ;;;
  match rev, in_ with
  | Unixoid, InNil => panic "reflect: call of reflect.Value.Type on zero Value"
  | Unixoid, InOther => ret (None, Some NotAPointer)
  | _, _ =>
      let opt := match opt with Some o => o | None => nilOpt end in
      r <- (fun w => Input_loop (S (length (pending w))) rev prompt opt None w) ;;
      ret (fst r, GetError <$> snd r)
  end.

End InputValues.

(** [MakeRaw] (term.go): the settings of the section Raw mode of
    termios(3). It returns the function that restores the old settings,
    or the error of either ioctl. *)
Definition raw_settings (t : Termios) : Termios :=
  {| Iflag := Z.ldiff (Iflag t)
       (Z.lor (Z.lor (Z.lor (Z.lor (Z.lor (Z.lor (Z.lor (IGNBRK K) (BRKINT K)) (PARMRK K))
          (ISTRIP K)) (INLCR K)) (IGNCR K)) (ICRNL K)) (IXON K));
     Oflag := Z.ldiff (Oflag t) (OPOST K);
     Cflag := Z.lor (Z.ldiff (Cflag t) (Z.lor (CSIZE K) (PARENB K))) (CS8 K);
     Lflag := Z.ldiff (Lflag t)
       (Z.lor (Z.lor (Z.lor (Z.lor (ECHO K) (ECHONL K)) (ICANON K)) (ISIG K)) (IEXTEN K));
     Line := Line t; Cc := Cc t; Ispeed := Ispeed t; Ospeed := Ospeed t |}.

Definition MakeRaw (fd : Z) : M (option (M (option Errno)) * option Errno) :=
  r <- sys.IoctlGetTermios fd ;;
  match r with
  | inr err => ret (None, Some err)
  | inl termios =>
      let old := termios in
      err <- sys.IoctlSetTermios fd (raw_settings termios) ;;
      match err with
      | Some e => ret (None, Some e)
      | None => ret (Some (sys.IoctlSetTermios fd old), None)
      end
  end.

End Platform.

End term.

(** ** A terminal session for the examples *)

(** The settings of a linux terminal in its usual line mode: ^D is
    end-of-input, DEL erases, ^U kills, ^W erases a word. *)
Definition cooked : unix.Termios := {|
  unix.Iflag := 0x4500; unix.Oflag := 0x5; unix.Cflag := 0xBF; unix.Lflag := 0x8A3B;
  unix.Line := x00;
  unix.Cc := [x03; x1c; x7f; x15; x04; x00; x01; x00; x11; x13; x1a; x00; x12; x0f;
              x17; x16; x00; x00; x00];
  unix.Ispeed := 0xF; unix.Ospeed := 0xF
|}.

Definition ctrl_D : byte := x04.
Definition ctrl_U : byte := x15.
Definition ctrl_W : byte := x17.
Definition DEL : byte := x7f.

(** Standard input and output on one terminal, the user's keystrokes
    [keys], ioctl outcomes [fl], nothing displayed yet. *)
Definition session (fl : list (option unix.Errno)) (keys : list ReadResult) : World := {|
  files := <[os.Stdin_Fd := Terminal cooked]> (<[os.Stdout_Fd := Terminal cooked]> ∅);
  faults := fl;
  pending := keys;
  display := []
|}.

(** The error of a failed [read(2)] as [os.File.Read] returns it. *)
Definition read_error : error := PathError "read" "/dev/stdin" unix.EIO.

(** Keys of one, two, three and four bytes: h, e with acute accent
    (U+00E9), the ideograph U+4E2D and the emoticon U+1F600. *)
Definition key_h : ReadResult := Read1 "h"%byte.
Definition key_e_acute : ReadResult := Read2 xc3 xa9.
Definition key_zhong : ReadResult := Read3 xe4 xb8 xad.
Definition key_grin : ReadResult := Read4 xf0 x9f x98 x80.
Definition enter : ReadResult := Read1 x0a.

(** One read per character of an ASCII string. *)
Definition typed (s : string) : list ReadResult := map Read1 (bytes_of s).

(** The settings of the terminal on [fd]. *)
Definition settings (w : World) (fd : Z) : option unix.Termios :=
  match files w !! fd with
  | Some (Terminal t) => Some t
  | _ => None
  end.

(** [GetBytes] on linux with the table rows above. *)
Definition GetBytes_linux := term.GetBytes unix.linux unicode.GraphicRanges_rows.

(** [Input] in the examples: the answer y or n to a question, converted
    to 1 or 0, stored into a variable to which every value is assignable;
    [fmt.Sscan] is not used. *)
Definition yes_no (s : list byte) : option Z :=
  match s with
  | [b] => if Byte.eqb b "y" then Some 1 else if Byte.eqb b "n" then Some 0 else None
  | _ => None
  end.

Definition ask (default : option Z) : term.InputOpt Z :=
  {| term.Default := default; term.Echo := term.EchoNormal; term.Limit := 0;
     term.ConvFunc := Some yes_no |}.

Definition Input_linux (rev : term.Revision) (prompt : list byte) (opt : term.InputOpt Z)
  : M (option Z * option term.InputError) :=
  term.Input unix.linux unicode.GraphicRanges_rows Z (fun _ => None) (fun _ => (None, true))
    rev prompt term.InPointer (Some opt).

(** ** Vocabulary of the properties *)

(** The bytes that a read delivered, [buf[:cnt]], and the first of them. *)
Definition bytes_read (k : ReadResult) : list byte :=
  let '(buf, cnt, _) := os.read_into k in slice_to buf cnt.

Definition first_byte (k : ReadResult) : option byte :=
  match k with
  | Read1 b0 | Read2 b0 _ | Read3 b0 _ _ | Read4 b0 _ _ _ => Some b0
  | ReadFails _ => None
  end.

(** [one_rune u = Some r]: the bytes [u] are exactly one complete, valid
    encoding, that of [r].  ([DecodeRune] reports an invalid or short
    encoding as [RuneError] with width 1.) *)
Definition one_rune (u : list byte) : option rune :=
  let '(r, size) := utf8.DecodeRune u in
  if (size =? len u) && (0 <? size) && negb ((r =? utf8.RuneError) && (size =? 1))
  then Some r else None.

(** The bytes that the read loop compares [buf[0]] with. *)
Definition control_bytes (K : unix.Consts) (t : unix.Termios) : list byte :=
  [term.cc t (unix.VEOF K); term.linefeed; term.cc t (unix.VERASE K);
   term.cc t (unix.VKILL K); term.cc t (unix.VWERASE K)].

(** A read that the switch accepts: it does not begin with a control byte
    and the first rune decoded from it is graphic. *)
Definition accepted_key (G : rune -> bool) (ctl : list byte) (k : ReadResult) : bool :=
  match first_byte k with
  | Some b0 =>
      unicode.IsGraphic G (fst (utf8.DecodeRune (bytes_read k)))
      && negb (existsb (Byte.eqb b0) ctl)
  | None => false
  end.

(** A graphic-character input unit: a read that delivers the encoding of
    one graphic rune and does not begin with a control byte. *)
Definition graphic_key (G : rune -> bool) (ctl : list byte) (k : ReadResult) : bool :=
  match first_byte k, one_rune (bytes_read k) with
  | Some b0, Some r => unicode.IsGraphic G r && negb (existsb (Byte.eqb b0) ctl)
  | _, _ => false
  end.

(** A read that the switch takes as word-erase: it begins with the
    word-erase byte, and that byte is not matched by an earlier case. *)
Definition word_erase_key (K : unix.Consts) (t : unix.Termios) (k : ReadResult) : bool :=
  match first_byte k with
  | Some b0 =>
      Byte.eqb b0 (term.cc t (unix.VWERASE K))
      && negb (existsb (Byte.eqb b0)
                 [term.cc t (unix.VEOF K); term.linefeed; term.cc t (unix.VERASE K);
                  term.cc t (unix.VKILL K)])
  | None => false
  end.

(** A read that the switch takes as erase-character, and one that it takes
    as kill. *)
Definition erase_key (K : unix.Consts) (t : unix.Termios) (k : ReadResult) : bool :=
  match first_byte k with
  | Some b0 =>
      Byte.eqb b0 (term.cc t (unix.VERASE K))
      && negb (existsb (Byte.eqb b0) [term.cc t (unix.VEOF K); term.linefeed])
  | None => false
  end.

Definition kill_key (K : unix.Consts) (t : unix.Termios) (k : ReadResult) : bool :=
  match first_byte k with
  | Some b0 =>
      Byte.eqb b0 (term.cc t (unix.VKILL K))
      && negb (existsb (Byte.eqb b0)
                 [term.cc t (unix.VEOF K); term.linefeed; term.cc t (unix.VERASE K)])
  | None => false
  end.

(** A read that the switch drops: it does not begin with a control byte
    and the first rune decoded from it is not graphic. *)
Definition ignored_key (G : rune -> bool) (ctl : list byte) (k : ReadResult) : bool :=
  match first_byte k with
  | Some b0 =>
      negb (unicode.IsGraphic G (fst (utf8.DecodeRune (bytes_read k))))
      && negb (existsb (Byte.eqb b0) ctl)
  | None => false
  end.

(** The bytes of the escape sequences for "cursor back by [x] columns" and
    "erase to the end of the line". *)
Definition erase_sequence (x : Z) : list byte :=
  [x1b; "["%byte] ++ strconv.Itoa x ++ ["D"%byte; x1b; "["%byte; "K"%byte].

(** What an erase of width [x] puts on the display: nothing under
    [EchoNone], nothing for the width 0 in the second revision. *)
Definition erase_output (rev : term.Revision) (echo : term.EchoMode) (x : Z) : list byte :=
  if echo =? term.EchoNone then []
  else match rev with
       | term.LinuxOnly => erase_sequence x
       | term.Unixoid => if x >? 0 then erase_sequence x else []
       end.

(** What the accepted keys [ks] put on the display under each echo mode. *)
Definition echo_of (echo : term.EchoMode) (ks : list ReadResult) : list byte :=
  if echo =? term.EchoNormal then concat (map bytes_read ks)
  else if echo =? term.EchoMask then repeat term.maskChar (length ks)
  else [].

(** [GetBytes] gets as far as its read loop, with the settings [t] of
    standard output: [checkIsTerminal] does not panic and the ioctl that
    reads the settings succeeds.  (The two later ioctl calls of [GetBytes],
    which install settings, may fail.) *)
Definition enters_read_loop (w : World) (t : unix.Termios) : Prop :=
  exists w1, term.checkIsTerminal w = (Returns (), w1)
             /\ fst (sys.IoctlGetTermios os.Stdout_Fd w1) = Returns (inl t).

(** The kernel serves every ioctl, and standard input and standard output
    are terminals, the second with the settings [t]. *)
Definition at_terminal (w : World) (t : unix.Termios) : Prop :=
  faults w = []
  /\ (exists t0, files w !! os.Stdin_Fd = Some (Terminal t0))
  /\ files w !! os.Stdout_Fd = Some (Terminal t).

(** The world with the settings [t] installed on standard output. *)
Definition install (t : unix.Termios) (w : World) : World :=
  set_files (<[os.Stdout_Fd := Terminal t]> (files w)) w.

(** [GetBytes] makes five ioctl calls when it gets as far as reading: two
    in [checkIsTerminal], the one that reads the settings, the one that
    installs the modified settings and the deferred one that puts the old
    settings back.  These are the outcomes of the last two. *)
Definition install_fault (w : World) : option unix.Errno := nth 3 (faults w) None.
Definition restore_fault (w : World) : option unix.Errno := nth 4 (faults w) None.

(** [feed keys result w]: the buffer and the world after the read loop has
    taken [keys], when none of them makes it leave the loop. *)
Fixpoint feed (K : unix.Consts) (G : rune -> bool) (rev : term.Revision)
    (echo : term.EchoMode) (limit : Z) (t : unix.Termios)
    (keys : list ReadResult) (result : list byte) (w : World)
    : option (list byte * World) :=
  match keys with
  | [] => Some (result, w)
  | k :: keys' =>
      let '(buf, cnt, err) := os.read_into k in
      match err with
      | Some _ => None
      | None =>
          match term.dispatch K G rev echo limit t buf cnt result w with
          | (Returns (term.Next result'), w') => feed K G rev echo limit t keys' result' w'
          | _ => None
          end
      end
  end.

(** The buffer after [keys], whatever the display. *)
Definition buffer_after (K : unix.Consts) (G : rune -> bool) (rev : term.Revision)
    (echo : term.EchoMode) (limit : Z) (t : unix.Termios)
    (keys : list ReadResult) (w : World) : option (list byte) :=
  fst <$> feed K G rev echo limit t keys [] w.

(** * Properties *)

(** ** The library functions on examples *)

Example DecodeRune_ascii : utf8.DecodeRune (bytes_of "a") = (97, 1).
Proof. reflexivity. Qed.

Example DecodeRune_e_acute : utf8.DecodeRune [xc3; xa9; x00; x00] = (0xE9, 2).
Proof. reflexivity. Qed.

Example DecodeRune_euro : utf8.DecodeRune [xe2; x82; xac] = (0x20AC, 3).
Proof. reflexivity. Qed.

Example DecodeRune_emoji : utf8.DecodeRune [xf0; x9f; x98; x80] = (0x1F600, 4).
Proof. reflexivity. Qed.

Example DecodeRune_short : utf8.DecodeRune [xc3] = (utf8.RuneError, 1).
Proof. reflexivity. Qed.

Example DecodeRune_lone_continuation : utf8.DecodeRune [xa9; x41] = (utf8.RuneError, 1).
Proof. reflexivity. Qed.

Example DecodeLastRune_euro : utf8.DecodeLastRune (bytes_of "a" ++ [xe2; x82; xac]) = (0x20AC, 3).
Proof. reflexivity. Qed.

Example DecodeLastRune_broken : utf8.DecodeLastRune [x41; xc3] = (utf8.RuneError, 1).
Proof. reflexivity. Qed.

Example RuneCount_mixed :
  utf8.RuneCount (bytes_of "a" ++ [xc3; xa9; xe2; x82; xac; xf0; x9f; x98; x80; xff]) = 5.
Proof. reflexivity. Qed.

Example Itoa_12 : strconv.Itoa 12 = bytes_of "12".
Proof. reflexivity. Qed.

(** ** Facts about unicode/utf8 *)

Import utf8.

(** A byte is a number below 256. *)
Lemma bz_range b : 0 <= bz b < 256.
Proof. unfold bz. pose proof (Byte.to_N_bounded b). lia. Qed.

(** The table [first] on ASCII bytes and on the others, by inspection of
    its 256 entries. *)
Lemma first_ascii b : bz b < RuneSelf -> first (bz b) = as_.
Proof. destruct b; intros H; try reflexivity; vm_compute in H; discriminate. Qed.

Lemma first_multi b :
  RuneSelf <= bz b -> In (first (bz b)) [xx; s1; s2; s3; s4; s5; s6; s7].
Proof.
  destruct b; intros H;
    first [ exfalso; vm_compute in H; now apply H | vm_compute; tauto ].
Qed.

Arguments bz : simpl never.
Arguments first : simpl never.

(** Case analysis on the entry of [first] for the byte [b]. *)
Ltac first_byte_cases b :=
  let H := fresh "H" in let F := fresh "F" in
  destruct (Z_lt_ge_dec (bz b) RuneSelf) as [H|H];
  [ pose proof (first_ascii b H) as F
  | apply Z.ge_le in H; pose proof (first_multi b H) as F; cbn [In] in F;
    decompose [or] F; clear F; try contradiction ].

(** Indexing and slicing of lists whose first cells are known. *)
Ltac list_ops :=
  cbv [idx len length nth Z.to_nat Pos.to_nat Pos.iter_op Nat.add Z.of_nat
       Pos.of_succ_nat Pos.succ slice_to slice_from slice firstn skipn Z.sub Z.opp Z.add
       Z.pos_sub Pos.pred_double Z.double Z.succ_double Z.pred_double Pos.add Pos.pred].

Ltac closed_pos p :=
  match p with
  | xH => idtac
  | xO ?q => closed_pos q
  | xI ?q => closed_pos q
  end.

Ltac closed_num t :=
  match t with
  | Z0 => idtac
  | Zpos ?p => closed_pos p
  | Zneg ?p => closed_pos p
  end.

(** Evaluation of the arithmetic on literals, leaving the rest alone. *)
Ltac calc_bin f :=
  match goal with
  | |- context [f ?a ?b] =>
      closed_num a; closed_num b;
      let v := eval vm_compute in (f a b) in
      change (f a b) with v
  end.

Ltac calc_un f :=
  match goal with
  | |- context [f ?a] =>
      closed_num a;
      let v := eval vm_compute in (f a) in
      change (f a) with v
  end.

Ltac calc :=
  repeat first
    [ calc_bin Z.land | calc_bin Z.lor | calc_bin Z.ldiff | calc_bin Z.shiftl
    | calc_bin Z.shiftr | calc_bin Z.ltb | calc_bin Z.leb | calc_bin Z.eqb
    | calc_bin Z.gtb | calc_bin Z.geb | calc_bin Z.add | calc_bin Z.sub
    | calc_un int32 | calc_un acceptRanges
    | progress cbn [lo hi orb andb negb] ].

(** Replace the entry of [first] by its value, once it is known. *)
Ltac use_first :=
  unfold xx, as_, s1, s2, s3, s4, s5, s6, s7 in *;
  match goal with
  | H : _ = first _ |- _ => rewrite <- H
  | H : first _ = _ |- _ => rewrite H
  end.

Ltac split_ifs :=
  repeat match goal with |- context [if ?c then _ else _] => destruct c eqn:? end.

(** [GetBytes] decodes the whole 4-byte buffer, zeros included; the zeros
    after the delivered bytes never change the outcome. *)
Lemma DecodeRune_read_into k buf cnt :
  os.read_into k = (buf, cnt, None) ->
  DecodeRune buf = DecodeRune (slice_to buf cnt).
Proof.
  destruct k; cbn; intros [= <- <-]; unfold DecodeRune; list_ops; try reflexivity.
  all: first_byte_cases b0; use_first; change (bz x00) with 0;
    unfold RuneError, locb, hicb, RuneSelf.
  all: calc; try reflexivity.
  all: split_ifs; try reflexivity.
Qed.

Lemma len_cons_pos {A} (c : A) tl : (len (c :: tl) <=? 0) = false.
Proof. apply Z.leb_gt. unfold len. cbn [length]. lia. Qed.

Lemma length_slice_from {A} (s : list A) n :
  1 <= n -> s <> [] -> (length (slice_from s n) < length s)%nat.
Proof.
  intros Hn Hs. unfold slice_from. rewrite length_skipn.
  destruct s; [congruence|]. cbn [length]. lia.
Qed.

(** One turn of the counting loop moves on by [size >= 1] bytes. *)
Lemma RuneCount_loop_step c tl :
  exists size, 1 <= size /\
    forall f n, RuneCount_loop (S f) (c :: tl) n
                = RuneCount_loop f (slice_from (c :: tl) size) (n + 1).
Proof.
  cbn [RuneCount_loop]. rewrite len_cons_pos.
  change (idx (c :: tl) 0) with c.
  destruct (bz c <? RuneSelf) eqn:E1; [exists 1; split; [lia | reflexivity] |].
  destruct (first (bz c) =? xx) eqn:E2; [exists 1; split; [lia | reflexivity] |].
  destruct (Z.land (first (bz c)) 7 >? len (c :: tl)); [exists 1; split; [lia | reflexivity] |].
  assert (W : 1 <= Z.land (first (bz c)) 7).
  { apply Z.ltb_ge in E1. apply Z.eqb_neq in E2.
    first_byte_cases c; [lia | ..]; use_first; calc; lia. }
  eexists; split; [| intros; reflexivity].
  split_ifs; lia.
Qed.

Lemma RuneCount_loop_nil f n : RuneCount_loop f [] n = n.
Proof. now destruct f. Qed.

(** Any number of turns that is at least the length of the slice gives
    the same count: the turns that [RuneCount] allows are enough. *)
Lemma RuneCount_loop_fuel f1 : forall f2 s n,
  (length s <= f1)%nat -> (length s <= f2)%nat ->
  RuneCount_loop f1 s n = RuneCount_loop f2 s n.
Proof.
  induction f1 as [|f1 IH]; intros f2 s n H1 H2.
  - destruct s; [|cbn [length] in H1; lia]. now rewrite !RuneCount_loop_nil.
  - destruct s as [|c tl]; [now rewrite !RuneCount_loop_nil|].
    destruct f2 as [|f2]; [cbn [length] in H2; lia|].
    destruct (RuneCount_loop_step c tl) as (size & Hs & E).
    rewrite !E.
    pose proof (length_slice_from (c :: tl) size Hs ltac:(discriminate)).
    cbn [length] in *. apply IH; lia.
Qed.

(** The counter only accumulates. *)
Lemma RuneCount_loop_acc f : forall s n,
  RuneCount_loop f s n = n + RuneCount_loop f s 0.
Proof.
  induction f as [|f IH]; intros s n; [cbn; lia|].
  destruct s as [|c tl]; [rewrite !RuneCount_loop_nil; lia|].
  destruct (RuneCount_loop_step c tl) as (size & Hs & E).
  rewrite !E, (IH _ (n + 1)), (IH _ (0 + 1)). lia.
Qed.

Lemma RuneCount_nil : RuneCount [] = 0.
Proof. reflexivity. Qed.

(** A complete encoding has one to four bytes. *)
Lemma one_rune_length u r : one_rune u = Some r -> (1 <= length u <= 4)%nat.
Proof.
  unfold one_rune. destruct (DecodeRune u) as [r' size] eqn:D.
  destruct ((size =? len u) && (0 <? size)) eqn:E; [|discriminate].
  intros _. apply andb_prop in E as [E1 E2].
  apply Z.eqb_eq in E1. apply Z.ltb_lt in E2.
  assert (size <= 4).
  { revert D. unfold DecodeRune. split_ifs; intros [= <- <-]; lia. }
  unfold len in E1. lia.
Qed.

Lemma gtb_len_false {A} k (l : list A) :
  k <= Z.of_nat (length l) -> (k >? len l) = false.
Proof. intros H. unfold len. rewrite Z.gtb_ltb. apply Z.ltb_ge; lia. Qed.

Lemma idx_0 a l : idx (a :: l) 0 = a.
Proof. reflexivity. Qed.

Lemma idx_1 a b l : idx (a :: b :: l) 1 = b.
Proof. reflexivity. Qed.

Lemma idx_2 a b c l : idx (a :: b :: c :: l) 2 = c.
Proof. reflexivity. Qed.

Lemma idx_3 a b c d l : idx (a :: b :: c :: d :: l) 3 = d.
Proof. reflexivity. Qed.

(** Rewrite with the tests whose outcome is among the hypotheses. *)
Ltac use_conditions :=
  repeat match goal with
    | H : ?c = true |- context [?c] => rewrite H
    | H : ?c = false |- context [?c] => rewrite H
    end.

(** On a complete encoding the counting loop agrees with [DecodeRune]:
    one turn passes over exactly its bytes. *)
Lemma RuneCount_loop_one_rune u r s f n :
  one_rune u = Some r ->
  RuneCount_loop (S f) (u ++ s) n = RuneCount_loop f s (n + 1).
Proof.
  intros V. pose proof (one_rune_length u r V) as L.
  destruct u as [|b0 [|b1 [|b2 [|b3 [|b4 u]]]]]; cbn [length] in L; try lia; clear L.
  all: match goal with |- ?g => set (G := g) end.
  all: revert V; unfold one_rune, DecodeRune; list_ops.
  all: first_byte_cases b0; use_first; unfold RuneError, locb, hicb, RuneSelf in *; calc.
  all: rewrite ?Z.ldiff_0_r, ?Z.lor_0_r, ?Z.ldiff_m1_r; calc.
  all: try discriminate.
  all: split_ifs; try discriminate; intros _; subst G.
  all: cbn [app RuneCount_loop]; rewrite len_cons_pos, ?idx_0, ?idx_1, ?idx_2, ?idx_3.
  all: try (apply Z.ltb_lt in H; unfold RuneSelf; rewrite H; reflexivity).
  all: apply Z.ltb_ge in H; unfold RuneSelf, locb, hicb; rewrite H.
  all: use_first; calc.
  all: rewrite gtb_len_false by (cbn [length]; lia).
  all: use_conditions; calc; reflexivity.
Qed.

Lemma RuneCount_one_rune u r s :
  one_rune u = Some r -> RuneCount (u ++ s) = 1 + RuneCount s.
Proof.
  intros V. pose proof (one_rune_length u r V) as L.
  unfold RuneCount. destruct (length (u ++ s)) as [|f] eqn:E.
  { rewrite length_app in E. lia. }
  rewrite (RuneCount_loop_one_rune u r s f 0 V).
  rewrite (RuneCount_loop_fuel f (length s)), RuneCount_loop_acc; [lia | | lia].
  rewrite length_app in E. lia.
Qed.

(** The rune count of a sequence of complete encodings is their number. *)
Lemma RuneCount_concat us s :
  Forall (fun u => is_Some (one_rune u)) us ->
  RuneCount (concat us ++ s) = len us + RuneCount s.
Proof.
  induction 1 as [|u us [r Hr] _ IH]; [reflexivity|].
  cbn [concat]. rewrite <- app_assoc, (RuneCount_one_rune u r), IH by assumption.
  unfold len. cbn [length]. lia.
Qed.

(** [DecodeRune] reports a width of at most [UTFMax] bytes. *)
Lemma DecodeRune_width p : 0 <= snd (DecodeRune p) <= 4.
Proof. unfold DecodeRune. split_ifs; cbn [snd]; lia. Qed.

Lemma lastRuneStart_le k : forall p start lim, lastRuneStart k p start lim <= start.
Proof.
  induction k as [|k IH]; intros p start lim; cbn [lastRuneStart]; [lia|].
  split_ifs; try lia. specialize (IH p (start - 1) lim). lia.
Qed.

(** The width that [DecodeLastRune] reports is a number of bytes of the
    slice: the erase of one character cuts within the buffer. *)
Lemma DecodeLastRune_width p : p <> [] -> 1 <= snd (DecodeLastRune p) <= len p.
Proof.
  intros Hp. assert (1 <= len p) by (unfold len; destruct p; [congruence|cbn [length]; lia]).
  unfold DecodeLastRune.
  destruct (len p =? 0) eqn:E0; [apply Z.eqb_eq in E0; lia|].
  destruct (_ <? RuneSelf); [cbn [snd]; lia|].
  match goal with |- context [DecodeRune ?s] =>
    pose proof (DecodeRune_width s) as W; destruct (DecodeRune s) as [r size] end.
  cbn [snd] in W.
  pose proof (lastRuneStart_le 4 p (len p - 1 - 1) (Z.max 0 (len p - UTFMax))) as L.
  destruct (negb _) eqn:En; cbn [snd]; [lia|].
  apply negb_false_iff, Z.eqb_eq in En.
  destruct (_ <? 0) eqn:Es in En; [lia|]. apply Z.ltb_ge in Es. lia.
Qed.

(** ** The read loop and the world *)

(** Case analysis on every test of the goal. *)
Ltac break_ifs :=
  repeat match goal with
    | |- context [if ?c then _ else _] => destruct c
    | |- context [let '(_, _) := ?p in _] => destruct p
    | |- context [match ?r with term.LinuxOnly => _ | term.Unixoid => _ end] => destruct r
    end.

(** Laws of the updates of the world. *)
Lemma set_display_app w a b :
  set_display (display (set_display (display w ++ a) w) ++ b) (set_display (display w ++ a) w)
  = set_display (display w ++ (a ++ b)) w.
Proof. unfold set_display; simpl. now rewrite app_assoc. Qed.

Lemma set_display_nil w : set_display (display w ++ []) w = w.
Proof. destruct w; unfold set_display; simpl. now rewrite app_nil_r. Qed.

Lemma set_pending_set_pending a b w : set_pending a (set_pending b w) = set_pending a w.
Proof. reflexivity. Qed.

Lemma set_display_set_pending d p w :
  set_display d (set_pending p w) = set_pending p (set_display d w).
Proof. reflexivity. Qed.

(** [erase] returns the shortened buffer and only adds to the display. *)
Lemma erase_frame rev n result echo :
  exists out, forall w, term.erase rev n result echo w
    = (Returns (slice_to result (len result - n)), set_display (display w ++ out) w).
Proof.
  unfold term.erase, term.write_erase_sequence, os.Stdout_Write, bind, ret.
  break_ifs; try (eexists; intros w; cbn [fst snd]; rewrite ?set_display_app; reflexivity).
  all: exists []; intros w; now rewrite set_display_nil.
Qed.

Section Loop.
Variable K : unix.Consts.
Variable G : rune -> bool.
Variables (rev : term.Revision) (echo : term.EchoMode) (limit : Z) (t : unix.Termios).

(** One turn of the switch always returns, and only adds to the display. *)
Lemma dispatch_frame buf cnt result :
  exists c out, forall w, term.dispatch K G rev echo limit t buf cnt result w
    = (Returns c, set_display (display w ++ out) w).
Proof.
  unfold term.dispatch.
  repeat match goal with
    | |- context [if ?c then _ else _] => destruct c
    | |- context [let '(_, _) := ?p in _] => destruct p
    end;
  unfold bind, ret, os.Stdout_Write;
  try match goal with |- context [term.erase ?r ?n ?res ?e] =>
    destruct (erase_frame r n res e) as [o Ho]; exists (term.Next (slice_to res (len res - n))), o;
    intros w; now rewrite Ho end;
  try (do 2 eexists; intros w; reflexivity);
  try (eexists _, []; intros w; now rewrite set_display_nil).
Qed.

Lemma read_loop_pending script : forall result p w,
  term.read_loop K G rev echo limit t script result (set_pending p w)
  = term.read_loop K G rev echo limit t script result w.
Proof. destruct script; reflexivity. Qed.

(** Keys that do not end the loop are passed over. *)
Lemma read_loop_feed keys : forall result w b w1 tail,
  feed K G rev echo limit t keys result w = Some (b, w1) ->
  term.read_loop K G rev echo limit t (keys ++ tail) result w
  = term.read_loop K G rev echo limit t tail b w1.
Proof.
  induction keys as [|k keys IH]; intros result w b w1 tail.
  - cbn. now intros [= -> ->].
  - cbn [feed app term.read_loop].
    destruct (os.read_into k) as [[buf cnt] [e|]]; [discriminate|].
    destruct (dispatch_frame buf cnt result) as (c & out & Hd).
    rewrite !Hd. destruct c as [result'|]; [|discriminate].
    intros F. rewrite set_display_set_pending, read_loop_pending. now apply IH.
Qed.

(** The loop touches the pending reads and the display only. *)
Lemma read_loop_frame script : forall result w,
  exists o p out, term.read_loop K G rev echo limit t script result w
    = (o, set_pending p (set_display (display w ++ out) w)).
Proof.
  induction script as [|k script IH]; intros result w.
  - exists Blocks, [], []. cbn. now rewrite set_display_nil.
  - cbn [term.read_loop].
    destruct (os.read_into k) as [[buf cnt] [e|]].
    + eexists _, script, []. now rewrite set_display_nil.
    + destruct (dispatch_frame buf cnt result) as (c & out & Hd). rewrite Hd.
      destruct c as [result'|result' err'].
      * destruct (IH result' (set_display (display (set_pending script w) ++ out)
                                (set_pending script w))) as (o & p & out' & ->).
        exists o, p, (out ++ out'). f_equal.
        destruct w; unfold set_pending, set_display; cbn. now rewrite app_assoc.
      * now exists (Returns (result', err')), script, out.
Qed.

(** What [feed] leaves unchanged. *)
Lemma feed_frame keys : forall result w b w1,
  feed K G rev echo limit t keys result w = Some (b, w1) ->
  exists out, w1 = set_display (display w ++ out) w /\
    forall w', feed K G rev echo limit t keys result w'
               = Some (b, set_display (display w' ++ out) w').
Proof.
  induction keys as [|k keys IH]; intros result w b w1.
  - cbn. intros [= -> ->]. exists []. split; [now rewrite set_display_nil|].
    intros w'. now rewrite set_display_nil.
  - cbn [feed].
    destruct (os.read_into k) as [[buf cnt] [e|]]; [discriminate|].
    destruct (dispatch_frame buf cnt result) as (c & out & Hd).
    rewrite Hd. destruct c as [result'|]; [|discriminate].
    intros F. destruct (IH _ _ _ _ F) as (out' & -> & H').
    exists (out ++ out'). split; [now rewrite set_display_app|].
    intros w'. rewrite Hd, H'. now rewrite set_display_app.
Qed.

Lemma feed_app keys keys' result w b w1 :
  feed K G rev echo limit t keys result w = Some (b, w1) ->
  feed K G rev echo limit t (keys ++ keys') result w
  = feed K G rev echo limit t keys' b w1.
Proof.
  revert result w. induction keys as [|k keys IH]; intros result w.
  - cbn. now intros [= -> ->].
  - cbn [feed app].
    destruct (os.read_into k) as [[buf cnt] [e|]]; [discriminate|].
    destruct (term.dispatch K G rev echo limit t buf cnt result w) as [[[r|r e]| |] w'];
      try discriminate.
    apply IH.
Qed.
End Loop.

(** ** The system calls *)

Lemma bind_returns {A B} (m : M A) (f : A -> M B) w a w' :
  m w = (Returns a, w') -> bind m f w = f a w'.
Proof. unfold bind. now intros ->. Qed.

Lemma bind_panics {A B} (m : M A) (f : A -> M B) w msg w' :
  m w = (Panics msg, w') -> bind m f w = (Panics msg, w').
Proof. unfold bind. now intros ->. Qed.

Lemma next_fault_run w :
  sys.next_fault w = (Returns (hd None (faults w)), set_faults (tl (faults w)) w).
Proof. destruct w as [fs [|f fl] pd ds]; reflexivity. Qed.

(** What an ioctl on [fd] answers when the kernel does not refuse it. *)
Lemma IoctlGetTermios_run fd w :
  sys.IoctlGetTermios fd w =
    (Returns match hd None (faults w) with
             | Some e => inr e
             | None =>
                 match files w !! fd with
                 | Some (Terminal t) => inl t
                 | Some NotATerminal => inr unix.ENOTTY
                 | None => inr unix.EBADF
                 end
             end,
     set_faults (tl (faults w)) w).
Proof.
  unfold sys.IoctlGetTermios. rewrite (bind_returns _ _ _ _ _ (next_fault_run w)).
  destruct (hd None (faults w)); [reflexivity|].
  cbn [files set_faults]. now destruct (files w !! fd) as [[]|].
Qed.

Lemma IoctlSetTermios_run fd v w :
  sys.IoctlSetTermios fd v w =
    (Returns match hd None (faults w), files w !! fd with
             | Some e, _ => Some e
             | None, Some (Terminal _) => None
             | None, Some NotATerminal => Some unix.ENOTTY
             | None, None => Some unix.EBADF
             end,
     match hd None (faults w), files w !! fd with
     | None, Some (Terminal _) =>
         set_files (<[fd := Terminal v]> (files w)) (set_faults (tl (faults w)) w)
     | _, _ => set_faults (tl (faults w)) w
     end).
Proof.
  unfold sys.IoctlSetTermios. rewrite (bind_returns _ _ _ _ _ (next_fault_run w)).
  destruct (hd None (faults w)); [reflexivity|].
  cbn [files set_faults]. now destruct (files w !! fd) as [[]|].
Qed.

Lemma IsTerminal_run fd w :
  term.IsTerminal fd w =
    (Returns match hd None (faults w) with
             | Some e => negb (bool_decide (e = unix.ENOTTY))
             | None =>
                 match files w !! fd with
                 | Some (Terminal t) => true
                 | Some NotATerminal => false
                 | None => true
                 end
             end,
     set_faults (tl (faults w)) w).
Proof.
  unfold term.IsTerminal. rewrite (bind_returns _ _ _ _ _ (IoctlGetTermios_run fd w)).
  unfold ret. f_equal. f_equal.
  destruct (hd None (faults w)) as [[]|]; try reflexivity.
  now destruct (files w !! fd) as [[]|].
Qed.

(** [checkIsTerminal] returns after two ioctl calls or panics; it changes
    nothing but the list of ioctl outcomes. *)
Lemma checkIsTerminal_run w :
  (exists msg fl, term.checkIsTerminal w = (Panics msg, set_faults fl w))
  \/ term.checkIsTerminal w = (Returns (), set_faults (tl (tl (faults w))) w).
Proof.
  unfold term.checkIsTerminal.
  rewrite (bind_returns _ _ _ _ _ (IsTerminal_run os.Stdin_Fd w)).
  match goal with |- context [if ?c then term.IsTerminal _ else _] => destruct c end.
  - rewrite (bind_returns _ _ _ _ _ (IsTerminal_run os.Stdout_Fd _)).
    match goal with |- context [negb ?c] => destruct c end; cbn [negb].
    + now right.
    + left. unfold panic. now eexists _, _.
  - left. unfold bind, ret, panic. cbn [negb]. now eexists _, _.
Qed.

Lemma IoctlSetTermios_frame fd v w :
  display (snd (sys.IoctlSetTermios fd v w)) = display w
  /\ pending (snd (sys.IoctlSetTermios fd v w)) = pending w.
Proof.
  rewrite IoctlSetTermios_run. cbn [snd].
  destruct (hd None (faults w)); [now split|].
  now destruct (files w !! fd) as [[]|].
Qed.

Section Reading.
Variable K : unix.Consts.
Variable G : rune -> bool.
Variables (rev : term.Revision) (echo : term.EchoMode) (limit : Z).

(** Once it has the settings, [GetBytes] tries to install the modified
    settings, runs the read loop on what standard input delivers and,
    unless the loop waits for ever, tries to put the old settings back. *)
Lemma GetBytes_in_read_loop w t :
  enters_read_loop w t ->
  exists w0,
    display w0 = display w /\
    term.GetBytes K G rev echo limit w =
      match term.read_loop K G rev echo limit (term.input_settings K rev t)
              (pending w) [] w0 with
      | (Returns a, w') => (Returns a, snd (sys.IoctlSetTermios os.Stdout_Fd t w'))
      | (Panics msg, w') => (Panics msg, snd (sys.IoctlSetTermios os.Stdout_Fd t w'))
      | (Blocks, w') => (Blocks, w')
      end.
Proof.
  intros (w1 & C & Hg).
  destruct (checkIsTerminal_run w) as [(msg & fl & C')|C']; rewrite C in C';
    [discriminate|].
  injection C' as ->.
  unfold term.GetBytes.
  rewrite (bind_returns _ _ _ _ _ C).
  rewrite IoctlGetTermios_run in Hg. cbn [fst] in Hg.
  rewrite (bind_returns _ _ _ _ _ (IoctlGetTermios_run _ _)).
  destruct (hd None (faults (set_faults (tl (tl (faults w))) w))); [discriminate|].
  destruct (files (set_faults (tl (tl (faults w))) w) !! os.Stdout_Fd) as [[t'|]|] eqn:Hout;
    try discriminate.
  injection Hg as ->.
  unfold defer.
  rewrite (bind_returns _ _ _ _ _ (IoctlSetTermios_run _ _ _)).
  cbn [faults files set_faults] in Hout |- *. rewrite Hout.
  destruct (hd None (tl (tl (tl (faults w))))); cbn [pending set_faults set_files];
    (eexists; split; [|reflexivity]); reflexivity.
Qed.
End Reading.

(** ** Graphic keys *)

Lemma one_rune_decode u r : one_rune u = Some r -> fst (utf8.DecodeRune u) = r.
Proof.
  unfold one_rune. destruct (utf8.DecodeRune u) as [r' size].
  destruct (_ && _); [|discriminate]. now intros [= ->].
Qed.

Lemma bytes_read_nonempty k b0 : first_byte k = Some b0 -> bytes_read k <> [].
Proof. destruct k; cbn; discriminate. Qed.

Lemma first_byte_read_into k b0 :
  first_byte k = Some b0 ->
  exists buf cnt, os.read_into k = (buf, cnt, None) /\ idx buf 0 = b0
                  /\ slice_to buf cnt = bytes_read k.
Proof. destruct k; cbn; intros [= <-]; now eexists _, _. Qed.

Lemma echo_of_nil echo : echo_of echo [] = [].
Proof. unfold echo_of. now repeat destruct (_ =? _). Qed.

Lemma echo_of_app echo ks ks' : echo_of echo (ks ++ ks') = echo_of echo ks ++ echo_of echo ks'.
Proof.
  unfold echo_of. destruct (echo =? term.EchoNormal).
  - now rewrite map_app, concat_app.
  - destruct (echo =? term.EchoMask); [|reflexivity].
    now rewrite length_app, repeat_app.
Qed.

Section Keys.
Variable K : unix.Consts.
Variable G : rune -> bool.
Variables (rev : term.Revision) (echo : term.EchoMode) (limit : Z) (t : unix.Termios).

Let ctl := control_bytes K t.
Let graphic (k : ReadResult) : Prop := graphic_key G ctl k = true.

(** An accepted key is echoed and appended; it ends the loop when it
    makes the rune count equal to a positive limit. *)
Lemma dispatch_accepted k buf cnt result w :
  accepted_key G ctl k = true ->
  os.read_into k = (buf, cnt, None) ->
  term.dispatch K G rev echo limit t buf cnt result w =
    (Returns (if (limit >? 0) && (utf8.RuneCount (result ++ bytes_read k) =? limit)
              then term.Done (result ++ bytes_read k) None
              else term.Next (result ++ bytes_read k)),
     set_display (display w ++ echo_of echo [k]) w).
Proof.
  unfold accepted_key. intros Hg Hr.
  destruct (first_byte k) as [b0|] eqn:Hb; [|discriminate].
  apply andb_prop in Hg as [Hgr Hc]. apply negb_true_iff in Hc.
  destruct (first_byte_read_into k b0 Hb) as (buf' & cnt' & Hr' & Hi & Hs).
  rewrite Hr in Hr'. injection Hr' as <- <-.
  unfold ctl, control_bytes in Hc. cbn [existsb] in Hc.
  repeat (apply orb_false_elim in Hc as [? Hc]).
  unfold term.dispatch. rewrite Hi.
  repeat match goal with H : Byte.eqb _ _ = false |- _ => rewrite H; clear H end.
  rewrite (DecodeRune_read_into k buf cnt Hr), Hs.
  destruct (utf8.DecodeRune (bytes_read k)) as [r sz]. cbn [fst] in Hgr.
  rewrite Hgr. unfold bind, ret, os.Stdout_Write, echo_of.
  cbn [map concat length repeat]. rewrite app_nil_r.
  destruct (echo =? term.EchoNormal); [now destruct (_ && _)|].
  destruct (echo =? term.EchoMask); [now destruct (_ && _)|].
  rewrite set_display_nil. now destruct (_ && _).
Qed.

(** An undecodable read is accepted as soon as the range tables list the
    replacement character U+FFFD (they do, under So): [DecodeRune] turns
    it into [RuneError], and the switch then appends its bytes. *)
Lemma undecodable_read_is_accepted k b0 :
  first_byte k = Some b0 ->
  existsb (Byte.eqb b0) ctl = false ->
  fst (utf8.DecodeRune (bytes_read k)) = utf8.RuneError ->
  G utf8.RuneError = true ->
  accepted_key G ctl k = true.
Proof.
  intros Hb Hc Hd Hg. unfold accepted_key. rewrite Hb, Hd, Hc.
  unfold unicode.IsGraphic. change (_ && _) with (G utf8.RuneError && true).
  now rewrite Hg.
Qed.

Lemma accepted_read_into k :
  accepted_key G ctl k = true -> exists buf cnt, os.read_into k = (buf, cnt, None).
Proof. unfold accepted_key. destruct k; cbn; try discriminate; now eexists _, _. Qed.

Lemma graphic_accepted k : graphic k -> accepted_key G ctl k = true.
Proof.
  unfold graphic, graphic_key, accepted_key.
  destruct (first_byte k); [|discriminate].
  destruct (one_rune (bytes_read k)) as [r|] eqn:Ho; [|discriminate].
  now rewrite (one_rune_decode _ _ Ho).
Qed.

Lemma graphic_one_rune k : graphic k -> is_Some (one_rune (bytes_read k)).
Proof.
  unfold graphic, graphic_key. destruct (first_byte k); [|discriminate].
  destruct (one_rune (bytes_read k)); [eauto|discriminate].
Qed.

(** The rune count of accepted graphic keys is their number. *)
Lemma RuneCount_graphic ks :
  Forall graphic ks -> utf8.RuneCount (concat (map bytes_read ks)) = len ks.
Proof.
  intros H. rewrite <- (app_nil_r (concat _)), RuneCount_concat.
  - unfold len. rewrite length_map. change (utf8.RuneCount []) with 0. lia.
  - apply Forall_map. eapply Forall_impl; [exact H|]. apply graphic_one_rune.
Qed.

(** Graphic keys below the limit are all taken. *)
Lemma feed_graphic units : forall prev w,
  Forall graphic prev -> Forall graphic units ->
  limit <= 0 \/ len prev + len units < limit ->
  feed K G rev echo limit t units (concat (map bytes_read prev)) w
  = Some (concat (map bytes_read (prev ++ units)),
          set_display (display w ++ echo_of echo units) w).
Proof.
  induction units as [|k units IH]; intros prev w Hp Hu Hl.
  - cbn [feed]. now rewrite app_nil_r, echo_of_nil, set_display_nil.
  - apply Forall_cons in Hu as [Hk Hu].
    cbn [feed].
    destruct (os.read_into k) as [[buf cnt] err] eqn:Hr.
    assert (err = None) as ->.
    { unfold graphic, graphic_key in Hk. destruct k; cbn in *; congruence. }
    rewrite (dispatch_accepted k buf cnt _ w (graphic_accepted k Hk) Hr).
    assert (Hcat : concat (map bytes_read prev) ++ bytes_read k
                   = concat (map bytes_read (prev ++ [k]))).
    { rewrite map_app, concat_app. cbn. now rewrite app_nil_r. }
    rewrite Hcat.
    assert (Hp' : Forall graphic (prev ++ [k])) by (apply Forall_app; auto).
    rewrite (RuneCount_graphic _ Hp').
    assert (Hlen : len (prev ++ [k]) = len prev + 1).
    { unfold len. rewrite length_app. cbn [length]. lia. }
    assert (Hlen' : len (k :: units) = 1 + len units).
    { unfold len. cbn [length]. lia. }
    replace ((limit >? 0) && (len (prev ++ [k]) =? limit)) with false.
    2:{ symmetry. apply andb_false_iff. destruct Hl as [Hl|Hl].
        - left. rewrite Z.gtb_ltb. apply Z.ltb_ge. lia.
        - right. apply Z.eqb_neq. unfold len in *. lia. }
    rewrite (IH (prev ++ [k])); auto.
    + rewrite <- app_assoc. cbn [app]. f_equal. f_equal.
      rewrite set_display_app. f_equal.
      change (k :: units) with ([k] ++ units). now rewrite echo_of_app.
    + destruct Hl; [now left|right]. lia.
Qed.

(** The key that brings the count to the limit ends the loop, and the
    reads after it stay pending. *)
Lemma read_loop_limit units k tail w :
  Forall graphic units -> graphic k ->
  0 < limit -> len units + 1 = limit ->
  term.read_loop K G rev echo limit t (units ++ k :: tail) [] w
  = (Returns (concat (map bytes_read (units ++ [k])), None),
     set_pending tail (set_display (display w ++ echo_of echo (units ++ [k])) w)).
Proof.
  intros Hu Hk Hl He.
  rewrite (read_loop_feed K G rev echo limit t units [] w _ _ (k :: tail)
             (feed_graphic units [] w (Forall_nil_2 _) Hu ltac:(right; unfold len; cbn; unfold len in He; lia))).
  cbn [term.read_loop app].
  destruct (os.read_into k) as [[buf cnt] err] eqn:Hr.
  assert (err = None) as ->.
  { unfold graphic, graphic_key in Hk. destruct k; cbn in *; congruence. }
  rewrite (dispatch_accepted k buf cnt _ _ (graphic_accepted k Hk) Hr).
  assert (Hcat : concat (map bytes_read units) ++ bytes_read k
                 = concat (map bytes_read (units ++ [k]))).
  { rewrite map_app, concat_app. cbn. now rewrite app_nil_r. }
  rewrite Hcat, RuneCount_graphic by (apply Forall_app; auto).
  replace ((limit >? 0) && (len (units ++ [k]) =? limit)) with true.
  2:{ symmetry. apply andb_true_iff. split.
      - rewrite Z.gtb_ltb. now apply Z.ltb_lt.
      - apply Z.eqb_eq. unfold len in *. rewrite length_app. cbn [length]. lia. }
  f_equal. rewrite echo_of_app.
  destruct w; unfold set_pending, set_display; cbn. now rewrite app_assoc.
Qed.

(** The end-of-input byte: [io.EOF] on an empty buffer, the buffer
    otherwise. *)
Lemma read_loop_eof k tail result w :
  first_byte k = Some (term.cc t (unix.VEOF K)) ->
  term.read_loop K G rev echo limit t (k :: tail) result w
  = (Returns (result, if len result =? 0 then Some io_EOF else None), set_pending tail w).
Proof.
  intros Hb. destruct (first_byte_read_into k _ Hb) as (buf & cnt & Hr & Hi & _).
  cbn [term.read_loop]. rewrite Hr. unfold term.dispatch. rewrite Hi.
  now rewrite (Byte.byte_dec_lb eq_refl).
Qed.

(** The line terminator. *)
Lemma read_loop_linefeed k tail result w :
  first_byte k = Some term.linefeed ->
  exists err,
    term.read_loop K G rev echo limit t (k :: tail) result w
    = (Returns (result, err), set_pending tail w)
    /\ (term.cc t (unix.VEOF K) <> term.linefeed \/ result <> [] -> err = None).
Proof.
  intros Hb. destruct (first_byte_read_into k _ Hb) as (buf & cnt & Hr & Hi & _).
  cbn [term.read_loop]. rewrite Hr. unfold term.dispatch. rewrite Hi.
  destruct (Byte.eqb term.linefeed (term.cc t (unix.VEOF K))) eqn:E.
  - eexists; split; [reflexivity|]. intros [H|H].
    + apply Byte.byte_dec_bl in E. congruence.
    + destruct result; [congruence|reflexivity].
  - rewrite (Byte.byte_dec_lb eq_refl). now eexists.
Qed.
End Keys.

(** ** Properties of the package *)

Section Claims.
Variable K : unix.Consts.
Variable G : rune -> bool.
Variables (rev : term.Revision) (echo : term.EchoMode) (limit : Z).

(** The settings that the read loop works with. *)
Local Abbreviation modified t := (term.input_settings K rev t).

(** [GetBytes] after the keys [keys], which leave the buffer [b]. *)
Lemma GetBytes_after_keys w t keys tail b :
  enters_read_loop w t ->
  pending w = keys ++ tail ->
  buffer_after K G rev echo limit (modified t) keys w = Some b ->
  exists w1,
    term.GetBytes K G rev echo limit w =
      match term.read_loop K G rev echo limit (modified t) tail b w1 with
      | (Returns a, w') => (Returns a, snd (sys.IoctlSetTermios os.Stdout_Fd t w'))
      | (Panics msg, w') => (Panics msg, snd (sys.IoctlSetTermios os.Stdout_Fd t w'))
      | (Blocks, w') => (Blocks, w')
      end.
Proof.
  intros Hat Hp Hb. unfold buffer_after in Hb.
  destruct (feed K G rev echo limit (modified t) keys [] w) as [[b' w1]|] eqn:F; [|discriminate].
  injection Hb as ->.
  destruct (feed_frame _ _ _ _ _ _ _ _ _ _ _ F) as (out & -> & F').
  destruct (GetBytes_in_read_loop K G rev echo limit w t Hat) as (w0 & _ & ->).
  rewrite Hp, (read_loop_feed K G rev echo limit (modified t) keys [] _ _ _ tail (F' _)).
  now eexists.
Qed.

(** A read that begins with the byte that the loop holds in [vEof]: on
    an empty buffer [GetBytes] returns no bytes and [io.EOF], otherwise
    the buffer and no error. *)
Lemma end_of_input_byte w t keys key rest b :
  enters_read_loop w t ->
  pending w = keys ++ key :: rest ->
  buffer_after K G rev echo limit (modified t) keys w = Some b ->
  first_byte key = Some (term.cc (modified t) (unix.VEOF K)) ->
  (b = [] -> fst (term.GetBytes K G rev echo limit w) = Returns ([], Some io_EOF))
  /\ (b <> [] -> fst (term.GetBytes K G rev echo limit w) = Returns (b, None)).
Proof.
  intros Hat Hp Hb Hk.
  destruct (GetBytes_after_keys w t keys (key :: rest) b Hat Hp Hb) as (w1 & ->).
  rewrite (read_loop_eof K G rev echo limit (modified t) key rest b w1 Hk).
  split; [intros ->; reflexivity|]. intros Hne. now destruct b.
Qed.

(** The test of the limit: an accepted read that leaves the rune count of
    the buffer equal to the limit [N > 0] makes [GetBytes] return the
    buffer at once, and the reads after it stay pending; an accepted read
    that leaves the count different from the limit, be it below or above,
    and any accepted read when the limit is 0, does not end the loop. *)
Lemma limit_completes_the_read w t keys key rest b :
  enters_read_loop w t ->
  pending w = keys ++ key :: rest ->
  buffer_after K G rev echo limit (modified t) keys w = Some b ->
  accepted_key G (control_bytes K (modified t)) key = true ->
  (0 < limit -> utf8.RuneCount (b ++ bytes_read key) = limit ->
     exists w', term.GetBytes K G rev echo limit w
                = (Returns (b ++ bytes_read key, None), w')
                /\ pending w' = rest)
  /\ (limit = 0 \/ utf8.RuneCount (b ++ bytes_read key) <> limit ->
      buffer_after K G rev echo limit (modified t) (keys ++ [key]) w
      = Some (b ++ bytes_read key)).
Proof.
  intros Hat Hp Hb Hk.
  destruct (accepted_read_into K G (modified t) key Hk) as (buf & cnt & Hr).
  split.
  - intros Hl Hc.
    destruct (GetBytes_after_keys w t keys (key :: rest) b Hat Hp Hb) as (w1 & ->).
    cbn [term.read_loop]. rewrite Hr.
    rewrite (dispatch_accepted K G rev echo limit (modified t) key buf cnt b _ Hk Hr).
    rewrite Hc, Z.eqb_refl. apply Z.gtb_lt in Hl. rewrite Hl. cbn [andb].
    eexists. split; [reflexivity|].
    now rewrite (proj2 (IoctlSetTermios_frame _ _ _)).
  - intros Hl. unfold buffer_after in *.
    destruct (feed K G rev echo limit (modified t) keys [] w) as [[b' w1]|] eqn:F; [|discriminate].
    injection Hb as ->.
    assert (F2 : feed K G rev echo limit (modified t) [key] b w1
                 = Some (b ++ bytes_read key, set_display (display w1 ++ echo_of echo [key]) w1)).
    { cbn [feed]. rewrite Hr.
      rewrite (dispatch_accepted K G rev echo limit (modified t) key buf cnt b _ Hk Hr).
      replace ((limit >? 0) && (utf8.RuneCount (b ++ bytes_read key) =? limit)) with false;
        [reflexivity|].
      symmetry. apply andb_false_iff. destruct Hl as [->|Hl]; [now left|right].
      now apply Z.eqb_neq. }
    now rewrite (feed_app K G rev echo limit (modified t) keys [key] [] w b w1 F), F2.
Qed.

(** C2, as the code has it. When a read fails after keys that left the
    buffer [b], [GetBytes] returns the error of the read together with
    [b]: the accumulated bytes are handed to the caller, not dropped. *)
Theorem read_failure_returns_buffer w t keys e rest b :
  enters_read_loop w t ->
  pending w = keys ++ ReadFails e :: rest ->
  buffer_after K G rev echo limit (modified t) keys w = Some b ->
  fst (term.GetBytes K G rev echo limit w) = Returns (b, Some e).
Proof.
  intros Hat Hp Hb.
  now destruct (GetBytes_after_keys w t keys (ReadFails e :: rest) b Hat Hp Hb) as (w1 & ->).
Qed.

(** C5, as the code has it. Graphic keys followed by the line terminator:
    when no limit is set, or the limit is not smaller than their number,
    [GetBytes] returns the concatenation of the bytes of the keys; the
    display receives the bytes themselves under [EchoNormal] and one
    [*] for each key, whatever its length in bytes, under [EchoMask]. *)
Theorem graphic_keys_are_returned w t units nl rest :
  enters_read_loop w t ->
  pending w = units ++ nl :: rest ->
  Forall (fun k => graphic_key G (control_bytes K (modified t)) k = true) units ->
  first_byte nl = Some term.linefeed ->
  limit = 0 \/ len units <= limit ->
  exists err w',
    term.GetBytes K G rev echo limit w
      = (Returns (concat (map bytes_read units), err), w')
    /\ display w' = display w ++ echo_of echo units
    /\ (echo = term.EchoMask ->
        display w' = display w ++ repeat term.maskChar (length units))
    /\ (term.cc (modified t) (unix.VEOF K) <> term.linefeed -> err = None).
Proof.
  intros Hat Hp Hu Hnl Hl.
  assert (Hm : echo = term.EchoMask ->
               echo_of echo units = repeat term.maskChar (length units)).
  { intros ->. reflexivity. }
  destruct (GetBytes_in_read_loop K G rev echo limit w t Hat) as (w0 & Hd & ->).
  rewrite Hp.
  destruct (Z_lt_ge_dec 0 limit) as [Hpos|Hneg];
    [destruct (Z.eq_dec (len units) limit) as [Heq|Hne]|].
  - (* the last key reaches the limit *)
    destruct units as [|k0 us _] using rev_ind; [unfold len in Heq; cbn in Heq; lia|].
    apply Forall_app in Hu as [Hus Hk]. apply Forall_cons in Hk as [Hk _].
    rewrite <- app_assoc. cbn [app].
    rewrite (read_loop_limit K G rev echo limit (modified t) us k0 (nl :: rest) _ Hus Hk Hpos).
    2:{ unfold len in *. rewrite length_app in Heq. cbn [length] in Heq. lia. }
    eexists _, _. split; [reflexivity|].
    rewrite (proj1 (IoctlSetTermios_frame _ _ _)). cbn [display set_pending set_display].
    rewrite Hd. split; [reflexivity|]. split; [|reflexivity]. intros He. now rewrite <- Hm.
  - (* the terminator is read *)
    rewrite (read_loop_feed K G rev echo limit (modified t) units [] _ _ _ (nl :: rest)
               (feed_graphic K G rev echo limit (modified t) units [] _ (Forall_nil_2 _) Hu
                  ltac:(right; change (len (@nil ReadResult)) with 0; destruct Hl; lia))).
    match goal with |- context [term.read_loop _ _ _ _ _ _ (nl :: rest) ?r ?ww] =>
      destruct (read_loop_linefeed K G rev echo limit (modified t) nl rest r ww Hnl)
        as (err & -> & He) end.
    exists err. eexists. split; [reflexivity|].
    rewrite (proj1 (IoctlSetTermios_frame _ _ _)). cbn [display set_pending set_display].
    rewrite Hd. split; [reflexivity|]. split; [intros E; now rewrite <- Hm|].
    intros Hv. apply He. now left.
  - rewrite (read_loop_feed K G rev echo limit (modified t) units [] _ _ _ (nl :: rest)
               (feed_graphic K G rev echo limit (modified t) units [] _ (Forall_nil_2 _) Hu
                  ltac:(left; lia))).
    match goal with |- context [term.read_loop _ _ _ _ _ _ (nl :: rest) ?r ?ww] =>
      destruct (read_loop_linefeed K G rev echo limit (modified t) nl rest r ww Hnl)
        as (err & -> & He) end.
    exists err. eexists. split; [reflexivity|].
    rewrite (proj1 (IoctlSetTermios_frame _ _ _)). cbn [display set_pending set_display].
    rewrite Hd. split; [reflexivity|]. split; [intros E; now rewrite <- Hm|].
    intros Hv. apply He. now left.
Qed.
End Claims.

Lemma nth_4_tl {A} (l : list A) d : hd d (tl (tl (tl (tl l)))) = nth 4 l d.
Proof. now destruct l as [|? [|? [|? [|? [|? ?]]]]]. Qed.

Lemma settings_set_faults fl w fd : settings (set_faults fl w) fd = settings w fd.
Proof. reflexivity. Qed.

Section Restore.
Variable K : unix.Consts.
Variable G : rune -> bool.
Variables (rev : term.Revision) (echo : term.EchoMode) (limit : Z).

(** C1, as the code has it. Whenever [GetBytes] comes back (with the
    line, with [io.EOF], with the error of a read, or otherwise), the
    settings of the terminal are those of before the call, provided the
    kernel does not refuse the deferred ioctl that puts them back; the
    result of that ioctl is dropped. *)
Theorem GetBytes_restores_settings w out w' :
  term.GetBytes K G rev echo limit w = (out, w') ->
  out <> Blocks ->
  restore_fault w = None ->
  settings w' os.Stdout_Fd = settings w os.Stdout_Fd.
Proof.
  unfold term.GetBytes, restore_fault. intros E Hout Hf.
  destruct (checkIsTerminal_run w) as [(msg & fl & C)|C].
  { rewrite (bind_panics _ _ _ _ _ C) in E. now injection E as <- <-. }
  rewrite (bind_returns _ _ _ _ _ C) in E.
  rewrite (bind_returns _ _ _ _ _ (IoctlGetTermios_run _ _)) in E.
  destruct w as [fs fl pd ds].
  cbv [set_faults files faults pending display] in E. cbn [faults] in Hf.
  destruct (hd None (tl (tl fl))) as [e|] eqn:F3.
  { injection E as <- <-. reflexivity. }
  destruct (fs !! os.Stdout_Fd) as [[t|]|] eqn:Hfd;
    try (injection E as <- <-; unfold settings; cbn [files]; now rewrite Hfd).
  unfold defer in E.
  rewrite (bind_returns _ _ _ _ _ (IoctlSetTermios_run _ _ _)) in E.
  cbv [set_faults set_files files faults pending display] in E.
  rewrite Hfd in E.
  match type of E with context [term.read_loop ?a ?b ?c ?d ?e ?f ?g ?h ?i] =>
    destruct (read_loop_frame a b c d e f g h i) as (o & p & dout & R) end.
  rewrite R in E. clear R.
  assert (out = o) as <- by (destruct o; now injection E).
  assert (Hw : w' = snd (sys.IoctlSetTermios os.Stdout_Fd t
             (set_pending p (set_display (ds ++ dout)
                {| files := match hd None (tl (tl (tl fl))) with
                            | None => <[os.Stdout_Fd := Terminal (term.input_settings K rev t)]> fs
                            | Some _ => fs
                            end;
                   faults := tl (tl (tl (tl fl))); pending := pd; display := ds |})))).
  { destruct out; try congruence; destruct (hd None (tl (tl (tl fl))));
      cbn [display] in E; now injection E as <-. }
  rewrite Hw, IoctlSetTermios_run.
  cbv [set_faults set_files set_pending set_display files faults pending display snd].
  rewrite nth_4_tl, Hf.
  unfold settings at 2. cbn [files]. rewrite Hfd.
  destruct (hd None (tl (tl (tl fl)))).
  - rewrite Hfd. unfold settings. cbn [files]. now rewrite lookup_insert_eq.
  - rewrite lookup_insert_eq. unfold settings. cbn [files]. now rewrite lookup_insert_eq.
Qed.

(** X28. When the settings cannot be read, [GetBytes] returns that error
    without reading any input or writing anything. *)
Lemma GetBytes_settings_unreadable w e :
  term.checkIsTerminal w = (Returns (), set_faults (tl (tl (faults w))) w) ->
  fst (sys.IoctlGetTermios os.Stdout_Fd (set_faults (tl (tl (faults w))) w))
    = Returns (inr e) ->
  exists w', term.GetBytes K G rev echo limit w = (Returns ([], Some (Errno_error e)), w')
             /\ pending w' = pending w /\ display w' = display w /\ files w' = files w.
Proof.
  intros C Hg. unfold term.GetBytes.
  rewrite (bind_returns _ _ _ _ _ C).
  destruct (sys.IoctlGetTermios os.Stdout_Fd (set_faults (tl (tl (faults w))) w))
    as [o w1] eqn:E.
  cbn [fst] in Hg. subst o.
  rewrite (bind_returns _ _ _ _ _ E).
  rewrite IoctlGetTermios_run in E. injection E as _ <-.
  eexists. split; [reflexivity|]. now repeat split.
Qed.

(** [MakeRaw] returns the error of the ioctl that installs the raw
    settings. *)
Lemma MakeRaw_reports_install_failure fd w t e :
  files w !! fd = Some (Terminal t) ->
  faults w = [None; Some e] ->
  fst (term.MakeRaw K fd w) = Returns (None, Some e).
Proof.
  intros Hfd Hf. unfold term.MakeRaw.
  rewrite (bind_returns _ _ _ _ _ (IoctlGetTermios_run _ _)), Hf, Hfd. cbn [hd tl].
  rewrite (bind_returns _ _ _ _ _ (IoctlSetTermios_run _ _ _)).
  cbv [set_faults files faults hd tl]. reflexivity.
Qed.
End Restore.


(** In the second revision, an erase of width 0 writes nothing. *)
Lemma erase_zero_width_writes_nothing n result echo w :
  utf8.RuneCount (slice_from result (len result - n)) = 0 ->
  snd (term.erase term.Unixoid n result echo w) = w.
Proof.
  intros H. unfold term.erase. rewrite H. unfold bind, ret. now destruct echo.
Qed.

Section WordErase.
Variable K : unix.Consts.
Variable G : rune -> bool.
Variables (rev : term.Revision) (echo : term.EchoMode) (limit : Z) (t : unix.Termios).

(** The word-erase case: the buffer is cut after the byte at which the
    backward scan stops. *)
Lemma feed_word_erase k result w :
  word_erase_key K t k = true ->
  result <> [] ->
  fst <$> feed K G rev echo limit t [k] result w
  = Some (slice_to result (term.werase_scan result (length result) false + 1)).
Proof.
  unfold word_erase_key. intros Hk Hne.
  destruct (first_byte k) as [b0|] eqn:Hb; [|discriminate].
  apply andb_prop in Hk as [Hw Hc]. apply negb_true_iff in Hc.
  cbn [existsb] in Hc. repeat (apply orb_false_elim in Hc as [? Hc]).
  destruct (first_byte_read_into k b0 Hb) as (buf & cnt & Hr & Hi & _).
  cbn [feed]. rewrite Hr. unfold term.dispatch. rewrite Hi.
  repeat match goal with H : Byte.eqb _ _ = false |- _ => rewrite H; clear H end.
  rewrite Hw.
  assert ((len result =? 0) = false) as ->.
  { apply Z.eqb_neq. unfold len. destruct result; [congruence|cbn [length]; lia]. }
  unfold bind.
  match goal with |- context [term.erase ?r ?n ?res ?e] =>
    destruct (erase_frame r n res e) as [o Ho] end.
  rewrite Ho. unfold ret. cbn. do 2 f_equal. lia.
Qed.

(** C3, as the code has it. One word-erase on the buffer "foo bar "
    removes the trailing space and the word before it and leaves "foo ";
    a second word-erase leaves the empty buffer. *)
Theorem word_erase_foo_bar k w :
  word_erase_key K t k = true ->
  fst <$> feed K G rev echo limit t [k] (bytes_of "foo bar ") w = Some (bytes_of "foo ")
  /\ fst <$> feed K G rev echo limit t [k] (bytes_of "foo ") w = Some [].
Proof.
  intros Hk. split; rewrite feed_word_erase by (assumption || discriminate); reflexivity.
Qed.
End WordErase.

(** The scan of the word-erase case stops at an index of the buffer or at
    -1: the erase that follows cuts within the buffer. *)
Lemma werase_scan_range result k : forall flag,
  -1 <= term.werase_scan result k flag <= Z.of_nat k - 1.
Proof.
  induction k as [|k IH]; intros flag; cbn [term.werase_scan]; [lia|].
  pose proof (IH true). pose proof (IH flag).
  repeat match goal with |- context [if ?c then _ else _] => destruct c end; lia.
Qed.

(** ** The properties on a linux terminal *)

(** In the sessions of the examples [GetBytes] gets as far as reading. *)
Lemma session_enters_read_loop keys : enters_read_loop (session [] keys) cooked.
Proof. eexists. split; reflexivity. Qed.

(** C1, witness: a line typed at a terminal that serves every ioctl. *)
Lemma GetBytes_restores_settings_witness :
  let w := session [] (typed "hi" ++ [Read1 term.linefeed]) in
  let r := GetBytes_linux term.Unixoid term.EchoNormal 0 w in
  fst r = Returns (bytes_of "hi", None)
  /\ settings (snd r) os.Stdout_Fd = settings w os.Stdout_Fd.
Proof.
  split; [reflexivity|].
  apply (GetBytes_restores_settings unix.linux unicode.GraphicRanges_rows term.Unixoid
           term.EchoNormal 0 _ _ _ (surjective_pairing _)); [discriminate | reflexivity].
Defined.

(** C1, counterexample: the kernel refuses the deferred ioctl (the fifth
    of the call); [GetBytes] returns the line and no error, and the
    terminal keeps the modified settings. *)
Lemma GetBytes_leaves_terminal_modified :
  let w := session [None; None; None; None; Some unix.EIO] [Read1 term.linefeed] in
  let r := GetBytes_linux term.Unixoid term.EchoNormal 0 w in
  fst r = Returns ([], None)
  /\ settings (snd r) os.Stdout_Fd <> settings w os.Stdout_Fd.
Proof. split; [reflexivity|]. vm_compute. discriminate. Qed.

(** C2, counterexample: the read fails after "ab" was typed, and "ab" comes
    back with the error. *)
Lemma read_failure_hands_out_buffer :
  let r := fst (GetBytes_linux term.Unixoid term.EchoNormal 0
                  (session [] (typed "ab" ++ [ReadFails read_error]))) in
  r = Returns (bytes_of "ab", Some read_error)
  /\ r <> Returns ([], Some read_error).
Proof. split; [reflexivity|]. vm_compute. discriminate. Qed.

(** C2, witness. *)
Lemma read_failure_returns_buffer_witness :
  fst (GetBytes_linux term.LinuxOnly term.EchoMask 0
         (session [] (typed "ab" ++ [ReadFails read_error; enter])))
  = Returns (bytes_of "ab", Some read_error).
Proof.
  apply (read_failure_returns_buffer unix.linux unicode.GraphicRanges_rows term.LinuxOnly
           term.EchoMask 0 _ cooked (typed "ab") read_error [enter] (bytes_of "ab")
           (session_enters_read_loop _)); reflexivity.
Defined.

(** C3, counterexample: after "foo bar " one ^W leaves "foo ", not
    "foo bar", and a second ^W leaves nothing, not "foo ". *)
Lemma word_erase_takes_the_word :
  let once := fst (GetBytes_linux term.Unixoid term.EchoNormal 0
                     (session [] (typed "foo bar " ++ [Read1 ctrl_W; enter]))) in
  let twice := fst (GetBytes_linux term.Unixoid term.EchoNormal 0
                      (session [] (typed "foo bar " ++ [Read1 ctrl_W; Read1 ctrl_W; enter]))) in
  once = Returns (bytes_of "foo ", None)
  /\ once <> Returns (bytes_of "foo bar", None)
  /\ twice = Returns ([], None)
  /\ twice <> Returns (bytes_of "foo ", None).
Proof. repeat split; try reflexivity; vm_compute; discriminate. Qed.

(** C3, witness. *)
Lemma word_erase_foo_bar_witness :
  let t := term.input_settings unix.linux term.Unixoid cooked in
  let run := feed unix.linux unicode.GraphicRanges_rows term.Unixoid term.EchoNormal 0 t
               [Read1 ctrl_W] in
  fst <$> run (bytes_of "foo bar ") (session [] []) = Some (bytes_of "foo ")
  /\ fst <$> run (bytes_of "foo ") (session [] []) = Some [].
Proof.
  apply (word_erase_foo_bar unix.linux unicode.GraphicRanges_rows term.Unixoid
           term.EchoNormal 0 _ (Read1 ctrl_W) (session [] [])).
  reflexivity.
Defined.

(** C4: bytes that are not one complete character get into the buffer.
    The single byte 0xC3, the first half of a two-byte character, decodes
    to [RuneError], which is graphic, and is appended: the buffer ends in a
    partial character.  A read that delivers two characters, here even the
    line terminator as the second, is appended whole. *)
Theorem partial_character_is_appended : forall rev,
  fst (GetBytes_linux rev term.EchoNormal 0 (session [] [Read1 xc3; enter]))
    = Returns ([xc3], None)
  /\ utf8.DecodeLastRune [xc3] = (utf8.RuneError, 1)
  /\ one_rune [xc3] = None
  /\ fst (GetBytes_linux rev term.EchoNormal 0 (session [] [Read2 "a"%byte x0a; enter]))
    = Returns (["a"%byte; x0a], None).
Proof. intros []; repeat split. Qed.

(** C5, counterexample: with the limit 1 the keys a, b and the terminator
    give "a", not "ab". *)
Lemma limit_cuts_the_line :
  let r := fst (GetBytes_linux term.Unixoid term.EchoMask 1
                  (session [] (typed "ab" ++ [enter]))) in
  r = Returns (bytes_of "a", None) /\ r <> Returns (bytes_of "ab", None).
Proof. split; [reflexivity|]. vm_compute. discriminate. Qed.

(** C5, witness: four keys of one to four bytes under [EchoMask]: ten
    bytes come back and four [*] are displayed. *)
Lemma graphic_keys_are_returned_witness :
  let keys := [key_h; key_e_acute; key_zhong; key_grin] in
  let w := session [] (keys ++ [enter]) in
  exists err w',
    GetBytes_linux term.Unixoid term.EchoMask 0 w
      = (Returns ([x68; xc3; xa9; xe4; xb8; xad; xf0; x9f; x98; x80], err), w')
    /\ display w' = display w ++ echo_of term.EchoMask keys
    /\ (term.EchoMask = term.EchoMask -> display w' = bytes_of "****")
    /\ (ctrl_D <> term.linefeed -> err = None).
Proof.
  apply (graphic_keys_are_returned unix.linux unicode.GraphicRanges_rows term.Unixoid
           term.EchoMask 0 _ cooked [key_h; key_e_acute; key_zhong; key_grin] enter []
           (session_enters_read_loop _) eq_refl).
  - repeat (constructor; [reflexivity|]). constructor.
  - reflexivity.
  - now left.
Defined.

(** On linux: ^D as the first key, and ^D after "ab". *)
Lemma end_of_input_byte_witness :
  fst (GetBytes_linux term.Unixoid term.EchoNormal 0 (session [] [Read1 ctrl_D]))
    = Returns ([], Some io_EOF)
  /\ fst (GetBytes_linux term.Unixoid term.EchoNormal 0
            (session [] (typed "ab" ++ [Read1 ctrl_D; enter])))
    = Returns (bytes_of "ab", None).
Proof.
  split.
  - apply (end_of_input_byte unix.linux unicode.GraphicRanges_rows term.Unixoid
             term.EchoNormal 0 _ cooked [] (Read1 ctrl_D) [] []
             (session_enters_read_loop _)); reflexivity.
  - apply (end_of_input_byte unix.linux unicode.GraphicRanges_rows term.Unixoid
             term.EchoNormal 0 _ cooked (typed "ab") (Read1 ctrl_D) [enter] (bytes_of "ab")
             (session_enters_read_loop _)); try reflexivity. discriminate.
Defined.

(** With the limit 2, the second character completes the read and the key
    typed after it stays pending. *)
Lemma limit_completes_the_read_witness :
  exists w',
    GetBytes_linux term.Unixoid term.EchoNormal 2
      (session [] [key_h; key_e_acute; Read1 "z"%byte; enter])
    = (Returns ([x68; xc3; xa9], None), w')
    /\ pending w' = [Read1 "z"%byte; enter].
Proof.
  apply (limit_completes_the_read unix.linux unicode.GraphicRanges_rows term.Unixoid
           term.EchoNormal 2 _ cooked [key_h] key_e_acute [Read1 "z"%byte; enter] [x68]
           (session_enters_read_loop _)); reflexivity.
Defined.

(** C6: an end-of-input byte that is received and not taken as such.
    The switch looks at the first byte of a read only: when ^D arrives in
    one read behind another character, while the buffer holds "a", the
    whole read is appended and [GetBytes] goes on reading; it returns the
    buffer with the byte 0x04 in it when Enter is typed.  With the
    constants of solaris, where VMIN is the slot of VEOF, the loop takes
    the 1 that [GetBytes] has just stored there for end-of-input: ^D, the
    end-of-input byte of the terminal, is dropped, on an empty buffer
    (Enter then gives no bytes and no error, not [io.EOF]) and on the
    buffer "ab" (the read goes on and takes "c"). *)
Theorem end_of_input_byte_is_missed : forall rev,
  fst (GetBytes_linux rev term.EchoNormal 0
         (session [] [Read1 "a"%byte; Read2 "b"%byte ctrl_D; enter]))
    = Returns (["a"%byte; "b"%byte; x04], None)
  /\ term.cc cooked (unix.VEOF unix.solaris) = ctrl_D
  /\ term.cc (term.input_settings unix.solaris term.Unixoid cooked) (unix.VEOF unix.solaris)
     = x01
  /\ fst (term.GetBytes unix.solaris unicode.GraphicRanges_rows term.Unixoid term.EchoNormal 0
            (session [] [Read1 ctrl_D; enter]))
     = Returns ([], None)
  /\ fst (term.GetBytes unix.solaris unicode.GraphicRanges_rows term.Unixoid term.EchoNormal 0
            (session [] (typed "ab" ++ [Read1 ctrl_D; Read1 "c"%byte; enter])))
     = Returns (bytes_of "abc", None).
Proof. intros []; repeat split. Qed.

(** C7: a limit that is overrun.  With the limit 1, a read that delivers
    the two characters "ab" takes the rune count of the buffer from 0 to 2;
    the test [utf8.RuneCount(result) == int(limit)] fails then and for
    ever after: [GetBytes] does not complete, takes the key "c" as well and
    returns the three characters "abc" when Enter is typed.  With the
    limit 2, the reads "a" and "bc" take the count from 1 to 3. *)
Theorem limit_is_overrun : forall rev,
  let r := GetBytes_linux rev term.EchoNormal 1
             (session [] [Read2 "a"%byte "b"%byte; Read1 "c"%byte; enter]) in
  fst r = Returns (bytes_of "abc", None)
  /\ pending (snd r) = []
  /\ utf8.RuneCount (bytes_of "abc") = 3
  /\ fst (GetBytes_linux rev term.EchoNormal 2
            (session [] [Read1 "a"%byte; Read2 "b"%byte "c"%byte; enter]))
     = Returns (bytes_of "abc", None).
Proof. intros []; repeat split. Qed.

(** C8: in the first revision a kill on the empty buffer writes the escape
    sequences for a move by 0 columns and for erase-to-end-of-line. *)
Theorem kill_on_empty_buffer_writes :
  display (snd (term.erase term.LinuxOnly 0 [] true (session [] [])))
    = [x1b; "["%byte; "0"%byte; "D"%byte; x1b; "["%byte; "K"%byte]
  /\ display (snd (GetBytes_linux term.LinuxOnly term.EchoNormal 0
                     (session [] [Read1 ctrl_U; enter])))
    = [x1b; "["%byte; "0"%byte; "D"%byte; x1b; "["%byte; "K"%byte]
  /\ display (snd (GetBytes_linux term.Unixoid term.EchoNormal 0
                     (session [] [Read1 ctrl_U; enter])))
    = [].
Proof. repeat split. Qed.

(** C9: the kernel refuses the ioctl that installs the modified settings
    (the fourth of the call); [GetBytes] goes on to read, takes the key and
    returns it with no error. *)
Theorem install_failure_is_ignored : forall rev,
  let w := session [None; None; None; Some unix.EIO] [key_h; enter; Read1 "z"%byte] in
  let r := GetBytes_linux rev term.EchoNormal 0 w in
  install_fault w = Some unix.EIO
  /\ fst r = Returns ([x68], None)
  /\ pending (snd r) = [Read1 "z"%byte].
Proof. intros []; repeat split. Qed.

(** With standard input and output closed, [checkIsTerminal] does not
    panic (EBADF is not ENOTTY) and [GetBytes] returns the error of the
    ioctl that reads the settings, without reading. *)
Example GetBytes_closed_descriptors : forall rev,
  let w := {| files := ∅; faults := []; pending := [key_h; enter]; display := [] |} in
  let r := GetBytes_linux rev term.EchoNormal 0 w in
  fst r = Returns ([], Some (Errno_error unix.EBADF))
  /\ pending (snd r) = [key_h; enter].
Proof. intros []; split; reflexivity. Qed.

(** A closed descriptor makes the ioctl fail with EBADF, and counts as a
    terminal. *)
Example IsTerminal_closed_descriptor :
  fst (sys.IoctlGetTermios 7 (session [] [])) = Returns (inr unix.EBADF)
  /\ fst (term.IsTerminal 7 (session [] [])) = Returns true.
Proof. split; reflexivity. Qed.

(** * Further properties *)

(** ** The erase cases of the read loop *)

(** What [erase] returns and writes. *)
Lemma erase_run rev echo n result w :
  term.erase rev n result (negb (echo =? term.EchoNone)) w
  = (Returns (slice_to result (len result - n)),
     set_display (display w
                  ++ erase_output rev echo (utf8.RuneCount (slice_from result (len result - n))))
       w).
Proof.
  unfold term.erase, erase_output, term.write_erase_sequence, erase_sequence,
    os.Stdout_Write, bind, ret.
  destruct (echo =? term.EchoNone); cbn [negb].
  - now rewrite set_display_nil.
  - destruct rev; [|destruct (_ >? 0)]; cbn [fst snd]; rewrite ?set_display_app;
      rewrite ?set_display_nil; reflexivity.
Qed.

Lemma slice_from_0 {A} (l : list A) : slice_from l 0 = l.
Proof. reflexivity. Qed.

Lemma slice_to_0 {A} (l : list A) : slice_to l 0 = [].
Proof. reflexivity. Qed.

Lemma slice_to_app_len {A} (a b : list A) : slice_to (a ++ b) (len a) = a.
Proof.
  unfold slice_to, len. rewrite Nat2Z.id.
  rewrite firstn_app, Nat.sub_diag, firstn_all. cbn. now rewrite app_nil_r.
Qed.

Lemma slice_from_app_len {A} (a b : list A) : slice_from (a ++ b) (len a) = b.
Proof.
  unfold slice_from, len. rewrite Nat2Z.id.
  rewrite skipn_app, Nat.sub_diag, skipn_all. reflexivity.
Qed.

Lemma len_app {A} (a b : list A) : len (a ++ b) = len a + len b.
Proof. unfold len. rewrite length_app. lia. Qed.

Lemma len_nonneg {A} (a : list A) : 0 <= len a.
Proof. unfold len. lia. Qed.

Lemma len_pos {A} (a : list A) : a <> [] -> 0 < len a.
Proof. unfold len. destruct a; [congruence|cbn [length]; lia]. Qed.

Section EraseCases.
Variable K : unix.Consts.
Variable G : rune -> bool.
Variables (rev : term.Revision) (echo : term.EchoMode) (limit : Z) (t : unix.Termios).

(** X1. The kill byte empties the buffer, whatever it holds, and the cursor is
    moved back by the number of runes that the buffer held. *)
Theorem kill_empties_the_buffer k result w :
  kill_key K t k = true ->
  feed K G rev echo limit t [k] result w
  = Some ([], set_display (display w ++ erase_output rev echo (utf8.RuneCount result)) w).
Proof.
  unfold kill_key. intros Hk.
  destruct (first_byte k) as [b0|] eqn:Hb; [|discriminate].
  apply andb_prop in Hk as [Hw Hc]. apply negb_true_iff in Hc.
  cbn [existsb] in Hc. repeat (apply orb_false_elim in Hc as [? Hc]).
  destruct (first_byte_read_into k b0 Hb) as (buf & cnt & Hr & Hi & _).
  cbn [feed]. rewrite Hr. unfold term.dispatch. rewrite Hi.
  repeat match goal with H : Byte.eqb _ _ = false |- _ => rewrite H; clear H end.
  rewrite Hw. unfold bind. rewrite erase_run. unfold ret.
  now rewrite Z.sub_diag, slice_from_0, slice_to_0.
Qed.
End EraseCases.

(** X1, witness. The kill byte ^U on a buffer of four characters in five bytes. *)
Lemma kill_empties_the_buffer_witness :
  feed unix.linux unicode.GraphicRanges_rows term.LinuxOnly term.EchoMask 0
    (term.input_settings unix.linux term.LinuxOnly cooked)
    [Read1 ctrl_U] [x68; xc3; xa9; x6c; x6f] (session [] [])
  = Some ([], set_display [x1b; "["%byte; "4"%byte; "D"%byte; x1b; "["%byte; "K"%byte]
                (session [] [])).
Proof.
  apply (kill_empties_the_buffer unix.linux unicode.GraphicRanges_rows term.LinuxOnly
           term.EchoMask 0 _ (Read1 ctrl_U) [x68; xc3; xa9; x6c; x6f] (session [] [])).
  reflexivity.
Defined.

(** ** [DecodeLastRune] on a buffer that ends in a complete encoding *)

Lemma RuneStart_spec b :
  RuneStart b = negb ((0x80 <=? bz b) && (bz b <=? 0xBF)).
Proof. destruct b; reflexivity. Qed.

Lemma idx_app_r (a u : list byte) j :
  0 <= j -> idx (a ++ u) (len a + j) = idx u j.
Proof.
  intros Hj. unfold idx, len.
  replace (Z.to_nat (Z.of_nat (length a) + j)) with (length a + Z.to_nat j)%nat by lia.
  now rewrite app_nth2_plus.
Qed.

Lemma slice_app_r {A} (a u : list A) :
  slice (a ++ u) (len a) (len a + len u) = u.
Proof.
  unfold slice, len. replace (Z.of_nat (length a) + Z.of_nat (length u) - Z.of_nat (length a))
    with (Z.of_nat (length u)) by lia.
  rewrite !Nat2Z.id, skipn_app, Nat.sub_diag, skipn_all. cbn. apply firstn_all.
Qed.

Lemma first_lead b :
  In (first (bz b)) [0x02; 0x13; 0x03; 0x23; 0x34; 0x04; 0x44] -> 0xC0 <= bz b.
Proof.
  destruct b; intros H;
    first [ vm_compute; discriminate
          | exfalso; vm_compute in H; intuition discriminate ].
Qed.

(** The facts that [one_rune] gives about the bytes of an encoding. *)
Lemma one_rune_shape u r :
  one_rune u = Some r ->
  DecodeRune u = (r, len u)
  /\ ((exists b0, u = [b0] /\ bz b0 < RuneSelf)
      \/ (exists b0 w, u = b0 :: w /\ (1 <= length w <= 3)%nat /\ 0xC0 <= bz b0
                       /\ Forall (fun c => RuneStart c = false) w)).
Proof.
  intros V. pose proof (one_rune_length u r V) as L.
  assert (D : DecodeRune u = (r, len u)).
  { revert V. unfold one_rune. destruct (DecodeRune u) as [r' size].
    destruct (size =? len u) eqn:E; [|discriminate]. apply Z.eqb_eq in E. subst size.
    destruct (_ && _); [|discriminate]. now intros [= ->]. }
  split; [exact D|]. clear D.
  destruct u as [|b0 [|b1 [|b2 [|b3 [|b4 u]]]]]; cbn [length] in L; try lia; clear L.
  all: match goal with |- ?g => set (Goal := g) end.
  all: revert V; unfold one_rune, DecodeRune; list_ops.
  all: first_byte_cases b0; use_first; unfold RuneError, locb, hicb, RuneSelf in *; calc.
  all: rewrite ?Z.ldiff_0_r, ?Z.lor_0_r, ?Z.ldiff_m1_r; calc.
  all: try discriminate.
  all: split_ifs; try discriminate; intros _; subst Goal.
  all: try (left; eexists; split; [reflexivity|assumption]).
  all: right; eexists _, _; split; [reflexivity|]; cbn [length]; split; [lia|].
  all: split; [apply first_lead;
               match goal with E : _ = first _ |- _ => rewrite <- E end;
               cbn [In]; tauto |].
  all: repeat (constructor; [rewrite RuneStart_spec; apply negb_false_iff;
                             repeat match goal with
                               | E : (_ || _) = false |- _ => apply orb_false_elim in E as [? ?]
                               end;
                             apply andb_true_iff; split; [apply Z.leb_le|apply Z.leb_le]; lia|]).
  all: constructor.
Qed.

Lemma lastRuneStart_found k p start lim :
  lim <= start -> RuneStart (idx p start) = true ->
  lastRuneStart (S k) p start lim = start.
Proof.
  intros Hl Hs. cbn [lastRuneStart]. rewrite Hs.
  now rewrite (proj2 (Z.ltb_ge _ _) Hl).
Qed.

Lemma lastRuneStart_next k p start lim :
  lim <= start -> RuneStart (idx p start) = false ->
  lastRuneStart (S k) p start lim = lastRuneStart k p (start - 1) lim.
Proof.
  intros Hl Hs. cbn [lastRuneStart]. rewrite Hs.
  now rewrite (proj2 (Z.ltb_ge _ _) Hl).
Qed.

(** [DecodeLastRune] finds the complete encoding that a buffer ends in,
    whatever lies before it. *)
Lemma DecodeLastRune_one_rune a u r :
  one_rune u = Some r -> DecodeLastRune (a ++ u) = (r, len u).
Proof.
  intros V. destruct (one_rune_shape u r V) as (D & [(b0 & -> & Hb)|(b0 & w & -> & Hw & Hb & Hc)]).
  - (* one ASCII byte *)
    unfold DecodeLastRune. rewrite len_app. change (len [b0]) with 1.
    pose proof (len_nonneg a).
    rewrite (proj2 (Z.eqb_neq _ _)) by lia.
    replace (len a + 1 - 1) with (len a + 0) by lia.
    rewrite idx_app_r, idx_0 by lia.
    rewrite (proj2 (Z.ltb_lt _ _) Hb).
    revert D. unfold DecodeRune. list_ops. rewrite (first_ascii b0 Hb).
    unfold as_. calc. rewrite Z.ldiff_0_r, Z.lor_0_r. now intros [= <-].
  - unfold DecodeLastRune. rewrite len_app.
    pose proof (len_nonneg a).
    assert (Hlen : 2 <= len (b0 :: w) <= 4) by (unfold len; cbn [length]; lia).
    rewrite (proj2 (Z.eqb_neq _ _)) by lia.
    assert (Hlast : RuneSelf <= bz (idx (a ++ b0 :: w) (len a + len (b0 :: w) - 1))).
    { replace (len a + len (b0 :: w) - 1) with (len a + (len (b0 :: w) - 1)) by lia.
      rewrite idx_app_r by lia.
      destruct w as [|b1 [|b2 [|b3 [|]]]]; cbn [length] in Hw; try lia;
        repeat match goal with H : Forall _ (_ :: _) |- _ => apply Forall_cons in H as [? H] end;
        match goal with |- _ <= bz (idx _ ?i) =>
          let v := eval vm_compute in i in change i with v end;
        rewrite ?idx_1, ?idx_2, ?idx_3;
        match goal with |- _ <= bz ?c =>
          match goal with Hr : RuneStart c = false |- _ =>
            rewrite RuneStart_spec in Hr; apply negb_false_iff, andb_true_iff in Hr;
            destruct Hr as [Hr _]; apply Z.leb_le in Hr; unfold RuneSelf; lia end end. }
    rewrite (proj2 (Z.ltb_ge _ _) Hlast).
    assert (Hstart : lastRuneStart 4 (a ++ b0 :: w) (len a + len (b0 :: w) - 1 - 1)
                       (Z.max 0 (len a + len (b0 :: w) - UTFMax)) = len a).
    { assert (Hb0 : RuneStart (idx (a ++ b0 :: w) (len a)) = true).
      { replace (len a) with (len a + 0) by lia. rewrite idx_app_r, idx_0 by lia.
        rewrite RuneStart_spec. apply negb_true_iff, andb_false_iff. right.
        apply Z.leb_gt. lia. }
      unfold UTFMax.
      destruct w as [|b1 [|b2 [|b3 [|]]]]; cbn [length] in Hw; try lia;
        repeat match goal with H : Forall _ (_ :: _) |- _ => apply Forall_cons in H as [? H] end.
      - change (len [b0; b1]) with 2.
        replace (len a + 2 - 1 - 1) with (len a) by lia.
        apply lastRuneStart_found; [lia|assumption].
      - change (len [b0; b1; b2]) with 3.
        rewrite lastRuneStart_next; [| lia |].
        2:{ replace (len a + 3 - 1 - 1) with (len a + 1) by lia.
            now rewrite idx_app_r, idx_1 by lia. }
        replace (len a + 3 - 1 - 1 - 1) with (len a) by lia.
        apply lastRuneStart_found; [lia|assumption].
      - change (len [b0; b1; b2; b3]) with 4.
        rewrite lastRuneStart_next; [| lia |].
        2:{ replace (len a + 4 - 1 - 1) with (len a + 2) by lia.
            now rewrite idx_app_r, idx_2 by lia. }
        rewrite lastRuneStart_next; [| lia |].
        2:{ replace (len a + 4 - 1 - 1 - 1) with (len a + 1) by lia.
            now rewrite idx_app_r, idx_1 by lia. }
        replace (len a + 4 - 1 - 1 - 1 - 1) with (len a) by lia.
        apply lastRuneStart_found; [lia|assumption]. }
    rewrite Hstart. rewrite (proj2 (Z.ltb_ge _ _)) by lia.
    rewrite slice_app_r, D. now rewrite Z.eqb_refl.
Qed.


Section EraseCharacter.
Variable K : unix.Consts.
Variable G : rune -> bool.
Variables (rev : term.Revision) (echo : term.EchoMode) (limit : Z) (t : unix.Termios).

(** X2. The erase byte takes the last character off the buffer, all of its
    bytes, and moves the cursor back by one column; on an empty buffer it
    does nothing at all. *)
Theorem erase_takes_one_character k a u r w :
  erase_key K t k = true ->
  one_rune u = Some r ->
  feed K G rev echo limit t [k] [] w = Some ([], w)
  /\ feed K G rev echo limit t [k] (a ++ u) w
     = Some (a, set_display (display w ++ erase_output rev echo 1) w).
Proof.
  unfold erase_key. intros Hk V.
  destruct (first_byte k) as [b0|] eqn:Hb; [|discriminate].
  apply andb_prop in Hk as [Hw Hc]. apply negb_true_iff in Hc.
  cbn [existsb] in Hc. repeat (apply orb_false_elim in Hc as [? Hc]).
  destruct (first_byte_read_into k b0 Hb) as (buf & cnt & Hr & Hi & _).
  split.
  - cbn [feed]. rewrite Hr. unfold term.dispatch. rewrite Hi.
    repeat match goal with H : Byte.eqb _ _ = false |- _ => rewrite H; clear H end.
    now rewrite Hw.
  - cbn [feed]. rewrite Hr. unfold term.dispatch. rewrite Hi.
    repeat match goal with H : Byte.eqb _ _ = false |- _ => rewrite H; clear H end.
    rewrite Hw. pose proof (one_rune_length u r V) as L. pose proof (len_nonneg a).
    assert (Hpos : (len (a ++ u) >? 0) = true).
    { apply Z.gtb_lt. rewrite len_app. unfold len at 2. lia. }
    rewrite Hpos, (DecodeLastRune_one_rune a u r V).
    unfold bind. rewrite erase_run. unfold ret.
    rewrite len_app. replace (len a + len u - len u) with (len a) by lia.
    rewrite slice_to_app_len, slice_from_app_len.
    rewrite <- (app_nil_r u), (RuneCount_one_rune u r [] V), RuneCount_nil.
    reflexivity.
Qed.
End EraseCharacter.

(** X2, witness. The erase byte DEL after "h" and a three-byte character: the three
    bytes go, "h" stays, and the cursor moves back by one column. *)
Lemma erase_takes_one_character_witness :
  let t := term.input_settings unix.linux term.Unixoid cooked in
  let run := feed unix.linux unicode.GraphicRanges_rows term.Unixoid term.EchoNormal 0 t
               [Read1 DEL] in
  run [] (session [] []) = Some ([], session [] [])
  /\ run ([x68] ++ [xe4; xb8; xad]) (session [] [])
     = Some ([x68], set_display [x1b; "["%byte; "1"%byte; "D"%byte; x1b; "["%byte; "K"%byte]
                      (session [] [])).
Proof.
  apply (erase_takes_one_character unix.linux unicode.GraphicRanges_rows term.Unixoid
           term.EchoNormal 0 _ (Read1 DEL) [x68] [xe4; xb8; xad] 0x4E2D (session [] []));
    reflexivity.
Defined.

(** ** The word-erase scan *)

(** The scan passes over trailing spaces without setting its flag. *)
Lemma werase_scan_blanks result m : forall n,
  (forall i, (n <= i < n + m)%nat -> idx result (Z.of_nat i) = term.space) ->
  term.werase_scan result (n + m) false = term.werase_scan result n false.
Proof.
  induction m as [|m IH]; intros n H; [now rewrite Nat.add_0_r|].
  rewrite Nat.add_succ_r. cbn [term.werase_scan].
  rewrite (H (n + m)%nat) by lia. rewrite (Byte.byte_dec_lb eq_refl). cbn [negb andb].
  apply IH. intros i Hi. apply H. lia.
Qed.

(** With the flag set it passes over the bytes that are not spaces. *)
Lemma werase_scan_word result m : forall n,
  (forall i, (n <= i < n + m)%nat -> idx result (Z.of_nat i) <> term.space) ->
  term.werase_scan result (n + m) true = term.werase_scan result n true.
Proof.
  induction m as [|m IH]; intros n H; [now rewrite Nat.add_0_r|].
  rewrite Nat.add_succ_r. cbn [term.werase_scan].
  destruct (Byte.eqb (idx result (Z.of_nat (n + m))) term.space) eqn:E.
  { apply Byte.byte_dec_bl in E. exfalso. apply (H (n + m)%nat); [lia|exact E]. }
  cbn [negb andb]. apply IH. intros i Hi. apply H. lia.
Qed.

(** The first byte from the right that is not a space sets the flag. *)
Lemma werase_scan_flag result n :
  idx result (Z.of_nat n) <> term.space ->
  term.werase_scan result (S n) false = term.werase_scan result n true.
Proof.
  intros H. cbn [term.werase_scan].
  destruct (Byte.eqb (idx result (Z.of_nat n)) term.space) eqn:E; [|reflexivity].
  apply Byte.byte_dec_bl in E. contradiction.
Qed.

(** The scan stops at the space before the word. *)
Lemma werase_scan_stop result n :
  idx result (Z.of_nat n) = term.space ->
  term.werase_scan result (S n) true = Z.of_nat n.
Proof.
  intros H. cbn [term.werase_scan]. rewrite H.
  now rewrite (Byte.byte_dec_lb eq_refl).
Qed.

Lemma idx_nth (p : list byte) (i : nat) : idx p (Z.of_nat i) = nth i p x00.
Proof. unfold idx. now rewrite Nat2Z.id. Qed.

(** The scan on a buffer that ends in a word and spaces after it. *)
Lemma werase_scan_last_word pre word blanks :
  word <> [] ->
  Forall (fun c => c <> term.space) word ->
  Forall (fun c => c = term.space) blanks ->
  term.werase_scan (pre ++ [term.space] ++ word ++ blanks)
    (length (pre ++ [term.space] ++ word ++ blanks)) false = len pre
  /\ term.werase_scan (word ++ blanks) (length (word ++ blanks)) false = -1
  /\ term.werase_scan blanks (length blanks) false = -1.
Proof.
  intros Hne Hw Hb.
  assert (Hblank : forall p i, (length p <= i < length p + length blanks)%nat ->
            idx (p ++ blanks) (Z.of_nat i) = term.space).
  { intros p i Hi. rewrite idx_nth, app_nth2 by lia.
    rewrite List.Forall_forall in Hb. apply Hb, nth_In. lia. }
  assert (Hword : forall p i, (length p <= i < length p + length word)%nat ->
            idx (p ++ word ++ blanks) (Z.of_nat i) <> term.space).
  { intros p i Hi. rewrite idx_nth, app_nth2, app_nth1 by lia.
    rewrite List.Forall_forall in Hw. apply Hw, nth_In. lia. }
  assert (Hlen : exists m, length word = S m) by (destruct word; [congruence|eauto]).
  destruct Hlen as [m Hm].
  repeat split.
  - replace (pre ++ [term.space] ++ word ++ blanks)
      with ((pre ++ [term.space]) ++ word ++ blanks) by now rewrite <- app_assoc.
    set (p := pre ++ [term.space]).
    rewrite !length_app.
    rewrite Nat.add_assoc, werase_scan_blanks.
    2:{ intros i Hi. rewrite app_assoc. apply Hblank. rewrite length_app. lia. }
    rewrite Hm, Nat.add_succ_r, werase_scan_flag.
    2:{ apply Hword. lia. }
    rewrite werase_scan_word.
    2:{ intros i Hi. apply Hword. lia. }
    subst p. rewrite length_app. cbn [length]. rewrite Nat.add_1_r.
    apply werase_scan_stop.
    rewrite <- app_assoc, idx_nth, app_nth2 by lia. now rewrite Nat.sub_diag.
  - rewrite length_app.
    rewrite (werase_scan_blanks (word ++ blanks) (length blanks) (length word)).
    2:{ intros i Hi. apply (Hblank word). lia. }
    rewrite Hm, werase_scan_flag.
    2:{ apply (Hword []). cbn [length]. lia. }
    rewrite <- (Nat.add_0_l m), werase_scan_word; [reflexivity|].
    intros i Hi. apply (Hword []). cbn [length]. lia.
  - rewrite <- (Nat.add_0_l (length blanks)), werase_scan_blanks; [reflexivity|].
    intros i Hi. apply (Hblank []). cbn [length]. lia.
Qed.

Section WordEraseCase.
Variable K : unix.Consts.
Variable G : rune -> bool.
Variables (rev : term.Revision) (echo : term.EchoMode) (limit : Z) (t : unix.Termios).

(** What the word-erase byte does to a buffer that is not empty. *)
Lemma feed_word_erase_run k result w :
  word_erase_key K t k = true ->
  result <> [] ->
  feed K G rev echo limit t [k] result w
  = let cut := term.werase_scan result (length result) false + 1 in
    Some (slice_to result cut,
          set_display (display w ++ erase_output rev echo
                                      (utf8.RuneCount (slice_from result cut))) w).
Proof.
  unfold word_erase_key. intros Hk Hne.
  destruct (first_byte k) as [b0|] eqn:Hb; [|discriminate].
  apply andb_prop in Hk as [Hw Hc]. apply negb_true_iff in Hc.
  cbn [existsb] in Hc. repeat (apply orb_false_elim in Hc as [? Hc]).
  destruct (first_byte_read_into k b0 Hb) as (buf & cnt & Hr & Hi & _).
  cbn [feed]. rewrite Hr. unfold term.dispatch. rewrite Hi.
  repeat match goal with H : Byte.eqb _ _ = false |- _ => rewrite H; clear H end.
  rewrite Hw.
  assert ((len result =? 0) = false) as ->.
  { apply Z.eqb_neq. pose proof (len_pos result Hne). lia. }
  unfold bind. rewrite erase_run. unfold ret. cbv zeta.
  replace (len result - (len result - (term.werase_scan result (length result) false + 1)))
    with (term.werase_scan result (length result) false + 1) by lia.
  reflexivity.
Qed.

(** X3. The word-erase byte removes the last word of the buffer together with
    the spaces after it, up to but not including the space before the
    word, and moves the cursor back by the number of characters removed; a
    buffer that holds one word, or spaces only, is emptied. *)
Theorem word_erase_takes_last_word k pre word blanks w :
  word_erase_key K t k = true ->
  word <> [] ->
  Forall (fun c => c <> term.space) word ->
  Forall (fun c => c = term.space) blanks ->
  feed K G rev echo limit t [k] (pre ++ [term.space] ++ word ++ blanks) w
  = Some (pre ++ [term.space],
          set_display (display w
                       ++ erase_output rev echo (utf8.RuneCount (word ++ blanks))) w)
  /\ fst <$> feed K G rev echo limit t [k] (word ++ blanks) w = Some []
  /\ fst <$> feed K G rev echo limit t [k] blanks w = Some [].
Proof.
  intros Hk Hne Hw Hb.
  destruct (werase_scan_last_word pre word blanks Hne Hw Hb) as (S1 & S2 & S3).
  repeat split.
  - rewrite feed_word_erase_run by (assumption || now destruct pre).
    cbv zeta. rewrite S1.
    replace (len pre + 1) with (len (pre ++ [term.space]))
      by (rewrite len_app; reflexivity).
    rewrite (app_assoc pre), slice_to_app_len, slice_from_app_len. reflexivity.
  - rewrite feed_word_erase_run by (assumption || now destruct word).
    cbv zeta. rewrite S2. reflexivity.
  - destruct blanks as [|c blanks'] eqn:Eb.
    + revert Hk. unfold word_erase_key.
      destruct (first_byte k) as [b0|] eqn:Hf; [|discriminate]. intros Hk.
      apply andb_prop in Hk as [Hwe Hc]. apply negb_true_iff in Hc.
      cbn [existsb] in Hc. repeat (apply orb_false_elim in Hc as [? Hc]).
      destruct (first_byte_read_into k b0 Hf) as (buf & cnt & Hr & Hi & _).
      cbn [feed]. rewrite Hr. unfold term.dispatch. rewrite Hi.
      repeat match goal with H : Byte.eqb _ _ = false |- _ => rewrite H; clear H end.
      now rewrite Hwe.
    + rewrite feed_word_erase_run by (assumption || discriminate).
      cbv zeta. rewrite S3. reflexivity.
Qed.
End WordEraseCase.

(** X3, witness. ^W after "ls  -la  ": the option and the spaces after it go, five
    columns. *)
Lemma word_erase_takes_last_word_witness :
  let t := term.input_settings unix.linux term.Unixoid cooked in
  let run := feed unix.linux unicode.GraphicRanges_rows term.Unixoid term.EchoNormal 0 t
               [Read1 ctrl_W] in
  run (bytes_of "ls " ++ [term.space] ++ bytes_of "-la" ++ bytes_of "  ") (session [] [])
  = Some (bytes_of "ls " ++ [term.space],
          set_display [x1b; "["%byte; "5"%byte; "D"%byte; x1b; "["%byte; "K"%byte]
            (session [] []))
  /\ fst <$> run (bytes_of "-la" ++ bytes_of "  ") (session [] []) = Some []
  /\ fst <$> run (bytes_of "  ") (session [] []) = Some [].
Proof.
  apply (word_erase_takes_last_word unix.linux unicode.GraphicRanges_rows term.Unixoid
           term.EchoNormal 0 _ (Read1 ctrl_W) (bytes_of "ls ") (bytes_of "-la")
           (bytes_of "  ") (session [] [])).
  - reflexivity.
  - discriminate.
  - repeat (constructor; [discriminate|]). constructor.
  - repeat (constructor; [reflexivity|]). constructor.
Defined.

(** ** Keys that are dropped, and the echo mode [EchoNone] *)

Section Silent.
Variable K : unix.Consts.
Variable G : rune -> bool.
Variables (rev : term.Revision) (echo : term.EchoMode) (limit : Z) (t : unix.Termios).

(** X4. A read that begins with no control byte and whose first rune is not
    graphic (an escape sequence of a cursor key, a tab, a bell) is dropped
    whole: the buffer and the display stay as they are. *)
Theorem non_graphic_key_is_ignored k result w :
  ignored_key G (control_bytes K t) k = true ->
  feed K G rev echo limit t [k] result w = Some (result, w).
Proof.
  unfold ignored_key. intros Hk.
  destruct (first_byte k) as [b0|] eqn:Hb; [|discriminate].
  apply andb_prop in Hk as [Hg Hc]. apply negb_true_iff in Hg, Hc.
  unfold control_bytes in Hc. cbn [existsb] in Hc.
  repeat (apply orb_false_elim in Hc as [? Hc]).
  destruct (first_byte_read_into k b0 Hb) as (buf & cnt & Hr & Hi & Hs).
  cbn [feed]. rewrite Hr. unfold term.dispatch. rewrite Hi.
  repeat match goal with H : Byte.eqb _ _ = false |- _ => rewrite H; clear H end.
  rewrite (DecodeRune_read_into k buf cnt Hr), Hs.
  destruct (utf8.DecodeRune (bytes_read k)) as [r sz]. cbn [fst] in Hg.
  now rewrite Hg.
Qed.

(** Under [EchoNone] a turn of the switch writes nothing. *)
Lemma dispatch_silent buf cnt result :
  exists c, forall w,
    term.dispatch K G rev term.EchoNone limit t buf cnt result w = (Returns c, w).
Proof.
  unfold term.dispatch.
  repeat match goal with
    | |- context [if Byte.eqb ?a ?b then _ else _] => destruct (Byte.eqb a b)
    | |- context [if len ?a >? 0 then _ else _] => destruct (len a >? 0)
    | |- context [if len ?a =? 0 then _ else _] => destruct (len a =? 0)
    | |- context [let '(_, _) := ?p in _] => destruct p
    | |- context [if unicode.IsGraphic ?a ?b then _ else _] => destruct (unicode.IsGraphic a b)
    end;
  try (eexists; intros w; reflexivity);
  try (eexists; intros w; unfold bind; rewrite erase_run; unfold erase_output;
       change (term.EchoNone =? term.EchoNone) with true; cbv iota;
       rewrite set_display_nil; reflexivity).
  all: change (term.EchoNone =? term.EchoNormal) with false;
    change (term.EchoNone =? term.EchoMask) with false; cbv iota;
    unfold bind, ret; destruct (_ && _); eexists; intros w; reflexivity.
Qed.

Lemma read_loop_silent script : forall result w,
  display (snd (term.read_loop K G rev term.EchoNone limit t script result w)) = display w.
Proof.
  induction script as [|k script IH]; intros result w; [reflexivity|].
  cbn [term.read_loop].
  destruct (os.read_into k) as [[buf cnt] [e|]]; [reflexivity|].
  destruct (dispatch_silent buf cnt result) as (c & ->).
  destruct c as [result'|result' err']; [|reflexivity].
  now rewrite IH.
Qed.
End Silent.

(** X4, witness. An arrow key in the middle of a line: the three bytes ESC [ A
    arrive in one read and are dropped. *)
Lemma non_graphic_key_is_ignored_witness :
  feed unix.linux unicode.GraphicRanges_rows term.Unixoid term.EchoNormal 0
    (term.input_settings unix.linux term.Unixoid cooked)
    [Read3 x1b "["%byte "A"%byte] (bytes_of "hi") (session [] [])
  = Some (bytes_of "hi", session [] []).
Proof.
  apply (non_graphic_key_is_ignored unix.linux unicode.GraphicRanges_rows term.Unixoid
           term.EchoNormal 0 _ (Read3 x1b "["%byte "A"%byte) (bytes_of "hi") (session [] [])).
  reflexivity.
Defined.

(** X5. Under [EchoNone], [GetBytes] writes nothing to the display: not the
    keys, not the escape sequences of the erase cases, whatever is typed
    and however the call ends. *)
Theorem EchoNone_writes_nothing : forall K G rev limit w,
  display (snd (term.GetBytes K G rev term.EchoNone limit w)) = display w.
Proof.
  intros K G rev limit w. unfold term.GetBytes.
  destruct (checkIsTerminal_run w) as [(msg & fl & C)|C].
  { now rewrite (bind_panics _ _ _ _ _ C). }
  rewrite (bind_returns _ _ _ _ _ C).
  rewrite (bind_returns _ _ _ _ _ (IoctlGetTermios_run _ _)).
  destruct (hd None (faults (set_faults (tl (tl (faults w))) w))); [reflexivity|].
  destruct (files (set_faults (tl (tl (faults w))) w) !! os.Stdout_Fd) as [[t|]|];
    try reflexivity.
  unfold defer.
  rewrite (bind_returns _ _ _ _ _ (IoctlSetTermios_run _ _ _)).
  match goal with |- context [term.read_loop ?a ?b ?c ?d ?e ?f ?g ?h ?i] =>
    pose proof (read_loop_silent a b c e f g h i) as R;
    destruct (term.read_loop a b c d e f g h i) as [o w1] end.
  cbn [snd] in R.
  assert (D : display w1 = display w).
  { rewrite R. match goal with |- context [match ?x with Some _ => _ | None => _ end] =>
      destruct x end; try reflexivity.
    match goal with |- context [match ?x with Some _ => _ | None => _ end] =>
      destruct x as [[]|] end; reflexivity. }
  destruct o; cbn [snd]; rewrite ?(proj1 (IoctlSetTermios_frame _ _ _)); exact D.
Qed.

(** ** The control bytes after the change of the settings *)

Lemma nth_insert_ne {A} (l : list A) i j x d :
  i <> j -> nth j (<[i := x]> l) d = nth j l d.
Proof. intros H. now rewrite !nth_lookup, list_lookup_insert_ne. Qed.

Lemma nth_insert_eq {A} (l : list A) i x d :
  (i < length l)%nat -> nth i (<[i := x]> l) d = x.
Proof. intros H. now rewrite nth_lookup, list_lookup_insert_eq. Qed.

(** The slots of [Cc] other than VMIN and VTIME keep their bytes. *)
Lemma cc_input_settings K rev t i :
  i <> unix.VMIN K -> i <> unix.VTIME K ->
  term.cc (term.input_settings K rev t) i = term.cc t i.
Proof.
  intros H1 H2. unfold term.cc, term.input_settings.
  destruct rev; cbn [unix.Cc]; now rewrite !nth_insert_ne by congruence.
Qed.

(** X6. On a platform whose VMIN and VTIME are slots of their own, the bytes
    that the read loop takes for end-of-input, erase, kill and word-erase
    are those that the user has set for the terminal. *)
Theorem control_bytes_are_kept K rev t :
  Forall (fun i => i <> unix.VMIN K /\ i <> unix.VTIME K)
    [unix.VEOF K; unix.VERASE K; unix.VKILL K; unix.VWERASE K] ->
  control_bytes K (term.input_settings K rev t) = control_bytes K t.
Proof.
  intros H. repeat (apply Forall_cons in H as [? H]).
  repeat match goal with Hc : _ /\ _ |- _ => destruct Hc end.
  unfold control_bytes. rewrite !cc_input_settings by assumption. reflexivity.
Qed.

(** X6, witness. *)
Lemma control_bytes_are_kept_witness :
  control_bytes unix.linux (term.input_settings unix.linux term.Unixoid cooked)
  = [ctrl_D; term.linefeed; DEL; ctrl_U; ctrl_W].
Proof.
  apply (control_bytes_are_kept unix.linux term.Unixoid cooked).
  repeat (constructor; [split; discriminate|]). constructor.
Defined.

Section SharedSlot.
Variable K : unix.Consts.
Variable G : rune -> bool.
Variables (rev : term.Revision) (echo : term.EchoMode) (limit : Z).

(** X7. On a platform where VMIN is the slot of VEOF (the System V layout of
    solaris and aix), [GetBytes] overwrites the end-of-input byte with the
    1 that it stores for VMIN before it reads the control bytes: the byte
    0x01 (^A) typed on an empty line ends the input with [io.EOF], whatever
    end-of-input byte the terminal was set to. *)
Theorem shared_slot_moves_end_of_input w t key rest :
  unix.VEOF K = unix.VMIN K -> unix.VTIME K <> unix.VMIN K ->
  (unix.VMIN K < length (unix.Cc t))%nat ->
  enters_read_loop w t ->
  pending w = key :: rest ->
  first_byte key = Some x01 ->
  term.cc (term.input_settings K rev t) (unix.VEOF K) = x01
  /\ fst (term.GetBytes K G rev echo limit w) = Returns ([], Some io_EOF).
Proof.
  intros He Ht Hl Hat Hp Hk.
  assert (Hcc : term.cc (term.input_settings K rev t) (unix.VEOF K) = x01).
  { unfold term.cc, term.input_settings. rewrite He.
    destruct rev; cbn [unix.Cc]; rewrite nth_insert_ne by congruence;
      now apply nth_insert_eq. }
  split; [exact Hcc|].
  destruct (GetBytes_in_read_loop K G rev echo limit w t Hat) as (w0 & _ & ->).
  rewrite Hp, (read_loop_eof K G rev echo limit _ key rest [] w0); [reflexivity|].
  now rewrite Hcc.
Qed.
End SharedSlot.

(** X7, witness. With the constants of solaris: ^A on an empty line is end-of-input,
    although the terminal has ^D for it. *)
Lemma shared_slot_moves_end_of_input_witness :
  term.cc cooked (unix.VEOF unix.solaris) = ctrl_D
  /\ term.cc (term.input_settings unix.solaris term.Unixoid cooked) (unix.VEOF unix.solaris)
     = x01
  /\ fst (term.GetBytes unix.solaris unicode.GraphicRanges_rows term.Unixoid term.EchoNormal 0
            (session [] [Read1 x01; enter]))
     = Returns ([], Some io_EOF).
Proof.
  split; [reflexivity|].
  apply (shared_slot_moves_end_of_input unix.solaris unicode.GraphicRanges_rows term.Unixoid
           term.EchoNormal 0 (session [] [Read1 x01; enter]) cooked (Read1 x01) [enter]);
    try reflexivity.
  - discriminate.
  - cbn. lia.
  - eexists. split; reflexivity.
Defined.

(** ** [GetChar] *)

Section OneCharacter.
Variable K : unix.Consts.
Variable G : rune -> bool.
Variable rev : term.Revision.
Variable echo : bool.

Local Abbreviation mode := (if echo then term.EchoNormal else term.EchoNone).

(** X8. [GetChar] returns the character of the first key as soon as it is
    typed, without waiting for the line terminator: the reads after the
    key stay pending.  The key is displayed when [echo] is set, and
    nothing is displayed otherwise. *)
Theorem GetChar_returns_the_key w t key rest r :
  enters_read_loop w t ->
  pending w = key :: rest ->
  graphic_key G (control_bytes K (term.input_settings K rev t)) key = true ->
  one_rune (bytes_read key) = Some r ->
  exists w',
    term.GetChar K G rev echo w = (Returns (r, None), w')
    /\ pending w' = rest
    /\ display w' = display w ++ (if echo then bytes_read key else []).
Proof.
  intros Hat Hp Hk Hr. unfold term.GetChar.
  destruct (GetBytes_in_read_loop K G rev mode 1 w t Hat) as (w0 & Hd & E).
  rewrite Hp in E. change (key :: rest) with ([] ++ key :: rest) in E.
  rewrite (read_loop_limit K G rev mode 1 _ [] key rest w0 (Forall_nil_2 _) Hk) in E
    by (reflexivity || lia).
  rewrite (bind_returns _ _ _ _ _ E). cbn [fst snd map concat app].
  rewrite app_nil_r.
  assert ((len (bytes_read key) =? 0) = false) as ->.
  { apply Z.eqb_neq. pose proof (one_rune_length _ _ Hr). unfold len. lia. }
  pose proof (one_rune_decode _ _ Hr) as Hdec.
  destruct (utf8.DecodeRune (bytes_read key)) as [c sz]. cbn [fst] in Hdec. subst c.
  unfold ret. eexists. split; [reflexivity|].
  rewrite (proj2 (IoctlSetTermios_frame _ _ _)), (proj1 (IoctlSetTermios_frame _ _ _)).
  cbn [pending display set_pending set_display]. split; [reflexivity|].
  rewrite Hd. f_equal. unfold echo_of. destruct echo; cbn; now rewrite ?app_nil_r.
Qed.


(** An error of the read comes back with the rune 0. *)
Lemma GetChar_read_failure w t e rest :
  enters_read_loop w t ->
  pending w = ReadFails e :: rest ->
  fst (term.GetChar K G rev echo w) = Returns (0, Some e).
Proof.
  intros Hat Hp. unfold term.GetChar.
  destruct (GetBytes_in_read_loop K G rev mode 1 w t Hat) as (w0 & Hd & E).
  rewrite Hp in E. cbn [term.read_loop os.read_into] in E.
  now rewrite (bind_returns _ _ _ _ _ E).
Qed.
End OneCharacter.

(** X8, witness. The key of the three-byte character U+4E2D, typed before "z". *)
Lemma GetChar_returns_the_key_witness :
  exists w',
    term.GetChar unix.linux unicode.GraphicRanges_rows term.Unixoid true
      (session [] [key_zhong; Read1 "z"%byte])
    = (Returns (0x4E2D, None), w')
    /\ pending w' = [Read1 "z"%byte]
    /\ display w' = [] ++ [xe4; xb8; xad].
Proof.
  apply (GetChar_returns_the_key unix.linux unicode.GraphicRanges_rows term.Unixoid true
           _ cooked key_zhong [Read1 "z"%byte] 0x4E2D (session_enters_read_loop _));
    reflexivity.
Defined.


(** ** [bytes.Runes] and [GetRunes] *)

Lemma ltb_len_false {A} k (l : list A) :
  k <= Z.of_nat (length l) -> (len l <? k) = false.
Proof. intros H. unfold len. apply Z.ltb_ge; lia. Qed.

(** [DecodeRune] reads a complete encoding off the front of a slice,
    whatever follows it. *)
Lemma DecodeRune_one_rune u r s :
  one_rune u = Some r -> DecodeRune (u ++ s) = (r, len u).
Proof.
  intros V. pose proof (one_rune_length u r V) as L.
  destruct u as [|b0 [|b1 [|b2 [|b3 [|b4 u]]]]]; cbn [length] in L; try lia; clear L.
  all: match goal with |- ?g => set (Goal := g) end.
  all: revert V; unfold one_rune, DecodeRune; list_ops.
  all: first_byte_cases b0; use_first; unfold RuneError, locb, hicb, RuneSelf in *; calc.
  all: rewrite ?Z.ldiff_0_r, ?Z.lor_0_r, ?Z.ldiff_m1_r; calc.
  all: try discriminate.
  all: split_ifs; try discriminate; intros E; subst Goal.
  all: injection E as <-.
  all: cbn [app]; unfold DecodeRune.
  all: rewrite ltb_len_false by (cbn [length]; lia).
  all: rewrite ?idx_0, ?idx_1, ?idx_2, ?idx_3.
  all: unfold RuneError, locb, hicb, RuneSelf in *; use_first; calc.
  all: rewrite ?Z.ldiff_0_r, ?Z.lor_0_r, ?Z.ldiff_m1_r; calc.
  all: try reflexivity.
  all: rewrite ltb_len_false by (cbn [length]; lia).
  all: use_conditions; calc; try reflexivity.
Qed.

Lemma DecodeRune_width_pos p : p <> [] -> 1 <= snd (DecodeRune p).
Proof.
  intros Hp. unfold DecodeRune. rewrite ltb_len_false.
  - split_ifs; cbn [snd]; lia.
  - destruct p; [congruence|cbn [length]; lia].
Qed.

(** Any number of turns that is at least the length of the slice gives
    the same runes. *)
Lemma Runes_loop_fuel f1 : forall f2 s,
  (length s <= f1)%nat -> (length s <= f2)%nat ->
  bytes.Runes_loop f1 s = bytes.Runes_loop f2 s.
Proof.
  induction f1 as [|f1 IH]; intros f2 s H1 H2.
  - destruct s; [|cbn [length] in H1; lia]. now destruct f2.
  - destruct s as [|c tl]; [now destruct f2|].
    destruct f2 as [|f2]; [cbn [length] in H2; lia|].
    cbn [bytes.Runes_loop].
    destruct (len (c :: tl) >? 0); [|reflexivity].
    pose proof (DecodeRune_width_pos (c :: tl) ltac:(discriminate)) as Hw.
    destruct (DecodeRune (c :: tl)) as [r l]. cbn [snd] in Hw. f_equal.
    pose proof (length_slice_from (c :: tl) l Hw ltac:(discriminate)).
    cbn [length] in *. apply IH; lia.
Qed.

Lemma Runes_one_rune u r s :
  one_rune u = Some r -> bytes.Runes (u ++ s) = r :: bytes.Runes s.
Proof.
  intros V. pose proof (one_rune_length u r V) as L.
  unfold bytes.Runes. destruct (length (u ++ s)) as [|f] eqn:E.
  { rewrite length_app in E. lia. }
  cbn [bytes.Runes_loop].
  assert ((len (u ++ s) >? 0) = true) as ->.
  { apply Z.gtb_lt. unfold len. lia. }
  rewrite (DecodeRune_one_rune u r s V), slice_from_app_len. f_equal.
  apply Runes_loop_fuel; [|lia]. rewrite length_app in E. lia.
Qed.

(** [bytes.Runes] on a sequence of complete encodings gives their runes,
    one for each. *)
Lemma Runes_concat us rs :
  Forall2 (fun u r => one_rune u = Some r) us rs -> bytes.Runes (concat us) = rs.
Proof.
  induction 1 as [|u r us rs Hu _ IH]; [reflexivity|].
  cbn [concat]. now rewrite (Runes_one_rune u r _ Hu), IH.
Qed.

Section Lines.
Variable K : unix.Consts.
Variable G : rune -> bool.
Variables (rev : term.Revision) (echo : term.EchoMode) (limit : Z).

(** A line of graphic keys: what [GetBytes] returns, what it displays and
    which reads it leaves pending. *)
Lemma GetBytes_graphic_line w t units nl rest :
  enters_read_loop w t ->
  pending w = units ++ nl :: rest ->
  Forall (fun k => graphic_key G (control_bytes K (term.input_settings K rev t)) k = true)
    units ->
  first_byte nl = Some term.linefeed ->
  limit = 0 \/ len units <= limit ->
  exists err w',
    term.GetBytes K G rev echo limit w
      = (Returns (concat (map bytes_read units), err), w')
    /\ display w' = display w ++ echo_of echo units
    /\ pending w' = (if (0 <? limit) && (len units =? limit) then nl :: rest else rest)
    /\ (term.cc (term.input_settings K rev t) (unix.VEOF K) <> term.linefeed -> err = None).
Proof.
  intros Hat Hp Hu Hnl Hl.
  destruct (GetBytes_in_read_loop K G rev echo limit w t Hat) as (w0 & Hd & ->).
  rewrite Hp.
  destruct (Z_lt_ge_dec 0 limit) as [Hpos|Hneg];
    [destruct (Z.eq_dec (len units) limit) as [Heq|Hne]|].
  - (* the last key reaches the limit *)
    rewrite (proj2 (Z.ltb_lt _ _) Hpos), (proj2 (Z.eqb_eq _ _) Heq). cbn [andb].
    destruct units as [|k0 us _] using rev_ind; [unfold len in Heq; cbn in Heq; lia|].
    apply Forall_app in Hu as [Hus Hk]. apply Forall_cons in Hk as [Hk _].
    rewrite <- app_assoc. cbn [app].
    rewrite (read_loop_limit K G rev echo limit (term.input_settings K rev t)
               us k0 (nl :: rest) _ Hus Hk Hpos).
    2:{ unfold len in *. rewrite length_app in Heq. cbn [length] in Heq. lia. }
    eexists _, _. split; [reflexivity|].
    rewrite (proj1 (IoctlSetTermios_frame _ _ _)), (proj2 (IoctlSetTermios_frame _ _ _)).
    cbn [display pending set_pending set_display].
    rewrite Hd. now repeat split.
  - (* the terminator is read *)
    rewrite (proj2 (Z.eqb_neq _ _) Hne), andb_false_r.
    rewrite (read_loop_feed K G rev echo limit (term.input_settings K rev t)
               units [] _ _ _ (nl :: rest)
               (feed_graphic K G rev echo limit (term.input_settings K rev t)
                  units [] _ (Forall_nil_2 _) Hu
                  ltac:(right; change (len (@nil ReadResult)) with 0; destruct Hl; lia))).
    match goal with |- context [term.read_loop _ _ _ _ _ _ (nl :: rest) ?r ?ww] =>
      destruct (read_loop_linefeed K G rev echo limit (term.input_settings K rev t)
                  nl rest r ww Hnl) as (err & -> & He) end.
    exists err. eexists. split; [reflexivity|].
    rewrite (proj1 (IoctlSetTermios_frame _ _ _)), (proj2 (IoctlSetTermios_frame _ _ _)).
    cbn [display pending set_pending set_display].
    rewrite Hd. repeat split. intros Hv. apply He. now left.
  - rewrite (proj2 (Z.ltb_ge _ _)) by lia. cbn [andb].
    rewrite (read_loop_feed K G rev echo limit (term.input_settings K rev t)
               units [] _ _ _ (nl :: rest)
               (feed_graphic K G rev echo limit (term.input_settings K rev t)
                  units [] _ (Forall_nil_2 _) Hu ltac:(left; lia))).
    match goal with |- context [term.read_loop _ _ _ _ _ _ (nl :: rest) ?r ?ww] =>
      destruct (read_loop_linefeed K G rev echo limit (term.input_settings K rev t)
                  nl rest r ww Hnl) as (err & -> & He) end.
    exists err. eexists. split; [reflexivity|].
    rewrite (proj1 (IoctlSetTermios_frame _ _ _)), (proj2 (IoctlSetTermios_frame _ _ _)).
    cbn [display pending set_pending set_display].
    rewrite Hd. repeat split. intros Hv. apply He. now left.
Qed.
End Lines.

Section Runes.
Variable K : unix.Consts.
Variable G : rune -> bool.
Variables (echo : term.EchoMode) (limit : Z).

(** X10. [GetRunes] returns one rune for each graphic key of the line, in the
    order of typing, whatever the number of bytes of each. *)
Theorem GetRunes_returns_the_runes w t units runes nl rest :
  enters_read_loop w t ->
  pending w = units ++ nl :: rest ->
  Forall2 (fun k r =>
             graphic_key G (control_bytes K (term.input_settings K term.LinuxOnly t)) k = true
             /\ one_rune (bytes_read k) = Some r) units runes ->
  first_byte nl = Some term.linefeed ->
  term.cc (term.input_settings K term.LinuxOnly t) (unix.VEOF K) <> term.linefeed ->
  limit = 0 \/ len units <= limit ->
  fst (term.GetRunes K G echo limit w) = Returns (runes, None).
Proof.
  intros Hat Hp Hu Hnl Hv Hl.
  assert (Hg : Forall (fun k => graphic_key G
                 (control_bytes K (term.input_settings K term.LinuxOnly t)) k = true) units).
  { clear -Hu. induction Hu as [|? ? ? ? [? _]]; constructor; auto. }
  assert (Hr : Forall2 (fun u r => one_rune u = Some r) (map bytes_read units) runes).
  { clear -Hu. induction Hu as [|? ? ? ? [_ ?]]; cbn [map]; constructor; auto. }
  destruct (GetBytes_graphic_line K G term.LinuxOnly echo limit w t units nl rest
              Hat Hp Hg Hnl Hl) as (err & w' & E & _ & _ & He).
  unfold term.GetRunes. rewrite (bind_returns _ _ _ _ _ E). cbn [fst snd ret].
  unfold ret. cbn [fst]. now rewrite (Runes_concat _ _ Hr), (He Hv).
Qed.
End Runes.

(** X10, witness. Four keys of one to four bytes give four runes. *)
Lemma GetRunes_returns_the_runes_witness :
  fst (term.GetRunes unix.linux unicode.GraphicRanges_rows term.EchoNormal 0
         (session [] [key_h; key_e_acute; key_zhong; key_grin; enter]))
  = Returns ([0x68; 0xE9; 0x4E2D; 0x1F600], None).
Proof.
  apply (GetRunes_returns_the_runes unix.linux unicode.GraphicRanges_rows term.EchoNormal 0
           _ cooked [key_h; key_e_acute; key_zhong; key_grin] _ enter []
           (session_enters_read_loop _) eq_refl).
  - repeat (constructor; [split; reflexivity|]). constructor.
  - reflexivity.
  - discriminate.
  - now left.
Defined.

(** ** [GetLine] and [GetPassword] *)

Section WholeLines.
Variable K : unix.Consts.
Variable G : rune -> bool.
Variable rev : term.Revision.

(** X11. [GetLine] returns the characters typed before the line terminator,
    consumes the terminator, and leaves on the display what was typed,
    followed by a line feed. *)
Theorem GetLine_returns_the_line w t units nl rest :
  enters_read_loop w t ->
  pending w = units ++ nl :: rest ->
  Forall (fun k => graphic_key G (control_bytes K (term.input_settings K rev t)) k = true)
    units ->
  first_byte nl = Some term.linefeed ->
  term.cc (term.input_settings K rev t) (unix.VEOF K) <> term.linefeed ->
  exists w',
    term.GetLine K G rev w = (Returns (concat (map bytes_read units), None), w')
    /\ display w' = display w ++ concat (map bytes_read units) ++ [term.linefeed]
    /\ pending w' = rest.
Proof.
  intros Hat Hp Hu Hnl Hv.
  destruct (GetBytes_graphic_line K G rev term.EchoNormal 0 w t units nl rest
              Hat Hp Hu Hnl (or_introl eq_refl)) as (err & w' & E & Hd & Hq & He).
  unfold term.GetLine. rewrite (bind_returns _ _ _ _ _ E).
  unfold bind, os.Stdout_Write, ret. rewrite (He Hv).
  eexists. split; [reflexivity|]. cbn [display pending set_display].
  split; [|exact Hq]. rewrite Hd. unfold echo_of.
  change (term.EchoNormal =? term.EchoNormal) with true. cbv iota.
  now rewrite <- app_assoc.
Qed.

(** X12. [GetPassword] returns the characters typed and displays one [*] for
    each of them, whatever its length in bytes, followed by a line feed:
    no byte of the password reaches the display. *)
Theorem GetPassword_shows_stars w t units nl rest :
  enters_read_loop w t ->
  pending w = units ++ nl :: rest ->
  Forall (fun k => graphic_key G (control_bytes K (term.input_settings K rev t)) k = true)
    units ->
  first_byte nl = Some term.linefeed ->
  term.cc (term.input_settings K rev t) (unix.VEOF K) <> term.linefeed ->
  exists w',
    term.GetPassword K G rev w = (Returns (concat (map bytes_read units), None), w')
    /\ display w' = display w ++ repeat term.maskChar (length units) ++ [term.linefeed]
    /\ pending w' = rest.
Proof.
  intros Hat Hp Hu Hnl Hv.
  destruct (GetBytes_graphic_line K G rev term.EchoMask 0 w t units nl rest
              Hat Hp Hu Hnl (or_introl eq_refl)) as (err & w' & E & Hd & Hq & He).
  unfold term.GetPassword. rewrite (bind_returns _ _ _ _ _ E).
  unfold bind, os.Stdout_Write, ret. rewrite (He Hv).
  eexists. split; [reflexivity|]. cbn [display pending set_display].
  split; [|exact Hq]. rewrite Hd. unfold echo_of.
  change (term.EchoMask =? term.EchoNormal) with false.
  change (term.EchoMask =? term.EchoMask) with true. cbv iota.
  now rewrite <- app_assoc.
Qed.
End WholeLines.

(** X11, witness. The line of h and e with acute accent, and the key typed after it. *)
Lemma GetLine_returns_the_line_witness :
  exists w',
    term.GetLine unix.linux unicode.GraphicRanges_rows term.Unixoid
      (session [] [key_h; key_e_acute; enter; Read1 "z"%byte])
    = (Returns ([x68; xc3; xa9], None), w')
    /\ display w' = [] ++ [x68; xc3; xa9] ++ [x0a]
    /\ pending w' = [Read1 "z"%byte].
Proof.
  apply (GetLine_returns_the_line unix.linux unicode.GraphicRanges_rows term.Unixoid
           _ cooked [key_h; key_e_acute] enter [Read1 "z"%byte]
           (session_enters_read_loop _) eq_refl).
  - repeat (constructor; [reflexivity|]). constructor.
  - reflexivity.
  - discriminate.
Defined.

(** X12, witness. A password of two characters in five bytes: two stars. *)
Lemma GetPassword_shows_stars_witness :
  exists w',
    term.GetPassword unix.linux unicode.GraphicRanges_rows term.LinuxOnly
      (session [] [key_zhong; key_e_acute; enter])
    = (Returns ([xe4; xb8; xad; xc3; xa9], None), w')
    /\ display w' = [] ++ bytes_of "**" ++ [x0a]
    /\ pending w' = [].
Proof.
  apply (GetPassword_shows_stars unix.linux unicode.GraphicRanges_rows term.LinuxOnly
           _ cooked [key_zhong; key_e_acute] enter []
           (session_enters_read_loop _) eq_refl).
  - repeat (constructor; [reflexivity|]). constructor.
  - reflexivity.
  - discriminate.
Defined.

(** ** [MakeRaw] *)

Lemma ldiff_ldiff a m : Z.ldiff (Z.ldiff a m) m = Z.ldiff a m.
Proof.
  apply Z.bits_inj'. intros n Hn. rewrite !Z.ldiff_spec.
  now destruct (Z.testbit a n), (Z.testbit m n).
Qed.

Lemma lor_ldiff_again c m v :
  Z.lor (Z.ldiff (Z.lor (Z.ldiff c m) v) m) v = Z.lor (Z.ldiff c m) v.
Proof.
  apply Z.bits_inj'. intros n Hn. rewrite !Z.lor_spec, !Z.ldiff_spec, !Z.lor_spec, !Z.ldiff_spec.
  now destruct (Z.testbit c n), (Z.testbit m n), (Z.testbit v n).
Qed.

(** A flag that is among those cleared is off afterwards. *)
Lemma land_ldiff_off a m e : Z.land e m = e -> Z.land (Z.ldiff a m) e = 0.
Proof.
  intros H. apply Z.bits_inj'. intros n Hn.
  rewrite Z.land_spec, Z.ldiff_spec, Z.bits_0.
  assert (He : Z.testbit e n = Z.testbit e n && Z.testbit m n)
    by now rewrite <- Z.land_spec, H.
  destruct (Z.testbit e n), (Z.testbit m n), (Z.testbit a n); cbn in *; congruence.
Qed.

Lemma land_lor_l e m : Z.land e (Z.lor e m) = e.
Proof.
  apply Z.bits_inj'. intros n Hn. rewrite Z.land_spec, Z.lor_spec.
  now destruct (Z.testbit e n), (Z.testbit m n).
Qed.

Lemma land_lor_r e m x : Z.land e m = e -> Z.land e (Z.lor m x) = e.
Proof.
  intros H. apply Z.bits_inj'. intros n Hn. rewrite Z.land_spec, Z.lor_spec.
  assert (He : Z.testbit e n = Z.testbit e n && Z.testbit m n)
    by now rewrite <- Z.land_spec, H.
  destruct (Z.testbit e n), (Z.testbit m n), (Z.testbit x n); cbn in *; congruence.
Qed.

Lemma land_lor_new e x : Z.land e (Z.lor x e) = e.
Proof. now rewrite Z.lor_comm, land_lor_l. Qed.

(** X13. The raw settings, whatever the values of the platform's flag bits:
    echo, canonical mode, signals and output processing are off, the
    character size is CS8, and making raw settings raw changes nothing. *)
Theorem raw_settings_are_raw : forall K t,
  let r := term.raw_settings K t in
  Z.land (unix.Lflag r) (unix.ECHO K) = 0
  /\ Z.land (unix.Lflag r) (unix.ICANON K) = 0
  /\ Z.land (unix.Lflag r) (unix.ISIG K) = 0
  /\ Z.land (unix.Iflag r) (unix.ICRNL K) = 0
  /\ Z.land (unix.Iflag r) (unix.IXON K) = 0
  /\ Z.land (unix.Oflag r) (unix.OPOST K) = 0
  /\ Z.land (unix.Cflag r) (unix.CS8 K) = unix.CS8 K
  /\ unix.Cc r = unix.Cc t
  /\ term.raw_settings K r = r.
Proof.
  intros K t r. subst r. unfold term.raw_settings.
  cbn [unix.Iflag unix.Oflag unix.Cflag unix.Lflag unix.Cc unix.Line unix.Ispeed unix.Ospeed].
  repeat split.
  - apply land_ldiff_off. do 3 apply land_lor_r. apply land_lor_l.
  - apply land_ldiff_off. do 2 apply land_lor_r. apply land_lor_new.
  - apply land_ldiff_off. apply land_lor_r. apply land_lor_new.
  - apply land_ldiff_off. apply land_lor_r. apply land_lor_new.
  - apply land_ldiff_off. apply land_lor_new.
  - apply land_ldiff_off. apply Z.land_diag.
  - rewrite Z.land_comm. apply land_lor_new.
  - now rewrite !ldiff_ldiff, lor_ldiff_again.
Qed.

Section RawMode.
Variable K : unix.Consts.

(** X14. [MakeRaw] always returns, with a restore function and no error or with
    an error and no function; when it returns an error, the settings of
    every descriptor are as before. *)
Theorem MakeRaw_returns_function_or_error : forall fd w,
  exists r e w',
    term.MakeRaw K fd w = (Returns (r, e), w')
    /\ (is_Some r <-> e = None)
    /\ (e <> None -> files w' = files w).
Proof.
  intros fd w. unfold term.MakeRaw.
  rewrite (bind_returns _ _ _ _ _ (IoctlGetTermios_run _ _)).
  destruct (hd None (faults w)) as [e0|].
  { eexists None, (Some e0), _. split; [reflexivity|]. split; [|reflexivity].
    split; [intros [? [=]]|discriminate]. }
  destruct (files w !! fd) as [[t|]|] eqn:Hfd.
  2,3: eexists None, (Some _), _; (split; [reflexivity|]); (split; [|reflexivity]);
       (split; [intros [? [=]]|discriminate]).
  rewrite (bind_returns _ _ _ _ _ (IoctlSetTermios_run _ _ _)).
  cbn [files faults set_faults]. rewrite Hfd.
  destruct (hd None (tl (faults w))) as [e1|].
  - eexists None, (Some e1), _. split; [reflexivity|]. split; [|reflexivity].
    split; [intros [? [=]]|discriminate].
  - eexists (Some _), None, _. split; [reflexivity|]. split; [|congruence].
    split; [reflexivity|eauto].
Qed.

(** X15. When both ioctl calls are served, [MakeRaw] installs the raw settings,
    and the function that it returns puts the settings back that the
    terminal had when [MakeRaw] was called, on whatever world it is called
    later: after it the descriptor table of a world that differs from the
    first in the settings of [fd] only is the first one again. *)
Theorem MakeRaw_then_restore fd w t :
  files w !! fd = Some (Terminal t) ->
  hd None (faults w) = None ->
  hd None (tl (faults w)) = None ->
  exists restore w1,
    term.MakeRaw K fd w = (Returns (Some restore, None), w1)
    /\ settings w1 fd = Some (term.raw_settings K t)
    /\ forall w2 t2,
         files w2 = <[fd := Terminal t2]> (files w) ->
         hd None (faults w2) = None ->
         fst (restore w2) = Returns None
         /\ files (snd (restore w2)) = files w.
Proof.
  intros Hfd H0 H1. unfold term.MakeRaw.
  rewrite (bind_returns _ _ _ _ _ (IoctlGetTermios_run _ _)), H0, Hfd.
  rewrite (bind_returns _ _ _ _ _ (IoctlSetTermios_run _ _ _)).
  cbn [files faults set_faults]. rewrite Hfd, H1.
  eexists _, _. split; [reflexivity|]. split.
  - unfold settings. cbn [files set_files]. now rewrite lookup_insert_eq.
  - intros w2 t2 Hw2 Hf2. rewrite IoctlSetTermios_run, Hf2, Hw2, lookup_insert_eq.
    cbn [fst snd files set_files]. split; [reflexivity|].
    rewrite insert_insert_eq. now apply insert_id.
Qed.
End RawMode.

(** X15, witness. On the terminal of the examples. *)
Lemma MakeRaw_then_restore_witness :
  exists restore w1,
    term.MakeRaw unix.linux os.Stdout_Fd (session [] [])
    = (Returns (Some restore, None), w1)
    /\ settings w1 os.Stdout_Fd = Some (term.raw_settings unix.linux cooked)
    /\ forall w2 t2,
         files w2 = <[os.Stdout_Fd := Terminal t2]> (files (session [] [])) ->
         hd None (faults w2) = None ->
         fst (restore w2) = Returns None
         /\ files (snd (restore w2)) = files (session [] []).
Proof.
  apply (MakeRaw_then_restore unix.linux os.Stdout_Fd (session [] []) cooked);
    reflexivity.
Defined.

(** ** [utf8.RuneCount] and bytes appended to a slice *)

(** The length of a list whose cells are all known. *)
Ltac closed_len :=
  repeat match goal with
    | |- context [len ?l] =>
        let v := eval cbv in (len l) in
        closed_num v; change (len l) with v
    end.

(** One turn of the counting loop on a slice and on the same slice
    followed by an ASCII byte and more: the turn passes over the same
    number of bytes, all of them bytes of the slice.  (An encoding that the
    slice cuts short is not completed by an ASCII byte.) *)
Lemma RuneCount_loop_step_app c tl a t :
  bz a < RuneSelf ->
  exists size, 1 <= size <= len (c :: tl) /\
    (forall f n, RuneCount_loop (S f) (c :: tl) n
                 = RuneCount_loop f (slice_from (c :: tl) size) (n + 1)) /\
    (forall f n, RuneCount_loop (S f) ((c :: tl) ++ a :: t) n
                 = RuneCount_loop f (slice_from ((c :: tl) ++ a :: t) size) (n + 1)).
Proof.
  intros Ha. unfold RuneSelf in Ha.
  assert (Hlen : 1 <= len (c :: tl)) by (unfold len; cbn [length]; lia).
  cbn [RuneCount_loop app]. rewrite !len_cons_pos.
  rewrite !idx_0.
  destruct (bz c <? RuneSelf) eqn:E1.
  { exists 1. split; [lia|]. split; reflexivity. }
  destruct (first (bz c) =? xx) eqn:E2.
  { exists 1. split; [lia|]. split; reflexivity. }
  apply Z.ltb_ge in E1. apply Z.eqb_neq in E2.
  destruct tl as [|c1 [|c2 [|c3 tl]]]; cbn [app].
  all: rewrite ?idx_1, ?idx_2, ?idx_3.
  all: first_byte_cases c; [unfold RuneSelf in *; lia | ..]; use_first;
    unfold xx in *; try congruence; unfold locb, hicb; calc.
  all: closed_len; calc.
  all: rewrite ?gtb_len_false by (cbn [length]; lia).
  all: repeat match goal with
         | Hx : bz ?x < 128 |- context [bz ?x <? ?k] =>
             rewrite (proj2 (Z.ltb_lt (bz x) k)) by lia
         end; cbn [orb].
  all: split_ifs.
  all: eexists; split; [|split; intros; reflexivity].
  all: unfold len; cbn [length]; lia.
Qed.

Lemma slice_from_app {A} (s x : list A) size :
  0 <= size <= len s -> slice_from (s ++ x) size = slice_from s size ++ x.
Proof.
  intros H. unfold slice_from, len in *. rewrite skipn_app.
  replace (Z.to_nat size - length s)%nat with 0%nat by lia. reflexivity.
Qed.

Lemma RuneCount_loop_app_ascii a t f : forall s n,
  bz a < RuneSelf -> (length s <= f)%nat ->
  RuneCount_loop (f + length (a :: t)) (s ++ a :: t) n
  = RuneCount_loop (length (a :: t)) (a :: t) (RuneCount_loop f s n).
Proof.
  induction f as [|f IH]; intros s n Ha Hf.
  - destruct s; [|cbn [length] in Hf; lia]. reflexivity.
  - destruct s as [|c tl].
    + rewrite RuneCount_loop_nil. cbn [app]. apply RuneCount_loop_fuel; lia.
    + destruct (RuneCount_loop_step_app c tl a t Ha) as (size & Hs & E1 & E2).
      rewrite E1. change (S f + length (a :: t))%nat with (S (f + length (a :: t))).
      rewrite E2, slice_from_app by lia. apply IH; [exact Ha|].
      pose proof (length_slice_from (c :: tl) size ltac:(lia) ltac:(discriminate)).
      cbn [length] in *. lia.
Qed.

(** The rune count of a slice followed by an ASCII byte and more is the
    sum of the two counts, whatever the slice holds. *)
Lemma RuneCount_app_ascii s a t :
  bz a < RuneSelf -> RuneCount (s ++ a :: t) = RuneCount s + RuneCount (a :: t).
Proof.
  intros Ha. unfold RuneCount. rewrite length_app.
  rewrite (RuneCount_loop_app_ascii a t (length s) s 0 Ha (Nat.le_refl _)).
  apply RuneCount_loop_acc.
Qed.

Lemma RuneCount_loop_ge f : forall s n, n <= RuneCount_loop f s n.
Proof.
  induction f as [|f IH]; intros s n; [cbn; lia|].
  destruct s as [|c tl]; [rewrite RuneCount_loop_nil; lia|].
  destruct (RuneCount_loop_step c tl) as (size & Hs & E).
  rewrite E. specialize (IH (slice_from (c :: tl) size) (n + 1)). lia.
Qed.

Lemma RuneCount_nonneg s : 0 <= RuneCount s.
Proof. apply RuneCount_loop_ge. Qed.

(** ** [center], [getMaxOptionWidth] and [getRowAndColCounts] *)

Lemma one_rune_space : one_rune [term.space] = Some 0x20.
Proof. reflexivity. Qed.

Lemma Repeat_space_cons n :
  0 < n -> strings.Repeat [term.space] n = term.space :: strings.Repeat [term.space] (n - 1).
Proof.
  intros H. unfold strings.Repeat.
  replace (Z.to_nat n) with (S (Z.to_nat (n - 1))) by lia. reflexivity.
Qed.

Lemma RuneCount_Repeat_space n t :
  0 <= n -> RuneCount (strings.Repeat [term.space] n ++ t) = n + RuneCount t.
Proof.
  intros H. unfold strings.Repeat. rewrite RuneCount_concat.
  - unfold len. rewrite repeat_length. lia.
  - apply List.Forall_forall. intros u Hu. apply repeat_spec in Hu. subst u.
    rewrite one_rune_space. eauto.
Qed.

(** X16. [center s w] has [w] runes when [s] has fewer, and is [s] otherwise;
    [s] stands in the middle, with as many spaces after it as before it or
    one more.  This holds for every [s], valid UTF-8 or not. *)
Theorem center_fills_the_width : forall s w,
  RuneCount (term.center s w) = Z.max w (RuneCount s)
  /\ exists l r,
       term.center s w = strings.Repeat [term.space] l ++ s ++ strings.Repeat [term.space] r
       /\ 0 <= l <= r /\ r <= l + 1
       /\ (w <= RuneCount s -> l = 0 /\ r = 0).
Proof.
  intros s w. unfold term.center.
  destruct (RuneCount s >=? w) eqn:E.
  - apply Z.geb_le in E. split; [lia|].
    exists 0, 0. cbn [strings.Repeat]. unfold strings.Repeat. cbn.
    rewrite app_nil_r. repeat split; lia.
  - rewrite Z.geb_leb in E. apply Z.leb_gt in E.
    set (d := w - RuneCount s).
    assert (Hd : 0 < d) by (unfold d; lia).
    assert (Hq : Z.quot d 2 = d / 2) by (apply Z.quot_div_nonneg; lia).
    assert (Hl : 0 <= d / 2 <= d - d / 2 /\ d - d / 2 <= d / 2 + 1 /\ 0 < d - d / 2).
    { pose proof (Z.div_mod d 2 ltac:(lia)). pose proof (Z.mod_pos_bound d 2 ltac:(lia)). lia. }
    rewrite Hq. split.
    + rewrite RuneCount_Repeat_space by lia.
      rewrite (Repeat_space_cons (d - d / 2)) by lia.
      rewrite RuneCount_app_ascii by (vm_compute; reflexivity).
      rewrite <- (Repeat_space_cons (d - d / 2)) by lia.
      rewrite <- (app_nil_r (strings.Repeat _ (d - d / 2))), RuneCount_Repeat_space by lia.
      rewrite RuneCount_nil. unfold d. lia.
    + exists (d / 2), (d - d / 2). split; [reflexivity|]. lia.
Qed.

Lemma maxInt_max x y : term.maxInt x y = Z.max x y.
Proof. unfold term.maxInt. destruct (x >? y) eqn:E; [apply Z.gtb_lt in E|rewrite Z.gtb_ltb in E; apply Z.ltb_ge in E]; lia. Qed.

Lemma fold_maxInt options : forall a,
  let m := fold_left (fun w s => term.maxInt w (RuneCount s)) options a in
  a <= m
  /\ Forall (fun s => RuneCount s <= m) options
  /\ (m = a \/ Exists (fun s => RuneCount s = m) options).
Proof.
  induction options as [|s options IH]; intros a; cbn [fold_left].
  - repeat split; [lia|constructor|now left].
  - destruct (IH (term.maxInt a (RuneCount s))) as (H1 & H2 & H3).
    set (m := fold_left _ options _) in *.
    pose proof (maxInt_max a (RuneCount s)) as Hm.
    repeat split.
    + lia.
    + constructor; [lia|exact H2].
    + destruct H3 as [H3|H3]; [|right; now apply Exists_cons_tl].
      destruct (Z.max_spec a (RuneCount s)) as [[_ E]|[_ E]].
      * right. constructor. lia.
      * left. lia.
Qed.

(** X17. [getMaxOptionWidth] is the largest rune count among the options: no
    option is wider, and some option is that wide unless there is none,
    in which case the width is 0. *)
Theorem getMaxOptionWidth_is_the_maximum : forall options,
  Forall (fun s => RuneCount s <= term.getMaxOptionWidth options) options
  /\ (options = [] -> term.getMaxOptionWidth options = 0)
  /\ (options <> [] ->
      Exists (fun s => RuneCount s = term.getMaxOptionWidth options) options).
Proof.
  intros options. unfold term.getMaxOptionWidth.
  destruct (fold_maxInt options 0) as (H1 & H2 & H3).
  split; [exact H2|]. split; [now intros ->|].
  intros Hne. destruct H3 as [H3|H3]; [|exact H3].
  destruct options as [|s options]; [congruence|].
  apply Forall_cons in H2 as [Hs H2].
  constructor. pose proof (RuneCount_nonneg s). lia.
Qed.

Section Layout.
Variables (optCnt columns height : Z) (withTitle : bool).

Local Abbreviation h := (if withTitle then 4 else 2).

(** X18. With a number of columns given, [getRowAndColCounts] returns it
    together with the least number of rows that hold all options; with
    [columns = 0] and room for at least one row of options under the title
    and above the prompt, it returns the rows that fit, at most one for
    each option, and the least number of columns that hold all options.
    In both cases the grid has a cell for every option and no row or
    column more than needed. *)
Theorem getRowAndColCounts_covers_the_options :
  0 < optCnt ->
  0 < columns \/ (columns = 0 /\ h < height) ->
  exists rowCnt colCnt,
    term.getRowAndColCounts optCnt columns height withTitle = Some (rowCnt, colCnt)
    /\ 0 < rowCnt /\ 0 < colCnt
    /\ optCnt <= rowCnt * colCnt
    /\ (0 < columns -> colCnt = columns /\ (rowCnt - 1) * colCnt < optCnt)
    /\ (columns = 0 -> rowCnt = Z.min (height - h) optCnt
                       /\ (colCnt - 1) * rowCnt < optCnt).
Proof.
  intros Hopt Hc. unfold term.getRowAndColCounts.
  destruct Hc as [Hc|[-> Hh]].
  - rewrite (proj2 (Z.eqb_neq columns 0)) by lia.
    rewrite Z.quot_div_nonneg, Z.rem_mod_nonneg by lia.
    pose proof (Z.div_mod optCnt columns ltac:(lia)) as Hdm.
    pose proof (Z.mod_pos_bound optCnt columns Hc) as Hm.
    assert (0 <= optCnt / columns) by (apply Z.div_pos; lia).
    destruct (optCnt mod columns =? 0) eqn:E; cbn [negb];
      [apply Z.eqb_eq in E|apply Z.eqb_neq in E];
      eexists _, _; (split; [reflexivity|]); repeat split; try nia.
    all: intros; nia.
  - change (0 =? 0) with true. cbv iota.
    set (rowCnt := if height - h >? optCnt then optCnt else height - h).
    assert (Hr : rowCnt = Z.min (height - h) optCnt).
    { subst rowCnt. destruct (height - h >? optCnt) eqn:E;
        [apply Z.gtb_lt in E|rewrite Z.gtb_ltb in E; apply Z.ltb_ge in E]; lia. }
    assert (Hpos : 0 < rowCnt) by lia.
    rewrite (proj2 (Z.eqb_neq rowCnt 0)) by lia.
    rewrite Z.quot_div_nonneg, Z.rem_mod_nonneg by lia.
    pose proof (Z.div_mod optCnt rowCnt ltac:(lia)) as Hdm.
    pose proof (Z.mod_pos_bound optCnt rowCnt Hpos) as Hm.
    assert (0 <= optCnt / rowCnt) by (apply Z.div_pos; lia).
    assert (1 <= optCnt / rowCnt).
    { apply Z.div_le_lower_bound; lia. }
    destruct (optCnt mod rowCnt =? 0) eqn:E; cbn [negb];
      [apply Z.eqb_eq in E|apply Z.eqb_neq in E];
      eexists _, _; (split; [reflexivity|]); repeat split; try lia; try nia.
    all: intros; try lia; nia.
Qed.

(** X19. [getRowAndColCounts] divides by zero exactly when the number of
    columns is left to the function ([columns = 0]) and either the
    terminal has just the rows of the title and the prompt, or there is
    room but no option.  On a terminal with fewer rows than that, it
    returns a negative number of rows, with which the loops of [Menu], when
    they are reached, have no turn and print no option. *)
Theorem getRowAndColCounts_panics_iff :
  0 <= optCnt ->
  (term.getRowAndColCounts optCnt columns height withTitle = None
   <-> columns = 0 /\ (height = h \/ (optCnt = 0 /\ h < height)))
  /\ (columns = 0 -> height < h ->
      exists colCnt,
        term.getRowAndColCounts optCnt columns height withTitle
        = Some (height - h, colCnt)
        /\ term.menu_cells (height - h) colCnt optCnt = []).
Proof.
  intros Hopt. unfold term.getRowAndColCounts. split.
  - destruct (columns =? 0) eqn:Ec; [apply Z.eqb_eq in Ec|apply Z.eqb_neq in Ec].
    + set (rowCnt := if height - h >? optCnt then optCnt else height - h).
      assert (Hr : rowCnt = Z.min (height - h) optCnt).
      { subst rowCnt. destruct (height - h >? optCnt) eqn:E;
          [apply Z.gtb_lt in E|rewrite Z.gtb_ltb in E; apply Z.ltb_ge in E]; lia. }
      destruct (rowCnt =? 0) eqn:E0; [apply Z.eqb_eq in E0|apply Z.eqb_neq in E0].
      * split; [intros _|reflexivity]. split; [exact Ec|]. lia.
      * split; [discriminate|]. intros [_ Hx]. lia.
    + split; [discriminate|]. intros [Hx _]. contradiction.
  - intros -> Hh. change (0 =? 0) with true. cbv iota.
    assert ((height - h >? optCnt) = false) as ->.
    { rewrite Z.gtb_ltb. apply Z.ltb_ge. lia. }
    rewrite (proj2 (Z.eqb_neq (height - h) 0)) by lia.
    eexists. split; [reflexivity|].
    unfold term.menu_cells. now replace (Z.to_nat (height - h)) with 0%nat by lia.
Qed.
End Layout.

(** X18, witness. Seven options in three columns need three rows; on a terminal of 24
    rows they fit into one column of seven rows. *)
Lemma getRowAndColCounts_covers_the_options_witness :
  exists rowCnt colCnt,
    term.getRowAndColCounts 7 3 24 true = Some (rowCnt, colCnt)
    /\ 0 < rowCnt /\ 0 < colCnt
    /\ 7 <= rowCnt * colCnt
    /\ (0 < 3 -> colCnt = 3 /\ (rowCnt - 1) * colCnt < 7)
    /\ (3 = 0 -> rowCnt = Z.min (24 - 4) 7 /\ (colCnt - 1) * rowCnt < 7).
Proof.
  apply (getRowAndColCounts_covers_the_options 7 3 24 true); [lia|left; lia].
Defined.

(** X19, witness. Five options without a title on a terminal of two rows:
    the division by zero.  Three options on a terminal of no rows: -2 rows
    and 0 columns, and no turn of the loops. *)
Lemma getRowAndColCounts_panics_iff_witness :
  term.getRowAndColCounts 5 0 2 false = None
  /\ exists colCnt,
       term.getRowAndColCounts 3 0 0 false = Some (-2, colCnt)
       /\ term.menu_cells (-2) colCnt 3 = [].
Proof.
  split.
  - apply (proj1 (getRowAndColCounts_panics_iff 5 0 2 false ltac:(lia))).
    split; [reflexivity|now left].
  - apply (proj2 (getRowAndColCounts_panics_iff 3 0 0 false ltac:(lia))); [reflexivity|lia].
Defined.

(** ** When [GetBytes] panics *)

Section NoPanic.
Variable K : unix.Consts.
Variable G : rune -> bool.
Variables (rev : term.Revision) (echo : term.EchoMode) (limit : Z).

(** The read loop does not panic. *)
Lemma read_loop_no_panic t script : forall result w msg,
  fst (term.read_loop K G rev echo limit t script result w) <> Panics msg.
Proof.
  induction script as [|k script IH]; intros result w msg; [discriminate|].
  cbn [term.read_loop].
  destruct (os.read_into k) as [[buf cnt] [e|]]; [discriminate|].
  destruct (dispatch_frame K G rev echo limit t buf cnt result) as (c & out & ->).
  destruct c as [result'|result' err']; [apply IH|discriminate].
Qed.

(** [checkIsTerminal] when the kernel serves every ioctl. *)
Lemma checkIsTerminal_served w :
  faults w = [] ->
  let bad := files w !! os.Stdin_Fd = Some NotATerminal
             \/ files w !! os.Stdout_Fd = Some NotATerminal in
  (bad -> term.checkIsTerminal w
          = (Panics "STDIN and STDOUT must be connected to a terminal", w))
  /\ (~ bad -> term.checkIsTerminal w = (Returns (), w)).
Proof.
  intros Hf. destruct w as [fs fl pd ds]. cbn [faults files] in *. subst fl.
  unfold term.checkIsTerminal, bind. rewrite IsTerminal_run.
  cbn [faults files set_faults hd tl].
  destruct (fs !! os.Stdin_Fd) as [[t0|]|] eqn:H0.
  1,3: rewrite IsTerminal_run; cbn [faults files set_faults hd tl];
       destruct (fs !! os.Stdout_Fd) as [[t1|]|] eqn:H1; cbn [negb];
       (split; [intros [?|?]; (congruence || reflexivity)
               | intros Hn; try reflexivity; exfalso; apply Hn; now right]).
  split; [reflexivity|]. intros Hn. exfalso. apply Hn. now left.
Qed.

(** X20. When the kernel serves every ioctl, [GetBytes] panics exactly when
    standard input or standard output is open on something that is not a
    terminal; it then panics with the message of [checkIsTerminal], before
    it has read, written or changed anything.  (A closed descriptor does
    not make it panic.) *)
Theorem GetBytes_panics_iff_not_a_terminal w :
  faults w = [] ->
  ((exists msg, fst (term.GetBytes K G rev echo limit w) = Panics msg)
   <-> (files w !! os.Stdin_Fd = Some NotATerminal
        \/ files w !! os.Stdout_Fd = Some NotATerminal))
  /\ (forall msg, fst (term.GetBytes K G rev echo limit w) = Panics msg ->
        msg = "STDIN and STDOUT must be connected to a terminal"%string
        /\ snd (term.GetBytes K G rev echo limit w) = w).
Proof.
  intros Hf. destruct (checkIsTerminal_served w Hf) as [Cp Cr].
  unfold term.GetBytes.
  assert (D : (files w !! os.Stdin_Fd = Some NotATerminal
               \/ files w !! os.Stdout_Fd = Some NotATerminal)
              \/ ~ (files w !! os.Stdin_Fd = Some NotATerminal
                    \/ files w !! os.Stdout_Fd = Some NotATerminal)).
  { destruct (files w !! os.Stdin_Fd) as [[|]|]; destruct (files w !! os.Stdout_Fd) as [[|]|];
      first [ left; (now left) || (now right) | right; intros [?|?]; congruence ]. }
  destruct D as [D|D].
  { rewrite (bind_panics _ _ _ _ _ (Cp D)). cbn [fst snd].
    split; [split; eauto|]. now intros msg [= <-]. }
  rewrite (bind_returns _ _ _ _ _ (Cr D)).
  assert (NP : forall msg,
            fst ((r <- sys.IoctlGetTermios os.Stdout_Fd;;
                  match r with
                  | inl termios =>
                      defer (sys.IoctlSetTermios os.Stdout_Fd termios)
                        (sys.IoctlSetTermios os.Stdout_Fd (term.input_settings K rev termios);;;
                         (fun w0 => term.read_loop K G rev echo limit
                                      (term.input_settings K rev termios) (pending w0) [] w0))
                  | inr err => ret ([], Some (Errno_error err))
                  end) w) <> Panics msg).
  { intros msg. rewrite (bind_returns _ _ _ _ _ (IoctlGetTermios_run _ _)).
    destruct (hd None (faults w)); [discriminate|].
    destruct (files w !! os.Stdout_Fd) as [[t1|]|]; try discriminate.
    unfold defer. rewrite (bind_returns _ _ _ _ _ (IoctlSetTermios_run _ _ _)).
    match goal with |- context [term.read_loop ?a ?b ?c ?d ?e ?f ?g ?h ?i] =>
      pose proof (read_loop_no_panic f g h i msg) as NP;
      destruct (term.read_loop a b c d e f g h i) as [[a0|m0|] w1] end;
      cbn [fst] in *; congruence. }
  split; [split|].
  - intros [msg Hm]. now apply NP in Hm.
  - intros Hx. contradiction.
  - intros msg Hm. now apply NP in Hm.
Qed.
End NoPanic.

(** X20, witness. Input piped from a file. *)
Lemma GetBytes_panics_iff_not_a_terminal_witness :
  let w := {| files := <[os.Stdin_Fd := NotATerminal]> (<[os.Stdout_Fd := Terminal cooked]> ∅);
              faults := []; pending := [key_h; enter]; display := [] |} in
  ((exists msg, fst (GetBytes_linux term.Unixoid term.EchoNormal 0 w) = Panics msg)
   <-> (files w !! os.Stdin_Fd = Some NotATerminal
        \/ files w !! os.Stdout_Fd = Some NotATerminal))
  /\ (forall msg, fst (GetBytes_linux term.Unixoid term.EchoNormal 0 w) = Panics msg ->
        msg = "STDIN and STDOUT must be connected to a terminal"%string
        /\ snd (GetBytes_linux term.Unixoid term.EchoNormal 0 w) = w).
Proof.
  intros w.
  apply (GetBytes_panics_iff_not_a_terminal unix.linux unicode.GraphicRanges_rows term.Unixoid
           term.EchoNormal 0 w).
  reflexivity.
Defined.

(** ** The grid of [Menu] *)

Lemma menu_row_spec R C N row :
  0 < R -> 0 <= row < R ->
  forall fuel col, 0 <= col -> (Z.to_nat (C - col) <= fuel)%nat ->
    (forall i, i ∈ term.menu_row fuel R C N row col
               <-> exists c, col <= c < C /\ i = c * R + row /\ i < N)
    /\ NoDup (term.menu_row fuel R C N row col).
Proof.
  intros HR Hrow. induction fuel as [|fuel IH]; intros col Hcol Hf.
  - cbn [term.menu_row]. split; [|constructor].
    intros i. split; [intros H; inversion H|]. intros (c & Hc & _). lia.
  - cbn [term.menu_row].
    destruct (col <? C) eqn:E; [apply Z.ltb_lt in E|apply Z.ltb_ge in E].
    2:{ split; [|constructor].
        intros i. split; [intros H; inversion H|]. intros (c & Hc & _). lia. }
    destruct (col * R + row >=? N) eqn:E2;
      [apply Z.geb_le in E2|rewrite Z.geb_leb in E2; apply Z.leb_gt in E2].
    { split; [|constructor].
      intros i. split; [intros H; inversion H|]. intros (c & Hc & -> & Hi). nia. }
    destruct (IH (col + 1) ltac:(lia) ltac:(lia)) as [IHm IHn].
    split.
    + intros i. rewrite elem_of_cons, IHm. split.
      * intros [->|(c & Hc & Hi)]; [exists col; lia|exists c; lia].
      * intros (c & Hc & -> & Hi).
        destruct (Z.eq_dec c col) as [->|Hne]; [now left|right].
        exists c. lia.
    + constructor; [|exact IHn].
      rewrite IHm. intros (c & Hc & Hi & _). nia.
Qed.

Lemma menu_rows_spec R C N :
  0 < R ->
  forall fuel row, 0 <= row -> (Z.to_nat (R - row) <= fuel)%nat ->
    (forall i, i ∈ concat (term.menu_rows fuel R C N row)
               <-> exists r c, row <= r < R /\ 0 <= c < C /\ i = c * R + r /\ i < N)
    /\ NoDup (concat (term.menu_rows fuel R C N row)).
Proof.
  intros HR. induction fuel as [|fuel IH]; intros row Hrow Hf.
  - cbn [term.menu_rows concat]. split; [|constructor].
    intros i. split; [intros H; inversion H|]. intros (r & c & Hr & _). lia.
  - cbn [term.menu_rows].
    destruct (row <? R) eqn:E; [apply Z.ltb_lt in E|apply Z.ltb_ge in E].
    2:{ cbn [concat]. split; [|constructor].
        intros i. split; [intros H; inversion H|]. intros (r & c & Hr & _). lia. }
    cbn [concat].
    destruct (menu_row_spec R C N row HR ltac:(lia) (Z.to_nat C) 0 ltac:(lia) ltac:(lia))
      as [Rm Rn].
    destruct (IH (row + 1) ltac:(lia) ltac:(lia)) as [IHm IHn].
    split.
    + intros i. rewrite elem_of_app, Rm, IHm. split.
      * intros [(c & Hc & Hi)|(r & c & Hr & Hc & Hi)];
          [exists row, c; lia|exists r, c; lia].
      * intros (r & c & Hr & Hc & Hi).
        destruct (Z.eq_dec r row) as [->|Hne]; [left; exists c; lia|right].
        exists r, c. lia.
    + apply NoDup_app. split; [exact Rn|]. split; [|exact IHn].
      intros i Hi1 Hi2. apply Rm in Hi1 as (c & Hc & -> & _).
      apply IHm in Hi2 as (r & c' & Hr & Hc' & Hi & _).
      assert (c = c' \/ c < c' \/ c' < c) as [->|[?|?]] by lia; nia.
Qed.

Lemma menu_rows_length R C N fuel : forall row,
  0 <= row -> Z.to_nat (R - row) = fuel ->
  length (term.menu_rows fuel R C N row) = fuel.
Proof.
  induction fuel as [|fuel IH]; intros row Hrow Hf; [reflexivity|].
  cbn [term.menu_rows]. rewrite (proj2 (Z.ltb_lt row R)) by lia.
  cbn [length]. f_equal. apply IH; lia.
Qed.

Lemma menu_rows_nonempty R C N fuel : forall row,
  0 <= row -> 0 < R -> 0 < C -> R <= N ->
  Forall (fun cells => cells <> []) (term.menu_rows fuel R C N row).
Proof.
  induction fuel as [|fuel IH]; intros row Hrow HR HC HN; [constructor|].
  cbn [term.menu_rows].
  destruct (row <? R) eqn:E; [apply Z.ltb_lt in E|constructor].
  constructor; [|apply IH; lia].
  destruct (Z.to_nat C) as [|f] eqn:Ef; [lia|]. cbn [term.menu_row].
  rewrite (proj2 (Z.ltb_lt 0 C)) by lia.
  assert ((0 * R + row >=? N) = false) as ->; [|discriminate].
  rewrite Z.geb_leb. apply Z.leb_gt. lia.
Qed.

(** The grid that [getRowAndColCounts] returns for a menu that has
    options and room. *)
Lemma getRowAndColCounts_grid optCnt columns height (withTitle : bool) :
  0 < optCnt ->
  0 < columns \/ (columns = 0 /\ (if withTitle then 4 else 2) < height) ->
  exists rowCnt colCnt,
    term.getRowAndColCounts optCnt columns height withTitle = Some (rowCnt, colCnt)
    /\ 0 < rowCnt /\ 0 < colCnt /\ optCnt <= rowCnt * colCnt /\ rowCnt <= optCnt.
Proof.
  intros Hopt Hc. unfold term.getRowAndColCounts.
  destruct Hc as [Hc|[-> Hh]].
  - rewrite (proj2 (Z.eqb_neq columns 0)) by lia.
    rewrite Z.quot_div_nonneg, Z.rem_mod_nonneg by lia.
    pose proof (Z.div_mod optCnt columns ltac:(lia)) as Hdm.
    pose proof (Z.mod_pos_bound optCnt columns Hc) as Hm.
    assert (0 <= optCnt / columns) by (apply Z.div_pos; lia).
    destruct (optCnt mod columns =? 0) eqn:E; cbn [negb];
      [apply Z.eqb_eq in E|apply Z.eqb_neq in E];
      eexists _, _; (split; [reflexivity|]); repeat split; nia.
  - change (0 =? 0) with true. cbv iota.
    set (rowCnt := if height - (if withTitle then 4 else 2) >? optCnt
                   then optCnt else height - (if withTitle then 4 else 2)).
    assert (Hr : rowCnt = Z.min (height - (if withTitle then 4 else 2)) optCnt).
    { subst rowCnt. destruct (_ >? optCnt) eqn:E;
        [apply Z.gtb_lt in E|rewrite Z.gtb_ltb in E; apply Z.ltb_ge in E]; lia. }
    assert (Hpos : 0 < rowCnt) by lia.
    rewrite (proj2 (Z.eqb_neq rowCnt 0)) by lia.
    rewrite Z.quot_div_nonneg, Z.rem_mod_nonneg by lia.
    pose proof (Z.div_mod optCnt rowCnt ltac:(lia)) as Hdm.
    pose proof (Z.mod_pos_bound optCnt rowCnt Hpos) as Hm.
    assert (1 <= optCnt / rowCnt) by (apply Z.div_le_lower_bound; lia).
    destruct (optCnt mod rowCnt =? 0) eqn:E; cbn [negb];
      [apply Z.eqb_eq in E|apply Z.eqb_neq in E];
      eexists _, _; (split; [reflexivity|]); repeat split; try lia; nia.
Qed.

(** X21. The loops of [Menu], run with the counts that
    [getRowAndColCounts] returns for a menu that has options and room,
    print every option exactly once: the indices printed, taken row by
    row, are a permutation of 0 .. optCnt-1; there are as many rows as
    [getRowAndColCounts] says, and none of them is empty. *)
Theorem Menu_shows_every_option_once optCnt columns height (withTitle : bool) :
  0 < optCnt ->
  0 < columns \/ (columns = 0 /\ (if withTitle then 4 else 2) < height) ->
  exists rowCnt colCnt,
    term.getRowAndColCounts optCnt columns height withTitle = Some (rowCnt, colCnt)
    /\ concat (term.menu_cells rowCnt colCnt optCnt) ≡ₚ seqZ 0 optCnt
    /\ len (term.menu_cells rowCnt colCnt optCnt) = rowCnt
    /\ Forall (fun cells => cells <> []) (term.menu_cells rowCnt colCnt optCnt).
Proof.
  intros Hopt Hc.
  destruct (getRowAndColCounts_grid optCnt columns height withTitle Hopt Hc)
    as (R & C & E & HR & HC & Hcover & Hle).
  exists R, C. split; [exact E|]. unfold term.menu_cells.
  destruct (menu_rows_spec R C optCnt HR (Z.to_nat R) 0 ltac:(lia) ltac:(lia)) as [Hm Hn].
  repeat split.
  - apply NoDup_Permutation; [exact Hn|apply NoDup_seqZ|].
    intros i. rewrite Hm, elem_of_seqZ. split.
    + intros (r & c & Hr & Hcc & -> & Hi). nia.
    + intros Hi. exists (i mod R), (i / R).
      pose proof (Z.mod_pos_bound i R HR). pose proof (Z.div_mod i R ltac:(lia)).
      assert (0 <= i / R) by (apply Z.div_pos; lia).
      assert (i / R < C) by (apply Z.div_lt_upper_bound; nia).
      repeat split; lia.
  - unfold len. rewrite (menu_rows_length R C optCnt (Z.to_nat R) 0); lia.
  - apply menu_rows_nonempty; lia.
Qed.

(** X21, witness. Seven options in three columns: the rows show the
    options 1 4 7, 2 5 and 3 6. *)
Lemma Menu_shows_every_option_once_witness :
  term.menu_cells 3 3 7 = [[0; 3; 6]; [1; 4]; [2; 5]]
  /\ exists rowCnt colCnt,
       term.getRowAndColCounts 7 3 24 true = Some (rowCnt, colCnt)
       /\ concat (term.menu_cells rowCnt colCnt 7) ≡ₚ seqZ 0 7
       /\ len (term.menu_cells rowCnt colCnt 7) = rowCnt
       /\ Forall (fun cells => cells <> []) (term.menu_cells rowCnt colCnt 7).
Proof.
  split; [reflexivity|].
  apply (Menu_shows_every_option_once 7 3 24 true); [lia|left; lia].
Defined.

(** X22. Whatever the counts, every index at which the loops of [Menu]
    read [options] is in range: [options[i]] does not panic. *)
Theorem Menu_indexes_in_range : forall rowCnt colCnt optCnt,
  Forall (Forall (fun i => 0 <= i < optCnt)) (term.menu_cells rowCnt colCnt optCnt).
Proof.
  intros R C N. unfold term.menu_cells.
  assert (Hrow : forall fuel row col, 0 <= row -> 0 <= col -> 0 <= R ->
            Forall (fun i => 0 <= i < N) (term.menu_row fuel R C N row col)).
  { induction fuel as [|fuel IH]; intros row col Hr Hc HR; [constructor|].
    cbn [term.menu_row]. destruct (col <? C); [|constructor].
    destruct (col * R + row >=? N) eqn:E; [constructor|].
    rewrite Z.geb_leb in E. apply Z.leb_gt in E.
    constructor; [nia|apply IH; lia]. }
  assert (Hrows : forall fuel row, 0 <= row ->
            Forall (Forall (fun i => 0 <= i < N)) (term.menu_rows fuel R C N row)).
  { induction fuel as [|fuel IH]; intros row Hr; [constructor|].
    cbn [term.menu_rows]. destruct (row <? R) eqn:E; [|constructor].
    apply Z.ltb_lt in E. constructor; [apply Hrow; lia|apply IH; lia]. }
  apply Hrows. lia.
Qed.

(** ** [Input] *)

Section TurnsOfInput.
Variable K : unix.Consts.
Variable G : rune -> bool.
Variables (rev : term.Revision) (echo : term.EchoMode) (limit : Z).

(** A read loop that returns has taken at least one read. *)
Lemma read_loop_consumes t script : forall result w a w',
  term.read_loop K G rev echo limit t script result w = (Returns a, w') ->
  (length (pending w') < length script)%nat.
Proof.
  induction script as [|k script IH]; intros result w a w'; [discriminate|].
  cbn [term.read_loop].
  destruct (os.read_into k) as [[buf cnt] [e|]].
  { intros [= _ <-]. cbn. lia. }
  destruct (dispatch_frame K G rev echo limit t buf cnt result) as (c & out & ->).
  destruct c as [result'|result' err'].
  - intros E. apply IH in E. cbn [length]. lia.
  - intros [= _ <-]. cbn. lia.
Qed.

(** When [GetBytes] returns without an error, it has taken at least one
    read. *)
Lemma GetBytes_consumes w b w' :
  term.GetBytes K G rev echo limit w = (Returns (b, None), w') ->
  (length (pending w') < length (pending w))%nat.
Proof.
  unfold term.GetBytes. intros E.
  destruct (checkIsTerminal_run w) as [(msg & fl & C)|C].
  { rewrite (bind_panics _ _ _ _ _ C) in E. discriminate. }
  rewrite (bind_returns _ _ _ _ _ C) in E.
  rewrite (bind_returns _ _ _ _ _ (IoctlGetTermios_run _ _)) in E.
  destruct (hd None (faults (set_faults (tl (tl (faults w))) w))); [discriminate|].
  destruct (files (set_faults (tl (tl (faults w))) w) !! os.Stdout_Fd) as [[t|]|];
    try discriminate.
  unfold defer in E.
  rewrite (bind_returns _ _ _ _ _ (IoctlSetTermios_run _ _ _)) in E.
  match type of E with context [term.read_loop ?a ?b ?c ?d ?e ?f ?g ?h ?i] =>
    pose proof (read_loop_consumes f g h i) as R;
    destruct (term.read_loop a b c d e f g h i) as [[a0|m0|] w1] eqn:L end;
    try discriminate.
  injection E as -> <-. specialize (R _ _ eq_refl).
  rewrite (proj2 (IoctlSetTermios_frame _ _ _)).
  revert R. clear.
  repeat match goal with |- context [match ?x with _ => _ end] => destruct x end;
    cbn [pending set_files set_faults]; lia.
Qed.
End TurnsOfInput.

Section InputLoop.
Variable K : unix.Consts.
Variable G : rune -> bool.
Variable Value : Type.
Variable Set_panics : Value -> option string.
Variable Sscan : list byte -> option Value * bool.
Variable rev : term.Revision.
Variable prompt : list byte.
Variable opt : term.InputOpt Value.

Local Abbreviation loop fuel := (term.Input_loop K G Value Set_panics Sscan fuel rev prompt opt).

(** The turns that [Input] allows are enough: any number of turns above
    the number of pending reads gives the same result. *)
Lemma Input_loop_fuel f1 : forall f2 cur w,
  (length (pending w) < f1)%nat -> (length (pending w) < f2)%nat ->
  loop f1 cur w = loop f2 cur w.
Proof.
  induction f1 as [|f1 IH]; intros f2 cur w H1 H2; [lia|].
  destruct f2 as [|f2]; [lia|].
  cbn [term.Input_loop]. unfold bind, os.Stdout_Write, term.resetPrompt.
  destruct (term.GetBytes K G rev (term.Echo Value opt) (term.Limit Value opt)
              (set_display (display w ++ prompt) w)) as [[[b err]|msg|] w1] eqn:E;
    try reflexivity.
  cbn [fst snd]. destruct err as [e|]; [reflexivity|].
  apply GetBytes_consumes in E. cbn [pending set_display] in E.
  assert (Hrec : forall c w2, pending w2 = pending w1 -> loop f1 c w2 = loop f2 c w2).
  { intros c w2 Hp. apply IH; rewrite Hp; lia. }
  destruct (len b =? 0).
  - destruct (term.Default Value opt); [reflexivity|now apply Hrec].
  - destruct (term.ConvFunc Value opt) as [f|].
    + destruct (f b); [reflexivity|now apply Hrec].
    + destruct (Sscan b) as [stored failed]. destruct failed; [now apply Hrec|reflexivity].
Qed.
End InputLoop.

Lemma at_terminal_enters w t : at_terminal w t -> enters_read_loop w t.
Proof.
  intros (Hf & (t0 & H0) & H1). exists w. split.
  - apply (checkIsTerminal_served w Hf). intros [?|?]; congruence.
  - rewrite IoctlGetTermios_run, Hf, H1. reflexivity.
Qed.

Lemma at_terminal_frame w t p d :
  at_terminal w t -> at_terminal (set_pending p (set_display d w)) t.
Proof. intros H. exact H. Qed.

(** Installing the settings that the terminal has changes nothing. *)
Lemma install_back w t t' p d :
  files w !! os.Stdout_Fd = Some (Terminal t) ->
  install t (set_pending p (set_display d (install t' w))) = set_pending p (set_display d w).
Proof.
  intros H. destruct w as [fs fl pd ds]. cbn [files] in H.
  unfold install, set_pending, set_display, set_files. cbn [files faults pending display].
  f_equal. rewrite insert_insert_eq. now apply insert_id.
Qed.

Section AtTerminal.
Variable K : unix.Consts.
Variable G : rune -> bool.
Variables (rev : term.Revision) (echo : term.EchoMode) (limit : Z).

(** [GetBytes] at a terminal that serves every ioctl: the read loop runs
    with the modified settings installed, and the old settings are put
    back when it returns. *)
Lemma GetBytes_at_terminal w t :
  at_terminal w t ->
  exists o p out,
    term.read_loop K G rev echo limit (term.input_settings K rev t) (pending w) []
      (install (term.input_settings K rev t) w)
    = (o, set_pending p (set_display (display w ++ out)
                           (install (term.input_settings K rev t) w)))
    /\ term.GetBytes K G rev echo limit w
       = (o, match o with
             | Blocks => set_pending p (set_display (display w ++ out)
                                          (install (term.input_settings K rev t) w))
             | _ => set_pending p (set_display (display w ++ out) w)
             end).
Proof.
  intros (Hf & (t0 & H0) & H1).
  destruct (read_loop_frame K G rev echo limit (term.input_settings K rev t) (pending w) []
              (install (term.input_settings K rev t) w)) as (o & p & out & R).
  exists o, p, out. split; [exact R|].
  unfold term.GetBytes.
  rewrite (bind_returns _ _ _ _ _
             (proj2 (checkIsTerminal_served w Hf) ltac:(intros [?|?]; congruence))).
  rewrite (bind_returns _ _ _ _ _ (IoctlGetTermios_run _ _)), Hf, H1. cbn [hd tl].
  unfold defer.
  rewrite (bind_returns _ _ _ _ _ (IoctlSetTermios_run _ _ _)).
  cbn [faults files set_faults hd tl]. rewrite H1.
  assert (Hw : set_files (<[os.Stdout_Fd:=Terminal (term.input_settings K rev t)]> (files w))
                 (set_faults [] (set_faults [] w))
               = install (term.input_settings K rev t) w).
  { destruct w. cbn in Hf. subst. reflexivity. }
  rewrite Hw.
  assert (Hp : pending (install (term.input_settings K rev t) w) = pending w) by reflexivity.
  rewrite Hp, R.
  assert (Hback : snd (sys.IoctlSetTermios os.Stdout_Fd t
                         (set_pending p (set_display (display w ++ out)
                            (install (term.input_settings K rev t) w))))
                  = set_pending p (set_display (display w ++ out) w)).
  { rewrite IoctlSetTermios_run. cbn [snd faults files set_pending set_display install set_files].
    rewrite Hf, lookup_insert_eq. cbn [hd].
    rewrite <- (install_back w t (term.input_settings K rev t) p (display w ++ out) H1).
    destruct w. cbn in Hf. subst. reflexivity. }
  destruct o; [f_equal; exact Hback|f_equal; exact Hback|reflexivity].
Qed.

(** A line of graphic keys at such a terminal: the world after
    [GetBytes] differs from the one before in the pending reads and the
    display only. *)
Lemma GetBytes_line_at_terminal w t units nl rest :
  at_terminal w t ->
  pending w = units ++ nl :: rest ->
  Forall (fun k => graphic_key G (control_bytes K (term.input_settings K rev t)) k = true)
    units ->
  first_byte nl = Some term.linefeed ->
  term.cc (term.input_settings K rev t) (unix.VEOF K) <> term.linefeed ->
  limit <= 0 \/ len units < limit ->
  term.GetBytes K G rev echo limit w
  = (Returns (concat (map bytes_read units), None),
     set_pending rest (set_display (display w ++ echo_of echo units) w)).
Proof.
  intros Hat Hp Hu Hnl Hv Hl.
  destruct (GetBytes_at_terminal w t Hat) as (o & p & out & R & ->).
  rewrite Hp in R.
  rewrite (read_loop_feed K G rev echo limit (term.input_settings K rev t)
             units [] _ _ _ (nl :: rest)
             (feed_graphic K G rev echo limit (term.input_settings K rev t)
                units [] _ (Forall_nil_2 _) Hu
                ltac:(destruct Hl; [left; lia|right; change (len (@nil ReadResult)) with 0; lia])))
    in R.
  destruct (read_loop_linefeed K G rev echo limit (term.input_settings K rev t) nl rest
              (concat (map bytes_read ([] ++ units)))
              (set_display (display (install (term.input_settings K rev t) w)
                            ++ echo_of echo units)
                 (install (term.input_settings K rev t) w)) Hnl) as (err & R' & He).
  rewrite R' in R. rewrite (He (or_introl Hv)) in R.
  injection R as <- Hpp Hdd. cbn [app]. f_equal.
  cbn [display install set_files] in Hdd. now rewrite <- Hpp, <- Hdd.
Qed.

(** The end-of-input byte and a failing read as the first thing read. *)
Lemma GetBytes_first_read_at_terminal w t k rest :
  at_terminal w t ->
  pending w = k :: rest ->
  (first_byte k = Some (term.cc (term.input_settings K rev t) (unix.VEOF K)) ->
   term.GetBytes K G rev echo limit w = (Returns ([], Some io_EOF), set_pending rest w))
  /\ (forall e, k = ReadFails e ->
      term.GetBytes K G rev echo limit w = (Returns ([], Some e), set_pending rest w)).
Proof.
  intros Hat Hp.
  destruct (GetBytes_at_terminal w t Hat) as (o & p & out & R & ->).
  rewrite Hp in R. split.
  - intros Hk.
    rewrite (read_loop_eof K G rev echo limit (term.input_settings K rev t) k rest [] _ Hk) in R.
    injection R as <- Hpp Hdd. f_equal.
    cbn [display install set_files] in Hdd. rewrite <- Hpp, <- Hdd. now destruct w.
  - intros e ->. cbn [term.read_loop os.read_into] in R.
    injection R as <- Hpp Hdd. f_equal.
    cbn [display install set_files] in Hdd. rewrite <- Hpp, <- Hdd. now destruct w.
Qed.
End AtTerminal.

Section InputAtTerminal.
Variable K : unix.Consts.
Variable G : rune -> bool.
Variable Value : Type.
Variable Set_panics : Value -> option string.
Variable Sscan : list byte -> option Value * bool.
Variable rev : term.Revision.
Variable prompt : list byte.
Variable opt : term.InputOpt Value.

Local Abbreviation loop fuel := (term.Input_loop K G Value Set_panics Sscan fuel rev prompt opt).
Local Abbreviation Input := (term.Input K G Value Set_panics Sscan rev prompt term.InPointer (Some opt)).
Local Abbreviation modified t := (term.input_settings K rev t).
Local Abbreviation reset :=
  [x1b; "["%byte; "A"%byte; x1b; "["%byte; "G"%byte; x1b; "["%byte; "K"%byte].

(** [Input] at a terminal is its loop. *)
Lemma Input_at_terminal w t :
  at_terminal w t ->
  Input w = match loop (S (length (pending w))) None w with
            | (Returns r, w') => (Returns (fst r, term.GetError <$> snd r), w')
            | (Panics msg, w') => (Panics msg, w')
            | (Blocks, w') => (Blocks, w')
            end.
Proof.
  intros (Hf & (t0 & H0) & H1). unfold term.Input.
  rewrite (bind_returns _ _ _ _ _
             (proj2 (checkIsTerminal_served w Hf) ltac:(intros [?|?]; congruence))).
  destruct rev; unfold bind, ret;
    now destruct (loop (S (length (pending w))) None w) as [[[]| |] ?].
Qed.

(** One turn of the loop on a line of graphic keys: the prompt, the echo
    of the keys and a line feed are displayed, and the line is looked at. *)
Lemma Input_loop_line fuel cur w t units nl rest :
  at_terminal w t ->
  pending w = units ++ nl :: rest ->
  Forall (fun k => graphic_key G (control_bytes K (modified t)) k = true) units ->
  first_byte nl = Some term.linefeed ->
  term.cc (modified t) (unix.VEOF K) <> term.linefeed ->
  term.Limit Value opt <= 0 \/ len units < term.Limit Value opt ->
  let line := concat (map bytes_read units) in
  let w1 := set_pending rest
              (set_display (display w ++ prompt ++ echo_of (term.Echo Value opt) units
                            ++ [term.linefeed]) w) in
  loop (S fuel) cur w
  = if len line =? 0 then
      match term.Default Value opt with
      | Some d => (v <- term.setValue Value Set_panics d ;; ret (Some v, None)) w1
      | None => loop fuel cur (set_display (display w1 ++ reset) w1)
      end
    else
      match term.ConvFunc Value opt with
      | None =>
          let cur' := match fst (Sscan line) with Some v => Some v | None => cur end in
          if snd (Sscan line) then loop fuel cur' (set_display (display w1 ++ reset) w1)
          else (Returns (cur', None), w1)
      | Some f =>
          match f line with
          | None => loop fuel cur (set_display (display w1 ++ reset) w1)
          | Some v => (v <- term.setValue Value Set_panics v ;; ret (Some v, None)) w1
          end
      end.
Proof.
  intros Hat Hp Hu Hnl Hv Hl line w1.
  cbn [term.Input_loop]. unfold bind at 1. unfold os.Stdout_Write at 1.
  rewrite (bind_returns _ _ _ _ _
             (GetBytes_line_at_terminal K G rev (term.Echo Value opt) (term.Limit Value opt)
                (set_display (display w ++ prompt) w) t units nl rest
                (at_terminal_frame w t (pending w) _ Hat) Hp Hu Hnl Hv Hl)).
  unfold bind at 1. unfold os.Stdout_Write at 1. cbn [fst snd].
  assert (Hw1 : set_display
                  (display (set_pending rest
                     (set_display (display (set_display (display w ++ prompt) w)
                                   ++ echo_of (term.Echo Value opt) units)
                        (set_display (display w ++ prompt) w))) ++ [term.linefeed])
                  (set_pending rest
                     (set_display (display (set_display (display w ++ prompt) w)
                                   ++ echo_of (term.Echo Value opt) units)
                        (set_display (display w ++ prompt) w)))
                = w1).
  { subst w1. destruct w. unfold set_pending, set_display. cbn.
    now rewrite <- !app_assoc. }
  rewrite Hw1. fold line.
  destruct (len line =? 0).
  - destruct (term.Default Value opt); [reflexivity|].
    unfold bind, term.resetPrompt, os.Stdout_Write. reflexivity.
  - destruct (term.ConvFunc Value opt) as [f|].
    + destruct (f line); [reflexivity|].
      unfold bind, term.resetPrompt, os.Stdout_Write. reflexivity.
    + destruct (Sscan line) as [stored failed]. cbn [fst snd].
      destruct failed; [|reflexivity].
      unfold bind, term.resetPrompt, os.Stdout_Write. reflexivity.
Qed.

(** X23. A line that [Input] cannot use (an empty line when there is no
    default, a line that the conversion function rejects, a line that
    [fmt.Sscan] rejects without storing anything) has no effect other than
    on the display: the prompt, the echo of the line and a line feed, then
    the escape sequences that move the cursor back up and erase the line;
    [Input] goes on as if called anew with the reads that follow. *)
Theorem Input_asks_again w t units nl rest :
  at_terminal w t ->
  pending w = units ++ nl :: rest ->
  Forall (fun k => graphic_key G (control_bytes K (modified t)) k = true) units ->
  first_byte nl = Some term.linefeed ->
  term.cc (modified t) (unix.VEOF K) <> term.linefeed ->
  term.Limit Value opt = 0 \/ len units < term.Limit Value opt ->
  let line := concat (map bytes_read units) in
  (line = [] /\ term.Default Value opt = None)
  \/ (line <> [] /\ exists f, term.ConvFunc Value opt = Some f /\ f line = None)
  \/ (line <> [] /\ term.ConvFunc Value opt = None /\ Sscan line = (None, true)) ->
  Input w
  = Input (set_pending rest
             (set_display (display w ++ prompt ++ echo_of (term.Echo Value opt) units
                           ++ [term.linefeed] ++ reset) w)).
Proof.
  intros Hat Hp Hu Hnl Hv Hl line Hrej.
  rewrite (Input_at_terminal w t Hat).
  rewrite (Input_at_terminal _ t (at_terminal_frame w t rest _ Hat)).
  rewrite (Input_loop_line _ None w t units nl rest Hat Hp Hu Hnl Hv
             ltac:(destruct Hl; [left; lia|now right])).
  cbv zeta. fold line.
  assert (Hgo : loop (length (pending w)) None
                  (set_display
                     (display (set_pending rest
                        (set_display (display w ++ prompt
                                      ++ echo_of (term.Echo Value opt) units
                                      ++ [term.linefeed]) w)) ++ reset)
                     (set_pending rest
                        (set_display (display w ++ prompt
                                      ++ echo_of (term.Echo Value opt) units
                                      ++ [term.linefeed]) w)))
                = loop (S (length rest)) None
                    (set_pending rest
                       (set_display (display w ++ prompt
                                     ++ echo_of (term.Echo Value opt) units
                                     ++ [term.linefeed] ++ reset) w))).
  { assert (Hw : forall a b c d,
              set_display (display (set_pending rest (set_display (display w ++ a ++ b ++ c) w))
                           ++ d)
                (set_pending rest (set_display (display w ++ a ++ b ++ c) w))
              = set_pending rest (set_display (display w ++ a ++ b ++ c ++ d) w)).
    { intros a b c d. destruct w. unfold set_pending, set_display. cbn.
      now rewrite <- !app_assoc. }
    rewrite Hw. apply Input_loop_fuel; cbn [pending set_pending set_display]; [|lia].
    rewrite Hp, length_app. cbn [length]. lia. }
  assert (Hlen : forall l : list byte, l <> [] -> (len l =? 0) = false).
  { intros l Hne. apply Z.eqb_neq. pose proof (len_pos l Hne). lia. }
  destruct Hrej as [[E D]|[(Hne & f & C & R)|(Hne & C & R)]].
  - rewrite E. change (len [] =? 0) with true. cbv iota. rewrite D.
    cbn [pending set_pending set_display]. now rewrite Hgo.
  - rewrite (Hlen _ Hne), C, R. cbn [pending set_pending set_display]. now rewrite Hgo.
  - rewrite (Hlen _ Hne), C, R. cbn [fst snd pending set_pending set_display].
    now rewrite Hgo.
Qed.

(** X24. A line that the conversion function accepts: [Input] stores the
    converted value into [*in] and returns no error; the reads after the
    line terminator stay pending, and the display shows the prompt, the
    echo of the line and a line feed.  When the value is not assignable to
    [*in], [Input] panics at that point. *)
Theorem Input_stores_the_converted_value w t units nl rest f v :
  at_terminal w t ->
  pending w = units ++ nl :: rest ->
  Forall (fun k => graphic_key G (control_bytes K (modified t)) k = true) units ->
  first_byte nl = Some term.linefeed ->
  term.cc (modified t) (unix.VEOF K) <> term.linefeed ->
  term.Limit Value opt = 0 \/ len units < term.Limit Value opt ->
  units <> [] ->
  term.ConvFunc Value opt = Some f ->
  f (concat (map bytes_read units)) = Some v ->
  Input w
  = (match Set_panics v with
     | None => Returns (Some v, None)
     | Some msg => Panics msg
     end,
     set_pending rest
       (set_display (display w ++ prompt ++ echo_of (term.Echo Value opt) units
                     ++ [term.linefeed]) w)).
Proof.
  intros Hat Hp Hu Hnl Hv Hl Hne C R.
  rewrite (Input_at_terminal w t Hat).
  rewrite (Input_loop_line _ None w t units nl rest Hat Hp Hu Hnl Hv
             ltac:(destruct Hl; [left; lia|now right])).
  cbv zeta.
  assert ((len (concat (map bytes_read units)) =? 0) = false) as ->.
  { apply Z.eqb_neq. destruct units as [|k us]; [congruence|].
    apply Forall_cons in Hu as [Hk _]. cbn [map concat]. rewrite len_app.
    unfold graphic_key in Hk. destruct (first_byte k) as [b0|] eqn:Hb; [|discriminate].
    pose proof (len_pos _ (bytes_read_nonempty k b0 Hb)).
    pose proof (len_nonneg (concat (map bytes_read us))). lia. }
  rewrite C, R. unfold bind, term.setValue, ret, panic.
  now destruct (Set_panics v).
Qed.

(** X25. The line terminator alone, when there is a default: [Input]
    stores the default into [*in] and returns no error; when the default
    is not assignable to [*in], it panics. *)
Theorem Input_stores_the_default w t nl rest d :
  at_terminal w t ->
  pending w = nl :: rest ->
  first_byte nl = Some term.linefeed ->
  term.cc (modified t) (unix.VEOF K) <> term.linefeed ->
  term.Default Value opt = Some d ->
  Input w
  = (match Set_panics d with
     | None => Returns (Some d, None)
     | Some msg => Panics msg
     end,
     set_pending rest (set_display (display w ++ prompt ++ [term.linefeed]) w)).
Proof.
  intros Hat Hp Hnl Hv D.
  rewrite (Input_at_terminal w t Hat).
  rewrite (Input_loop_line _ None w t [] nl rest Hat Hp (Forall_nil_2 _) Hnl Hv
             ltac:(change (len (@nil ReadResult)) with 0; lia)).
  cbv zeta. cbn [map concat]. change (len [] =? 0) with true. cbv iota.
  rewrite D. unfold bind, term.setValue, ret, panic, echo_of.
  assert (He : (if term.Echo Value opt =? term.EchoNormal then concat (map bytes_read [])
                else if term.Echo Value opt =? term.EchoMask
                     then repeat term.maskChar (length (@nil ReadResult)) else [])
               = []).
  { now repeat destruct (_ =? _). }
  rewrite He. cbn [app]. now destruct (Set_panics d).
Qed.


(** X27. A read that fails with an error other than [io.EOF]: the first
    revision of [Input] panics with the error, the second returns it; both
    leave [*in] as it is. *)
Theorem Input_read_failure w t e rest :
  at_terminal w t ->
  pending w = ReadFails e :: rest ->
  e <> io_EOF ->
  Input w
  = (match rev with
     | term.LinuxOnly => Panics (Error e)
     | term.Unixoid => Returns (None, Some (term.GetError e))
     end,
     set_pending rest (set_display (display w ++ prompt ++ [term.linefeed]) w)).
Proof.
  intros Hat Hp He.
  rewrite (Input_at_terminal w t Hat).
  cbn [term.Input_loop]. unfold bind at 1. unfold os.Stdout_Write at 1.
  rewrite (bind_returns _ _ _ _ _
             (proj2 (GetBytes_first_read_at_terminal K G rev (term.Echo Value opt)
                       (term.Limit Value opt) (set_display (display w ++ prompt) w) t
                       (ReadFails e) rest
                       (at_terminal_frame w t (pending w) _ Hat) Hp) e eq_refl)).
  unfold bind at 1. unfold os.Stdout_Write at 1. cbn [fst snd].
  assert (Hw : set_display
                 (display (set_pending rest (set_display (display w ++ prompt) w))
                  ++ [term.linefeed])
                 (set_pending rest (set_display (display w ++ prompt) w))
               = set_pending rest (set_display (display w ++ prompt ++ [term.linefeed]) w)).
  { destruct w. unfold set_pending, set_display. cbn. now rewrite <- !app_assoc. }
  rewrite Hw. destruct rev; [|reflexivity].
  rewrite bool_decide_eq_false_2 by exact He. reflexivity.
Qed.

End InputAtTerminal.

Lemma session_at_terminal keys : at_terminal (session [] keys) cooked.
Proof. split; [reflexivity|]. split; [eexists|]; reflexivity. Qed.

(** X23, witness. The answer x to a question that takes y or n: the
    question is asked again, and the answer y that follows is taken. *)
Lemma Input_asks_again_witness :
  let w := session [] [Read1 "x"%byte; enter; Read1 "y"%byte; enter] in
  Input_linux term.Unixoid (bytes_of "ok? ") (ask None) w
  = Input_linux term.Unixoid (bytes_of "ok? ") (ask None)
      (set_pending [Read1 "y"%byte; enter]
         (set_display (bytes_of "ok? x" ++ [x0a; x1b; "["%byte; "A"%byte; x1b; "["%byte;
                                            "G"%byte; x1b; "["%byte; "K"%byte]) w))
  /\ fst (Input_linux term.Unixoid (bytes_of "ok? ") (ask None) w) = Returns (Some 1, None).
Proof.
  intros w. split; [|reflexivity].
  apply (Input_asks_again unix.linux unicode.GraphicRanges_rows Z (fun _ => None)
           (fun _ => (None, true)) term.Unixoid (bytes_of "ok? ") (ask None)
           w cooked [Read1 "x"%byte] enter [Read1 "y"%byte; enter]
           (session_at_terminal _) eq_refl).
  - repeat (constructor; [reflexivity|]). constructor.
  - reflexivity.
  - discriminate.
  - now left.
  - right. left. split; [discriminate|]. exists yes_no. split; reflexivity.
Defined.

(** X24, witness. The answer n. *)
Lemma Input_stores_the_converted_value_witness :
  let w := session [] [Read1 "n"%byte; enter; Read1 "z"%byte] in
  Input_linux term.LinuxOnly (bytes_of "ok? ") (ask None) w
  = (Returns (Some 0, None),
     set_pending [Read1 "z"%byte] (set_display (bytes_of "ok? n" ++ [x0a]) w)).
Proof.
  intros w.
  apply (Input_stores_the_converted_value unix.linux unicode.GraphicRanges_rows Z
           (fun _ => None) (fun _ => (None, true)) term.LinuxOnly (bytes_of "ok? ") (ask None)
           w cooked [Read1 "n"%byte] enter [Read1 "z"%byte] yes_no 0
           (session_at_terminal _) eq_refl).
  - repeat (constructor; [reflexivity|]). constructor.
  - reflexivity.
  - discriminate.
  - now left.
  - discriminate.
  - reflexivity.
  - reflexivity.
Defined.

(** X25, witness. Enter alone, with the default 0. *)
Lemma Input_stores_the_default_witness :
  let w := session [] [enter] in
  Input_linux term.Unixoid (bytes_of "ok? ") (ask (Some 0)) w
  = (Returns (Some 0, None), set_pending [] (set_display (bytes_of "ok? " ++ [x0a]) w)).
Proof.
  intros w.
  apply (Input_stores_the_default unix.linux unicode.GraphicRanges_rows Z
           (fun _ => None) (fun _ => (None, true)) term.Unixoid (bytes_of "ok? ")
           (ask (Some 0)) w cooked enter [] 0 (session_at_terminal _) eq_refl).
  - reflexivity.
  - discriminate.
  - reflexivity.
Defined.


(** X27, witness. The read fails with EIO: a panic in the first revision,
    an error in the second. *)
Lemma Input_read_failure_witness :
  let w := session [] [ReadFails read_error] in
  fst (Input_linux term.LinuxOnly (bytes_of "ok? ") (ask None) w)
  = Panics "read /dev/stdin: input/output error"
  /\ fst (Input_linux term.Unixoid (bytes_of "ok? ") (ask None) w)
     = Returns (None, Some (term.GetError read_error)).
Proof.
  intros w. split.
  - apply (f_equal fst
             (Input_read_failure unix.linux unicode.GraphicRanges_rows Z
                (fun _ => None) (fun _ => (None, true)) term.LinuxOnly (bytes_of "ok? ")
                (ask None) w cooked read_error [] (session_at_terminal _) eq_refl
                ltac:(discriminate))).
  - apply (f_equal fst
             (Input_read_failure unix.linux unicode.GraphicRanges_rows Z
                (fun _ => None) (fun _ => (None, true)) term.Unixoid (bytes_of "ok? ")
                (ask None) w cooked read_error [] (session_at_terminal _) eq_refl
                ltac:(discriminate))).
Defined.

(** X28, witness. The kernel refuses the ioctl that reads the settings
    (the third of the call) with EIO. *)
Lemma GetBytes_settings_unreadable_witness :
  let w := session [None; None; Some unix.EIO] [key_h; enter] in
  exists w',
    GetBytes_linux term.Unixoid term.EchoNormal 0 w
    = (Returns ([], Some (Errno_error unix.EIO)), w')
    /\ pending w' = pending w /\ display w' = display w /\ files w' = files w.
Proof.
  intros w.
  apply (GetBytes_settings_unreadable unix.linux unicode.GraphicRanges_rows term.Unixoid
           term.EchoNormal 0 w unix.EIO); reflexivity.
Defined.

(** ** End of input and the limit, one character to a read *)

Section OneCharacterToARead.
Variable K : unix.Consts.
Variable G : rune -> bool.
Variables (rev : term.Revision) (echo : term.EchoMode) (limit : Z).

(** X29. On a platform where VEOF is neither the slot of VMIN nor that of
    VTIME, a read that begins with the end-of-input byte of the terminal
    ends [GetBytes]: with [io.EOF] and no bytes when the buffer is empty,
    with the buffer and no error otherwise; the reads after it stay
    pending. *)
Theorem terminal_end_of_input_byte w t keys key rest b :
  unix.VEOF K <> unix.VMIN K ->
  unix.VEOF K <> unix.VTIME K ->
  enters_read_loop w t ->
  pending w = keys ++ key :: rest ->
  buffer_after K G rev echo limit (term.input_settings K rev t) keys w = Some b ->
  first_byte key = Some (term.cc t (unix.VEOF K)) ->
  exists w',
    term.GetBytes K G rev echo limit w
    = (Returns (b, if len b =? 0 then Some io_EOF else None), w')
    /\ pending w' = rest.
Proof.
  intros H1 H2 Hat Hp Hb Hk.
  rewrite <- (cc_input_settings K rev t _ H1 H2) in Hk.
  destruct (GetBytes_after_keys K G rev echo limit w t keys (key :: rest) b Hat Hp Hb)
    as (w1 & ->).
  rewrite (read_loop_eof K G rev echo limit _ key rest b w1 Hk).
  eexists. split; [reflexivity|].
  now rewrite (proj2 (IoctlSetTermios_frame _ _ _)).
Qed.

(** X30. When every read delivers one graphic character, a limit [N > 0]
    completes the read with the [N]-th key: [GetBytes] returns the [N]
    characters without a line terminator, their echo is on the display
    and the reads after the [N]-th key stay pending. *)
Theorem limit_completes_at_the_Nth_key w t units rest :
  enters_read_loop w t ->
  pending w = units ++ rest ->
  Forall (fun k => graphic_key G (control_bytes K (term.input_settings K rev t)) k = true)
    units ->
  0 < limit ->
  len units = limit ->
  exists w',
    term.GetBytes K G rev echo limit w
    = (Returns (concat (map bytes_read units), None), w')
    /\ pending w' = rest
    /\ display w' = display w ++ echo_of echo units.
Proof.
  intros Hat Hp Hu Hl He.
  destruct (GetBytes_in_read_loop K G rev echo limit w t Hat) as (w0 & Hd & ->).
  rewrite Hp.
  destruct units as [|k0 us _] using rev_ind; [unfold len in He; cbn in He; lia|].
  apply Forall_app in Hu as [Hus Hk]. apply Forall_cons in Hk as [Hk _].
  rewrite <- app_assoc. cbn [app].
  rewrite (read_loop_limit K G rev echo limit (term.input_settings K rev t)
             us k0 rest _ Hus Hk Hl).
  2:{ unfold len in *. rewrite length_app in He. cbn [length] in He. lia. }
  eexists. split; [reflexivity|].
  rewrite (proj1 (IoctlSetTermios_frame _ _ _)), (proj2 (IoctlSetTermios_frame _ _ _)).
  cbn [display pending set_pending set_display].
  now rewrite Hd.
Qed.
End OneCharacterToARead.

(** X29, witness. On linux: ^D after "ab", and the key after it. *)
Lemma terminal_end_of_input_byte_witness :
  exists w',
    GetBytes_linux term.Unixoid term.EchoNormal 0
      (session [] (typed "ab" ++ [Read1 ctrl_D; Read1 "z"%byte]))
    = (Returns (bytes_of "ab", None), w')
    /\ pending w' = [Read1 "z"%byte].
Proof.
  apply (terminal_end_of_input_byte unix.linux unicode.GraphicRanges_rows term.Unixoid
           term.EchoNormal 0 _ cooked (typed "ab") (Read1 ctrl_D) [Read1 "z"%byte]
           (bytes_of "ab")); try reflexivity; try discriminate.
  apply session_enters_read_loop.
Defined.

(** X30, witness. The limit 2 and three keys: two characters in three
    bytes come back, the third key stays pending. *)
Lemma limit_completes_at_the_Nth_key_witness :
  exists w',
    GetBytes_linux term.Unixoid term.EchoMask 2
      (session [] ([key_h; key_e_acute] ++ [Read1 "z"%byte; enter]))
    = (Returns ([x68; xc3; xa9], None), w')
    /\ pending w' = [Read1 "z"%byte; enter]
    /\ display w' = [] ++ bytes_of "**".
Proof.
  apply (limit_completes_at_the_Nth_key unix.linux unicode.GraphicRanges_rows term.Unixoid
           term.EchoMask 2 _ cooked [key_h; key_e_acute] [Read1 "z"%byte; enter]
           (session_enters_read_loop _) eq_refl).
  - repeat (constructor; [reflexivity|]). constructor.
  - lia.
  - reflexivity.
Defined.
